(** * TruckFinalProyect backend: shallow embedding and verified properties

    The development follows the Python sources under [backend/app]:

    - [Permissions]      : [app/auth/permissions.py]
    - [Staleness]        : [app/services/data_staleness_service.py]
    - [PyStr]            : the fragment of Python's [str] used by the validators
    - [Validators]       : [app/validators/common_validators.py]
    - [Fleet]            : [app/models/vehicle.py]
    - [RouteOptimization]: [app/services/route_optimization_service.py]
    - [RouteComparison]  : [app/services/route_comparison_service.py]
    - [RateLimit]        : [app/middleware/rate_limit_middleware.py]
    - [OptimizeSteps]    : the steps of [optimize_route], named
    - [RouteRanking]     : ranking and metrics of
                           [app/services/route_comparison_service.py]
    - [Authorization]    : [app/auth/dependencies.py], [app/auth/decorators.py]
    - [StalenessReport]  : alerts and reports of
                           [app/services/data_staleness_service.py]
    - [CommonValidators] : coordinates and phone numbers of
                           [app/validators/common_validators.py]

    Conventions.  Python [int] is [Z].  Python [float] and [Decimal] values are
    represented by the exact rational they denote ([Q], compared with [==]);
    binary rounding of floats and the precision of the decimal context are
    not represented.  Python [str] is a list of characters with code points
    below 256.  A function that can raise returns a sum whose left side is the
    exception. *)

From Stdlib Require Import ZArith QArith Lia Lqa Ascii String Bool List.
From Stdlib Require Import Qabs Qround DecimalString.
From stdpp Require Import gmap strings.
Import ListNotations.

Local Open Scope Z_scope.

(* ===================================================================== *)
(** ** Role based permissions ([app/auth/permissions.py])                *)
(* ===================================================================== *)

Module Permissions.

(** [class UserRole(str, enum.Enum)] of [app/models/user.py]. *)
Inductive UserRole : Set := ADMIN | OPERATOR.

(** [class Permission(str, Enum)]: one constructor per member, in source
    order. *)
Inductive Permission : Set :=
| CREATE_USER | READ_USER | UPDATE_USER | DELETE_USER
| CREATE_COMPANY | READ_COMPANY | UPDATE_COMPANY | DELETE_COMPANY
| CREATE_VEHICLE | READ_VEHICLE | UPDATE_VEHICLE | DELETE_VEHICLE
| CALCULATE_ROUTE | READ_ROUTE | DELETE_ROUTE
| CREATE_FUEL_PRICE | READ_FUEL_PRICE | UPDATE_FUEL_PRICE | DELETE_FUEL_PRICE
| CREATE_TOLL | READ_TOLL | UPDATE_TOLL | DELETE_TOLL
| GENERATE_REPORT
| ADMIN_PANEL | VIEW_SYSTEM_STATS | MANAGE_SYSTEM_DATA.

#[global] Instance Permission_eq_dec : EqDecision Permission.
Proof. solve_decision. Defined.

#[global] Instance UserRole_eq_dec : EqDecision UserRole.
Proof. solve_decision. Defined.

(** The members of the enumeration, as [list(Permission)] yields them. *)
Definition all_permissions : list Permission :=
  [ CREATE_USER; READ_USER; UPDATE_USER; DELETE_USER;
    CREATE_COMPANY; READ_COMPANY; UPDATE_COMPANY; DELETE_COMPANY;
    CREATE_VEHICLE; READ_VEHICLE; UPDATE_VEHICLE; DELETE_VEHICLE;
    CALCULATE_ROUTE; READ_ROUTE; DELETE_ROUTE;
    CREATE_FUEL_PRICE; READ_FUEL_PRICE; UPDATE_FUEL_PRICE; DELETE_FUEL_PRICE;
    CREATE_TOLL; READ_TOLL; UPDATE_TOLL; DELETE_TOLL;
    GENERATE_REPORT;
    ADMIN_PANEL; VIEW_SYSTEM_STATS; MANAGE_SYSTEM_DATA ].

(** [ROLE_PERMISSIONS]: the two set literals, element by element. *)
Definition ROLE_PERMISSIONS (role : UserRole) : list Permission :=
  match role with
  | ADMIN =>
      [ CREATE_USER; READ_USER; UPDATE_USER; DELETE_USER;
        CREATE_COMPANY; READ_COMPANY; UPDATE_COMPANY; DELETE_COMPANY;
        CREATE_VEHICLE; READ_VEHICLE; UPDATE_VEHICLE; DELETE_VEHICLE;
        CALCULATE_ROUTE; READ_ROUTE; DELETE_ROUTE;
        CREATE_FUEL_PRICE; READ_FUEL_PRICE; UPDATE_FUEL_PRICE;
        DELETE_FUEL_PRICE;
        CREATE_TOLL; READ_TOLL; UPDATE_TOLL; DELETE_TOLL;
        GENERATE_REPORT;
        ADMIN_PANEL; VIEW_SYSTEM_STATS; MANAGE_SYSTEM_DATA ]
  | OPERATOR =>
      [ READ_USER; UPDATE_USER;
        READ_COMPANY;
        CREATE_VEHICLE; READ_VEHICLE; UPDATE_VEHICLE; DELETE_VEHICLE;
        CALCULATE_ROUTE; READ_ROUTE;
        READ_FUEL_PRICE;
        READ_TOLL;
        GENERATE_REPORT ]
  end.

(** [get_user_permissions]: both roles are keys of the dictionary, so the
    [set()] default of [.get] is never taken for a [UserRole]. *)
Definition get_user_permissions (role : UserRole) : list Permission :=
  ROLE_PERMISSIONS role.

(** [has_permission]: [permission in user_permissions]. *)
Definition has_permission (role : UserRole) (permission : Permission) : bool :=
  bool_decide (permission ∈ get_user_permissions role).

(** [has_any_permission] and [has_all_permissions]. *)
Definition has_any_permission (role : UserRole) (permissions : list Permission) : bool :=
  existsb (has_permission role) permissions.

Definition has_all_permissions (role : UserRole) (permissions : list Permission) : bool :=
  forallb (has_permission role) permissions.

(** The subset the documentation lists for operators. *)
Definition operator_subset : list Permission :=
  [ READ_USER; UPDATE_USER; READ_COMPANY;
    CREATE_VEHICLE; READ_VEHICLE; UPDATE_VEHICLE; DELETE_VEHICLE;
    CALCULATE_ROUTE; READ_ROUTE; READ_FUEL_PRICE; READ_TOLL;
    GENERATE_REPORT ].

(** "The subsystem defines exactly [n] permission atoms": the type has an
    enumeration without repetition of length [n]. *)
Definition defines_exactly (n : nat) : Prop :=
  ∃ l : list Permission, NoDup l ∧ (∀ p, p ∈ l) ∧ length l = n.

End Permissions.

(* ===================================================================== *)
(** ** Data staleness levels ([app/services/data_staleness_service.py])  *)
(* ===================================================================== *)

Module Staleness.

(** [class DataStalenessLevel(str, Enum)]. *)
Inductive DataStalenessLevel : Set := FRESH | WARNING | STALE | CRITICAL.

#[global] Instance DataStalenessLevel_eq_dec : EqDecision DataStalenessLevel.
Proof. solve_decision. Defined.

(** The inner dictionaries of [self.thresholds] have exactly the keys
    [WARNING], [STALE] and [CRITICAL]. *)
Record Thresholds : Set := mkThresholds
  { th_WARNING : Z; th_STALE : Z; th_CRITICAL : Z }.

(** [self.thresholds], set in [DataStalenessService.__init__]. *)
Definition thresholds : gmap string Thresholds :=
  <["fuel_price"%string := mkThresholds 15 30 60]>
    (<["toll"%string := mkThresholds 90 180 365]> ∅).

(** [self.thresholds["fuel_price"]]. *)
Definition thresholds_fuel_price : Thresholds :=
  default (mkThresholds 15 30 60) (thresholds !! "fuel_price"%string).

(** [_get_staleness_level(data_type, days_old)]. *)
Definition _get_staleness_level (data_type : string) (days_old : Z)
  : DataStalenessLevel :=
  let th := default thresholds_fuel_price (thresholds !! data_type) in
  if th_CRITICAL th <=? days_old then CRITICAL
  else if th_STALE th <=? days_old then STALE
  else if th_WARNING th <=? days_old then WARNING
  else FRESH.

(** The threshold a level stands for in a table; [FRESH] has none. *)
Definition level_threshold (th : Thresholds) (l : DataStalenessLevel) : option Z :=
  match l with
  | FRESH => None
  | WARNING => Some (th_WARNING th)
  | STALE => Some (th_STALE th)
  | CRITICAL => Some (th_CRITICAL th)
  end.

(** Severity order of the levels. *)
Definition severity (l : DataStalenessLevel) : Z :=
  match l with FRESH => 0 | WARNING => 1 | STALE => 2 | CRITICAL => 3 end.

(** "The level is the highest threshold the age meets or exceeds, else
    fresh": [l] is met (or is [FRESH]) and no more severe level is met. *)
Definition highest_met (th : Thresholds) (days_old : Z) (l : DataStalenessLevel) : Prop :=
  (∀ t, level_threshold th l = Some t → t <= days_old) ∧
  (∀ l' t, level_threshold th l' = Some t → t <= days_old →
           severity l' <= severity l).

End Staleness.

(* ===================================================================== *)
(** ** The fragment of Python's [str] the validators use                 *)
(* ===================================================================== *)

Module PyStr.

(** A string is the list of its characters; a character is a code point
    below 256. *)
Definition str : Type := list ascii.

(** A literal. *)
Definition lit (s : string) : str := list_ascii_of_string s.

Definition code (c : ascii) : N := N_of_ascii c.

Definition in_range (lo hi : N) (c : ascii) : bool :=
  ((lo <=? code c) && (code c <=? hi))%N.

(** [c.isspace()], the characters [str.strip()] removes: TAB, LF, VT, FF,
    CR, FS, GS, RS, US, SPACE, NEL (0x85) and NBSP (0xA0). *)
Definition isspace (c : ascii) : bool :=
  in_range 9 13 c || in_range 28 32 c || (code c =? 133)%N || (code c =? 160)%N.

(** [\d] of a [str] pattern: below 256 the decimal digits are 0-9. *)
Definition is_digit (c : ascii) : bool := in_range 48 57 c.

(** [[A-Z]]. *)
Definition is_AZ (c : ascii) : bool := in_range 65 90 c.

(** [int(c)] for a decimal digit [c]. *)
Definition int_of_digit (c : ascii) : Z := Z.of_N (code c) - 48.

Fixpoint drop_while (f : ascii → bool) (s : str) : str :=
  match s with
  | [] => []
  | c :: s' => if f c then drop_while f s' else s
  end.

(** [s.lstrip()], [s.rstrip()], [s.strip()]. *)
Definition lstrip (s : str) : str := drop_while isspace s.
Definition rstrip (s : str) : str := rev (drop_while isspace (rev s)).
Definition strip (s : str) : str := rstrip (lstrip s).

(** [c.upper()]: a-z and the Latin-1 letters 0xE0-0xFE (but the division
    sign 0xF7) move down by 32; the sharp s (0xDF) becomes "SS".  The
    upper-case forms of the micro sign (0xB5) and of y with diaeresis (0xFF)
    are U+039C and U+0178, outside the alphabet: these two characters are
    kept, and like their upper-case forms they are no letter A-Z, no digit,
    no space, no hyphen and no newline. *)
Definition upper_char (c : ascii) : str :=
  if in_range 97 122 c then [ascii_of_N (code c - 32)]
  else if (code c =? 223)%N then lit "SS"
  else if in_range 224 254 c && negb (code c =? 247)%N
       then [ascii_of_N (code c - 32)]
  else [c].

(** [s.upper()]. *)
Definition upper (s : str) : str := flat_map upper_char s.



(** [s.replace(c, '')] for a one-character [c]. *)
Definition remove_char (c : ascii) (s : str) : str :=
  List.filter (fun x => negb (Ascii.eqb x c)) s.




(** Truth value of a string: non-empty. *)
Definition truthy (s : str) : bool :=
  match s with [] => false | _ :: _ => true end.

(** [re.sub(r'\D', '', s)]: the digits of [s], in order. *)
Definition sub_nondigits (s : str) : str := List.filter is_digit s.

(** The patterns of the validators have the shape [^ C1 C2 ... Cn $] where
    each [Ci] is [[A-Z]] or [\d]. *)
Inductive CharClass : Set := AZ | D.

Definition class_matches (k : CharClass) (c : ascii) : bool :=
  match k with AZ => is_AZ c | D => is_digit c end.

(** [re.match(p, s)] for such a pattern, without flags: the classes consume
    one character each from the start, and [$] holds at the end of the
    string and also just before a newline that ends the string. *)
Fixpoint re_match (p : list CharClass) (s : str) : bool :=
  match p with
  | [] =>
      match s with
      | [] => true
      | [c] => Ascii.eqb c "010"%char
      | _ => false
      end
  | k :: p' =>
      match s with
      | [] => false
      | c :: s' => class_matches k c && re_match p' s'
      end
  end.

End PyStr.

(* ===================================================================== *)
(** ** Common validators ([app/validators/common_validators.py])         *)
(* ===================================================================== *)

Module Validators.
Import PyStr.

(** [fastapi.HTTPException]: the status code and the detail message. *)
Record HTTPException : Set := mkHTTPException
  { status_code : Z; detail : string }.

Definition HTTP_400_BAD_REQUEST : Z := 400.

(** The three Argentina patterns:
    [^[A-Z]{3}\d{3}$], [^[A-Z]{2}\d{3}[A-Z]{2}$], [^\d{3}[A-Z]{3}$]. *)
Definition patterns : list (list CharClass) :=
  [ repeat AZ 3 ++ repeat D 3;
    repeat AZ 2 ++ repeat D 3 ++ repeat AZ 2;
    repeat D 3 ++ repeat AZ 3 ].

(** [license_plate.strip().upper().replace(' ', '').replace('-', '')]. *)
Definition normalize_plate (license_plate : str) : str :=
  remove_char "-" (remove_char " " (upper (strip license_plate))).

(** [validate_license_plate]: the loop returns at the first pattern that
    matches, and every pattern returns the same [normalized]. *)
Definition validate_license_plate (license_plate : str) : HTTPException + str :=
  if negb (truthy license_plate) || negb (truthy (strip license_plate)) then
    inl (mkHTTPException HTTP_400_BAD_REQUEST "License plate cannot be empty")
  else
    let normalized := normalize_plate license_plate in
    if existsb (fun pattern => re_match pattern normalized) patterns then
      inr normalized
    else
      inl (mkHTTPException HTTP_400_BAD_REQUEST
             "Invalid license plate format. Expected formats: ABC123, AB123CD, or 123ABC").

(** The string is exactly one character of each class of the pattern, as
    the documentation reads the three formats. *)
Definition has_shape (pattern : list CharClass) (s : str) : Prop :=
  Forall2 (fun k c => class_matches k c = true) pattern s.

(** One of ABC123, AB123CD, 123ABC. *)
Definition plate_format (s : str) : Prop :=
  ∃ pattern, pattern ∈ patterns ∧ has_shape pattern s.

(** The line feed. *)
Definition LF : ascii := "010"%char.

(** [multipliers] of [_validate_cuit_algorithm]. *)
Definition multipliers : list Z := [5; 4; 3; 2; 7; 6; 5; 4; 3; 2].

(** [sum(xs)]. *)
Definition py_sum (xs : list Z) : Z := fold_left Z.add xs 0.

(** [_validate_cuit_algorithm(cuit)]; the caller passes a string of decimal
    digits, on which [int(cuit[i])] is [int_of_digit]. *)
Definition _validate_cuit_algorithm (cuit : str) : bool :=
  if negb (length cuit =? 11)%nat then false
  else
    let total :=
      py_sum (map (fun i => int_of_digit (nth i cuit "0"%char) * nth i multipliers 0)
               (seq 0 10)) in
    let remainder := total mod 11 in
    let check_digit := if remainder <? 2 then remainder else 11 - remainder in
    int_of_digit (nth 10 cuit "0"%char) =? check_digit.

(** [f"{normalized[:2]}-{normalized[2:10]}-{normalized[10]}"]. *)
Definition format_tax_id (normalized : str) : str :=
  firstn 2 normalized ++ lit "-" ++ firstn 8 (skipn 2 normalized) ++ lit "-"
    ++ [nth 10 normalized "0"%char].

(** [validate_tax_id]. *)
Definition validate_tax_id (tax_id : str) : HTTPException + str :=
  if negb (truthy tax_id) || negb (truthy (strip tax_id)) then
    inl (mkHTTPException HTTP_400_BAD_REQUEST "Tax ID cannot be empty")
  else
    let normalized := sub_nondigits (strip tax_id) in
    if negb (length normalized =? 11)%nat then
      inl (mkHTTPException HTTP_400_BAD_REQUEST "Tax ID (CUIT/CUIL) must be 11 digits")
    else if negb (_validate_cuit_algorithm normalized) then
      inl (mkHTTPException HTTP_400_BAD_REQUEST "Invalid CUIT/CUIL format")
    else inr (format_tax_id normalized).

(** The function returns, it does not raise. *)
Definition accepts {E A} (r : E + A) : Prop := ∃ a, r = inr a.

(** *** The checksum as the documentation words it *)

(** The digits left after every non-digit character is stripped. *)
Definition digits_of (s : str) : list Z :=
  map int_of_digit (List.filter is_digit s).

(** Digits 0 to 9 multiplied by the weights 5,4,3,2,7,6,5,4,3,2 and summed. *)
Definition weighted_sum (ds : list Z) : Z :=
  match ds with
  | d0 :: d1 :: d2 :: d3 :: d4 :: d5 :: d6 :: d7 :: d8 :: d9 :: _ =>
      5 * d0 + 4 * d1 + 3 * d2 + 2 * d3 + 7 * d4
      + 6 * d5 + 5 * d6 + 4 * d7 + 3 * d8 + 2 * d9
  | _ => 0
  end.

(** The check digit: the remainder mod 11 when it is below 2, else 11 minus
    the remainder. *)
Definition check_digit_of (ds : list Z) : Z :=
  let r := weighted_sum ds mod 11 in
  if r <? 2 then r else 11 - r.

(** The checksum holds: the check digit equals the 11th digit. *)
Definition checksum_holds (ds : list Z) : Prop :=
  nth 10 ds 0 = check_digit_of ds.

(** A string laid out as XX-XXXXXXXX-X over the eleven digits [ds]. *)
Definition laid_out (ds : str) (r : str) : Prop :=
  ∃ a b c d e f g h i j k,
    ds = [a; b; c; d; e; f; g; h; i; j; k] ∧
    r = [a; b; "-"%char; c; d; e; f; g; h; i; j; "-"%char; k].

End Validators.

(* ===================================================================== *)
(** ** Vehicles ([app/models/vehicle.py])                                *)
(* ===================================================================== *)

Module Fleet.
Import PyStr.

(** [class FuelType(str, enum.Enum)]. *)
Inductive FuelType : Set := DIESEL_500 | DIESEL_PREMIUM | GASOLINE.

(** [FuelType.value]. *)
Definition FuelType_value (t : FuelType) : string :=
  match t with
  | DIESEL_500 => "diesel_500"
  | DIESEL_PREMIUM => "diesel_premium"
  | GASOLINE => "gasoline"
  end.

(** The columns of [class Vehicle] the cost computations read. *)
Record Vehicle : Type := mkVehicle
  { license_plate : str;
    model : str;                     (* nullable=False *)
    brand : option str;
    fuel_consumption : Q;            (* Numeric(5, 2), L/100km *)
    fuel_type : FuelType;
    max_weight : option Z;           (* Integer, nullable *)
    empty_weight : option Z }.


End Fleet.

(* ===================================================================== *)
(** ** Route optimization ([app/services/route_optimization_service.py]) *)
(* ===================================================================== *)

Module RouteOptimization.
Import PyStr Fleet.

Local Open Scope Q_scope.

(** *** Python equality on the values the dataclasses hold *)

(** [x < y] and [x == y] on numbers. *)
Definition Qltb (x y : Q) : bool := negb (Qle_bool y x).
Definition Qeqb (x y : Q) : bool := Qeq_bool x y.

Definition option_eqb {A} (e : A → A → bool) (x y : option A) : bool :=
  match x, y with
  | Some a, Some b => e a b
  | None, None => true
  | _, _ => false
  end.

Fixpoint list_eqb {A} (e : A → A → bool) (l1 l2 : list A) : bool :=
  match l1, l2 with
  | [], [] => true
  | a :: l1', b :: l2' => e a b && list_eqb e l1' l2'
  | _, _ => false
  end.

(** *** The dataclasses; [__eq__] compares the fields in order *)

(** [osrm_service.Coordinate]. *)
Record Coordinate : Set := mkCoordinate { longitude : Q; latitude : Q }.

Definition Coordinate_eqb (a b : Coordinate) : bool :=
  Qeqb (longitude a) (longitude b) && Qeqb (latitude a) (latitude b).

(** [osrm_service.RouteStep], [RouteLeg] and [Route]. *)
Record RouteStep : Set := mkRouteStep
  { step_distance : Q; step_duration : Q; step_geometry : string;
    step_name : string; instruction : string }.

Definition RouteStep_eqb (a b : RouteStep) : bool :=
  Qeqb (step_distance a) (step_distance b)
  && Qeqb (step_duration a) (step_duration b)
  && String.eqb (step_geometry a) (step_geometry b)
  && String.eqb (step_name a) (step_name b)
  && String.eqb (instruction a) (instruction b).

Record RouteLeg : Set := mkRouteLeg
  { leg_distance : Q; leg_duration : Q; steps : list RouteStep }.

Definition RouteLeg_eqb (a b : RouteLeg) : bool :=
  Qeqb (leg_distance a) (leg_distance b)
  && Qeqb (leg_duration a) (leg_duration b)
  && list_eqb RouteStep_eqb (steps a) (steps b).

Record OSRMRoute : Set := mkOSRMRoute
  { distance : Q;                      (* meters *)
    duration : Q;                      (* seconds *)
    route_geometry : string;
    legs : list RouteLeg;
    weight : option Q;
    weight_name : option string }.

Definition OSRMRoute_eqb (a b : OSRMRoute) : bool :=
  Qeqb (distance a) (distance b)
  && Qeqb (duration a) (duration b)
  && String.eqb (route_geometry a) (route_geometry b)
  && list_eqb RouteLeg_eqb (legs a) (legs b)
  && option_eqb Qeqb (weight a) (weight b)
  && option_eqb String.eqb (weight_name a) (weight_name b).

(** [RoutePoint]. *)
Record RoutePoint : Set := mkRoutePoint
  { coordinate : Coordinate; address : option string; name : option string }.

Definition RoutePoint_eqb (a b : RoutePoint) : bool :=
  Coordinate_eqb (coordinate a) (coordinate b)
  && option_eqb String.eqb (address a) (address b)
  && option_eqb String.eqb (name a) (name b).

(** [TollInfo]. *)
Record TollInfo : Set := mkTollInfo
  { toll_id : string; toll_name : string; toll_coordinate : Coordinate;
    cost : Q; vehicle_type : string; road_name : string }.

Definition TollInfo_eqb (a b : TollInfo) : bool :=
  String.eqb (toll_id a) (toll_id b)
  && String.eqb (toll_name a) (toll_name b)
  && Coordinate_eqb (toll_coordinate a) (toll_coordinate b)
  && Qeqb (cost a) (cost b)
  && String.eqb (vehicle_type a) (vehicle_type b)
  && String.eqb (road_name a) (road_name b).

(** [FuelCostInfo]. *)
Record FuelCostInfo : Set := mkFuelCostInfo
  { distance_km : Q;
    fuel_consumption_per_100km : Q;
    fuel_needed_liters : Q;
    fuel_price_per_liter : Q;
    total_fuel_cost : Q;
    fuel_type_value : string }.

Definition FuelCostInfo_eqb (a b : FuelCostInfo) : bool :=
  Qeqb (distance_km a) (distance_km b)
  && Qeqb (fuel_consumption_per_100km a) (fuel_consumption_per_100km b)
  && Qeqb (fuel_needed_liters a) (fuel_needed_liters b)
  && Qeqb (fuel_price_per_liter a) (fuel_price_per_liter b)
  && Qeqb (total_fuel_cost a) (total_fuel_cost b)
  && String.eqb (fuel_type_value a) (fuel_type_value b).

(** [RouteCostBreakdown]. *)
Record RouteCostBreakdown : Set := mkRouteCostBreakdown
  { fuel_cost : FuelCostInfo;
    tolls : list TollInfo;
    total_toll_cost : Q;
    total_cost : Q;
    savings_vs_fastest : option Q }.

Definition RouteCostBreakdown_eqb (a b : RouteCostBreakdown) : bool :=
  FuelCostInfo_eqb (fuel_cost a) (fuel_cost b)
  && list_eqb TollInfo_eqb (tolls a) (tolls b)
  && Qeqb (total_toll_cost a) (total_toll_cost b)
  && Qeqb (total_cost a) (total_cost b)
  && option_eqb Qeqb (savings_vs_fastest a) (savings_vs_fastest b).

(** [OptimizedRoute]. *)
Record OptimizedRoute : Set := mkOptimizedRoute
  { osrm_route : OSRMRoute;
    cost_breakdown : RouteCostBreakdown;
    route_type : string;
    geometry : string;
    waypoints : list RoutePoint;
    estimated_savings : option Q }.

Definition OptimizedRoute_eqb (a b : OptimizedRoute) : bool :=
  OSRMRoute_eqb (osrm_route a) (osrm_route b)
  && RouteCostBreakdown_eqb (cost_breakdown a) (cost_breakdown b)
  && String.eqb (route_type a) (route_type b)
  && String.eqb (geometry a) (geometry b)
  && list_eqb RoutePoint_eqb (waypoints a) (waypoints b)
  && option_eqb Qeqb (estimated_savings a) (estimated_savings b).

(** [RouteOptimizationRequest]. *)
Record RouteOptimizationRequest : Set := mkRouteOptimizationRequest
  { origin : RoutePoint;
    destination : RoutePoint;
    vehicle_id : string;
    request_waypoints : option (list RoutePoint);
    avoid_tolls : bool;
    max_alternatives : Z }.

(** The attribute assignments the service performs on a route object. *)
Definition set_route_type (t : string) (r : OptimizedRoute) : OptimizedRoute :=
  mkOptimizedRoute (osrm_route r) (cost_breakdown r) t (geometry r)
    (waypoints r) (estimated_savings r).

Definition set_estimated_savings (s : Q) (r : OptimizedRoute) : OptimizedRoute :=
  mkOptimizedRoute (osrm_route r) (cost_breakdown r) (route_type r)
    (geometry r) (waypoints r) (Some s).

Definition set_savings_vs_fastest (s : Q) (r : OptimizedRoute) : OptimizedRoute :=
  let b := cost_breakdown r in
  mkOptimizedRoute (osrm_route r)
    (mkRouteCostBreakdown (fuel_cost b) (tolls b) (total_toll_cost b)
       (total_cost b) (Some s))
    (route_type r) (geometry r) (waypoints r) (estimated_savings r).

(** [r.cost_breakdown.total_cost], the key of [min]. *)
Definition cost_of (r : OptimizedRoute) : Q := total_cost (cost_breakdown r).

(** *** Vehicle category and costs *)




(** [_calculate_fuel_cost(distance_km, vehicle, fuel_price)]. *)
Definition _calculate_fuel_cost (distance_km : Q) (vehicle : Vehicle)
  (fuel_price : Q) : FuelCostInfo :=
  let fuel_needed_liters := (distance_km / 100) * fuel_consumption vehicle in
  let total_fuel_cost := fuel_needed_liters * fuel_price in
  mkFuelCostInfo distance_km (fuel_consumption vehicle) fuel_needed_liters
    fuel_price total_fuel_cost (FuelType_value (fuel_type vehicle)).

(** [_get_default_fuel_price(fuel_type)]; every member of [FuelType] is a
    key of [default_prices]. *)
Definition _get_default_fuel_price (fuel_type : FuelType) : Q :=
  match fuel_type with
  | DIESEL_500 => 150
  | DIESEL_PREMIUM => 170
  | GASOLINE => 160
  end.

(** [sum(toll.cost for toll in tolls)]. *)
Definition sum_costs (ts : list TollInfo) : Q :=
  fold_left Qplus (map cost ts) 0.

(** What the service reads from the database and from the routing engine. *)
Record World : Type := mkWorld
  { query_vehicle : string → option Vehicle;
      (* self.db.query(Vehicle).filter(Vehicle.id == id).first() *)
    _get_current_fuel_price : FuelType → option Q;
    health_check : bool;
    get_route_alternatives : Coordinate → Coordinate → Z → list OSRMRoute;
    _detect_route_tolls : OSRMRoute → Vehicle → list TollInfo }.

(** [_calculate_route_costs(osrm_route, vehicle, fuel_price, avoid_tolls)]. *)
Definition _calculate_route_costs (w : World) (osrm_route : OSRMRoute)
  (vehicle : Vehicle) (fuel_price : Q) (avoid_tolls : bool)
  : RouteCostBreakdown :=
  let distance_km := distance osrm_route / 1000 in
  let fuel_cost_info := _calculate_fuel_cost distance_km vehicle fuel_price in
  let tolls := if avoid_tolls then [] else _detect_route_tolls w osrm_route vehicle in
  let total_toll_cost := if avoid_tolls then 0 else sum_costs tolls in
  let total_cost := total_fuel_cost fuel_cost_info + total_toll_cost in
  mkRouteCostBreakdown fuel_cost_info tolls total_toll_cost total_cost None.

(** *** [optimize_route] *)

Inductive Exception : Set :=
| VehicleNotFound (vehicle_id : string)     (* ValueError *)
| OSRMNotAvailable                          (* RuntimeError *)
| NoRoutesFound.                            (* ValueError *)

Inductive Warning : Set :=
| NoCurrentFuelPrice (t : FuelType).

(** [f"alternative_{i}"]. *)
Definition alternative_label (i : nat) : string :=
  ("alternative_" ++ NilZero.string_of_uint (Nat.to_uint i))%string.

(** [min(xs, key=k)] as the position of the result: the first position
    whose key is not above any other; a later element replaces the current
    one only when its key is strictly smaller. *)
Fixpoint min_from (best_i : nat) (best : Q) (i : nat) (keys : list Q) : nat :=
  match keys with
  | [] => best_i
  | k :: keys' =>
      if Qltb k best then min_from i k (S i) keys'
      else min_from best_i best (S i) keys'
  end.

Definition min_index (keys : list Q) : nat :=
  match keys with
  | [] => 0%nat
  | k :: keys' => min_from 0 k 1 keys'
  end.

(** [RouteOptimizationResponse].  [recommended_route] is one of the objects
    of [routes]: it is kept as its position, [recommended_route] below reads
    it.  [calculation_time_ms] is two readings of the wall clock and is left
    out. *)
Record RouteOptimizationResponse : Set := mkRouteOptimizationResponse
  { routes : list OptimizedRoute;
    recommended_index : nat;
    total_savings : Q;
    warnings : list Warning }.

Definition recommended_route (r : RouteOptimizationResponse) : option OptimizedRoute :=
  routes r !! recommended_index r.

(** The part of [optimize_route] that follows the loop over the OSRM routes:
    [optimized_routes] is the non-empty list of the freshly built objects and
    [first] its first element.  The list is the store of these objects: an
    attribute assignment on an object is an update at its position. *)
Definition recommend (optimized_routes : list OptimizedRoute)
  (first : OptimizedRoute) (warnings : list Warning)
  : RouteOptimizationResponse :=
  (* recommended_route = min(optimized_routes, key=...) *)
  let i := min_index (map cost_of optimized_routes) in
  (* recommended_route.route_type = "cheapest" *)
  let routes1 := alter (set_route_type "cheapest") i optimized_routes in
  let recommended_route := default first (routes1 !! i) in
  (* fastest_route = optimized_routes[0] *)
  let fastest_route := default first (routes1 !! 0%nat) in
  if negb (OptimizedRoute_eqb recommended_route fastest_route) then
    let total_savings := cost_of fastest_route - cost_of recommended_route in
    (* recommended_route.estimated_savings = total_savings *)
    let routes2 := alter (set_estimated_savings total_savings) i routes1 in
    let recommended_route := default first (routes2 !! i) in
    let routes3 :=
      map (fun route =>
             if negb (OptimizedRoute_eqb route recommended_route) then
               set_savings_vs_fastest
                 (cost_of fastest_route - cost_of route) route
             else route) routes2 in
    mkRouteOptimizationResponse routes3 i total_savings warnings
  else
    mkRouteOptimizationResponse routes1 i 0 warnings.

(** [optimize_route(request)]. *)
Definition optimize_route (w : World) (request : RouteOptimizationRequest)
  : Exception + RouteOptimizationResponse :=
  match query_vehicle w (vehicle_id request) with
  | None => inl (VehicleNotFound (vehicle_id request))
  | Some vehicle =>
      let '(fuel_price, warnings) :=
        match _get_current_fuel_price w (fuel_type vehicle) with
        | Some p =>
            if Qeqb p 0
            then (_get_default_fuel_price (fuel_type vehicle),
                  [NoCurrentFuelPrice (fuel_type vehicle)])
            else (p, [])
        | None => (_get_default_fuel_price (fuel_type vehicle),
                   [NoCurrentFuelPrice (fuel_type vehicle)])
        end in
      if negb (health_check w) then inl OSRMNotAvailable
      else
        let osrm_routes :=
          get_route_alternatives w (coordinate (origin request))
            (coordinate (destination request)) (max_alternatives request) in
        match osrm_routes with
        | [] => inl NoRoutesFound
        | osrm_first :: _ =>
            let build (i : nat) (osrm_route : OSRMRoute) :=
              let route_type :=
                if (i =? 0)%nat then "fastest"%string
                else alternative_label i in
              let cost_breakdown :=
                _calculate_route_costs w osrm_route vehicle fuel_price
                  (avoid_tolls request) in
              mkOptimizedRoute osrm_route cost_breakdown route_type
                (route_geometry osrm_route)
                [origin request; destination request] None in
            (* for i, osrm_route in enumerate(osrm_routes) *)
            let optimized_routes := imap build osrm_routes in
            inr (recommend optimized_routes (build 0%nat osrm_first) warnings)
        end
  end.

(** *** The end-to-end scenario of the documentation

    Route A: 100 km, 3600 s, no toll.  Route B: 110 km, 3900 s, one toll of
    50.  The vehicle consumes 15 L/100km and the litre costs 150. *)

Definition scenario_vehicle : Vehicle :=
  mkVehicle (lit "AB123CD") (lit "Transit") None 15 DIESEL_500
    (Some 3000%Z) None.

Definition scenario_route_A : OSRMRoute :=
  mkOSRMRoute 100000 3600 "route A" [] None None.

Definition scenario_route_B : OSRMRoute :=
  mkOSRMRoute 110000 3900 "route B" [] None None.

Definition scenario_toll : TollInfo :=
  mkTollInfo "1" "Peaje" (mkCoordinate (-55) (-27)) 50 "car" "RN12".

(** The world in which the routing engine lists [alternatives]. *)
Definition scenario_world (alternatives : list OSRMRoute) : World :=
  mkWorld (fun _ => Some scenario_vehicle) (fun _ => Some 150) true
    (fun _ _ _ => alternatives)
    (fun osrm_route _ =>
       if Qeqb (distance osrm_route) 110000 then [scenario_toll] else []).

Definition scenario_request : RouteOptimizationRequest :=
  mkRouteOptimizationRequest
    (mkRoutePoint (mkCoordinate (-55) (-27)) None (Some "Origin"))
    (mkRoutePoint (mkCoordinate (-54) (-26)) None (Some "Destination"))
    "vehicle-1" None false 3.

End RouteOptimization.

(* ===================================================================== *)
(** ** Route comparison ([app/services/route_comparison_service.py])     *)
(* ===================================================================== *)

Module RouteComparison.
Import RouteOptimization.

Local Open Scope Q_scope.

Inductive OptimizationCriteria : Set :=
| TOTAL_COST | FUEL_COST | TIME | DISTANCE | TOLL_AVOIDANCE | BALANCED.

Inductive RouteRanking : Set := BEST | GOOD | ACCEPTABLE | POOR.

Record RouteScore : Set := mkRouteScore
  { total_score : Q; cost_score : Q; time_score : Q; distance_score : Q;
    toll_score : Q; ranking : RouteRanking }.

(** The sentence of a comparison; a route id [f"route_{i}"] is kept as [i]. *)
Inductive Recommendation : Set :=
| IsFasterWithSimilarCost (route_id : nat)
| RoutesAreVerySimilar
| IsCheaperButMuchSlower (route_id : nat)
| IsMoreCostEffective (route_id : nat)
| IsCheaperAndFaster (route_id : nat).

Record RouteComparison : Set := mkRouteComparison
  { route_a_id : nat; route_b_id : nat;
    cost_difference : Q; time_difference : Q; distance_difference : Q;
    toll_difference : Q; recommendation : Recommendation; confidence : Q }.

(** [SavingsAnalysis]; the two ids are the constants "recommended" and
    "baseline". *)
Record SavingsAnalysis : Set := mkSavingsAnalysis
  { absolute_savings : Q; percentage_savings : Q;
    time_trade_off : Q; distance_trade_off : Q;
    savings_per_minute : Q; savings_per_km : Q }.

(** The insights and warnings, by the condition that emits them. *)
Inductive Insight : Set :=
| CostsVary (cost_range : Q)
| SimilarCosts
| TimesVary (time_range : Q)
| TollFreeAvailable (avg_toll_cost : Q)
| FuelCostsVary (fuel_range : Q)
| DistancesVary (distance_range : Q)
| FocusTotalCost | FocusTime | FocusTollAvoidance.

Inductive ComparisonWarning : Set :=
| HighRouteCost | VeryLongRoute | LongDrivingTime | TollsExceedFuel
| MinimalSavings | VerifyDataCurrent.

(** [OptimizationSummary].  [recommended_route] is one of the objects of
    [routes], kept as its position; [routes_after] is the caller's list as
    the analysis leaves it. *)
Record OptimizationSummary : Set := mkOptimizationSummary
  { total_routes_analyzed : Z;
    recommended : nat;
    routes_after : list OptimizedRoute;
    route_scores : list RouteScore;     (* keys route_0, route_1, ... *)
    route_comparisons : list RouteComparison;
    savings_analysis : SavingsAnalysis;
    optimization_insights : list Insight;
    summary_warnings : list ComparisonWarning }.

Inductive PyError : Set :=
| ValueError (msg : string)
| TypeError (msg : string).

(** The keys of [user_preferences] the scoring reads, by truth value. *)
Record Preferences : Set := mkPreferences
  { prioritize_cost : bool; prioritize_time : bool; pref_avoid_tolls : bool }.

Definition no_preferences : Preferences := mkPreferences false false false.

(** [min(xs)] and [max(xs)] of a non-empty list of floats. *)
Definition list_min (x : Q) (xs : list Q) : Q :=
  fold_left (fun m y => if Qltb y m then y else m) xs x.
Definition list_max (x : Q) (xs : list Q) : Q :=
  fold_left (fun m y => if Qltb m y then y else m) xs x.

(** [_normalize_score(value, min_val, max_val)]. *)
Definition _normalize_score (value min_val max_val : Q) : Q :=
  if Qeqb max_val min_val then 0
  else (value - min_val) / (max_val - min_val).

Record Weights : Set := mkWeights
  { w_cost : Q; w_time : Q; w_distance : Q; w_toll : Q }.

(** The table [weights] of [_calculate_weighted_score]. *)
Definition weights (criteria : OptimizationCriteria) : Weights :=
  match criteria with
  | TOTAL_COST => mkWeights (6#10) (2#10) (1#10) (1#10)
  | FUEL_COST => mkWeights (7#10) (2#10) (1#10) 0
  | TIME => mkWeights (2#10) (6#10) (1#10) (1#10)
  | DISTANCE => mkWeights (2#10) (2#10) (6#10) 0
  | TOLL_AVOIDANCE => mkWeights (2#10) (2#10) (1#10) (5#10)
  | BALANCED => mkWeights (3#10) (3#10) (2#10) (2#10)
  end.

(** [_calculate_weighted_score]. *)
Definition _calculate_weighted_score (cost_score time_score distance_score
  toll_score : Q) (criteria : OptimizationCriteria)
  (user_preferences : Preferences) : Q :=
  let ws := weights criteria in
  let ws :=
    if prioritize_cost user_preferences
    then mkWeights (w_cost ws + (1#10)) (w_time ws - (5#100))
                   (w_distance ws - (5#100)) (w_toll ws)
    else ws in
  let ws :=
    if prioritize_time user_preferences
    then mkWeights (w_cost ws - (5#100)) (w_time ws + (1#10))
                   (w_distance ws - (5#100)) (w_toll ws)
    else ws in
  let ws :=
    if pref_avoid_tolls user_preferences
    then mkWeights (w_cost ws - (1#10)) (w_time ws - (1#10))
                   (w_distance ws) (w_toll ws + (2#10))
    else ws in
  cost_score * w_cost ws + time_score * w_time ws
  + distance_score * w_distance ws + toll_score * w_toll ws.

(** [_determine_ranking]. *)
Definition _determine_ranking (total_score : Q) : RouteRanking :=
  if Qle_bool total_score (25#100) then BEST
  else if Qle_bool total_score (5#10) then GOOD
  else if Qle_bool total_score (75#100) then ACCEPTABLE
  else POOR.

(** [_score_routes]; [first] is [routes[0]] of the non-empty list. *)
Definition _score_routes (first : OptimizedRoute) (routes : list OptimizedRoute)
  (criteria : OptimizationCriteria) (user_preferences : Preferences)
  : list RouteScore :=
  let cost r := total_cost (cost_breakdown r) in
  let time r := duration (osrm_route r) / 60 in
  let dist r := distance (osrm_route r) / 1000 in
  let toll r := total_toll_cost (cost_breakdown r) in
  let rest := tl routes in
  let min_cost := list_min (cost first) (map cost rest) in
  let max_cost := list_max (cost first) (map cost rest) in
  let min_time := list_min (time first) (map time rest) in
  let max_time := list_max (time first) (map time rest) in
  let min_distance := list_min (dist first) (map dist rest) in
  let max_distance := list_max (dist first) (map dist rest) in
  let min_toll := list_min (toll first) (map toll rest) in
  let max_toll := list_max (toll first) (map toll rest) in
  map (fun route =>
         let cost_score := _normalize_score (cost route) min_cost max_cost in
         let time_score := _normalize_score (time route) min_time max_time in
         let distance_score :=
           _normalize_score (dist route) min_distance max_distance in
         let toll_score := _normalize_score (toll route) min_toll max_toll in
         let total_score :=
           _calculate_weighted_score cost_score time_score distance_score
             toll_score criteria user_preferences in
         mkRouteScore total_score cost_score time_score distance_score
           toll_score (_determine_ranking total_score))
      routes.

(** [_select_recommended_route]: the position of the first lowest total
    score; that route object is re-labeled "recommended". *)
Definition _select_recommended_route (routes : list OptimizedRoute)
  (route_scores : list RouteScore) : nat * list OptimizedRoute :=
  let best_route_index := min_index (map total_score route_scores) in
  (best_route_index,
   alter (set_route_type "recommended") best_route_index routes).

(** [_compare_two_routes]. *)
Definition _compare_two_routes (route_a route_b : OptimizedRoute)
  (route_a_id route_b_id : nat) : RouteComparison :=
  let cost_diff := cost_of route_b - cost_of route_a in
  let time_diff := (duration (osrm_route route_b) - duration (osrm_route route_a)) / 60 in
  let distance_diff :=
    (distance (osrm_route route_b) - distance (osrm_route route_a)) / 1000 in
  let toll_diff :=
    total_toll_cost (cost_breakdown route_b)
    - total_toll_cost (cost_breakdown route_a) in
  let '(recommendation, confidence) :=
    if Qltb (Qabs cost_diff) 10 then
      if Qltb time_diff (-5) then (IsFasterWithSimilarCost route_b_id, 8#10)
      else if Qltb 5 time_diff then (IsFasterWithSimilarCost route_a_id, 8#10)
      else (RoutesAreVerySimilar, 6#10)
    else if Qltb cost_diff 0 then
      if Qltb 30 time_diff then (IsCheaperButMuchSlower route_a_id, 7#10)
      else (IsMoreCostEffective route_a_id, 9#10)
    else
      if Qltb time_diff (-30) then (IsCheaperAndFaster route_b_id, 95#100)
      else (IsMoreCostEffective route_b_id, 9#10) in
  mkRouteComparison route_a_id route_b_id cost_diff time_diff distance_diff
    toll_diff recommendation confidence.

(** [_generate_route_comparisons]: the pairs [i < j], in loop order. *)
Fixpoint comparisons_from (i : nat) (routes : list OptimizedRoute)
  : list RouteComparison :=
  match routes with
  | [] => []
  | route_a :: rest =>
      imap (fun k route_b => _compare_two_routes route_a route_b i (S i + k))
           rest
      ++ comparisons_from (S i) rest
  end.

Definition _generate_route_comparisons (routes : list OptimizedRoute)
  : list RouteComparison :=
  comparisons_from 0 routes.

(** A Python number that is an [int] or a [float]. *)
Inductive Number : Set := PyInt (z : Z) | PyFloat (x : Q).

(** [max(abs(x), 1)] for a float [x]: [max] keeps its first argument unless
    the second is strictly greater, so the result is the float [abs(x)] when
    [abs(x) >= 1] and the int [1] otherwise. *)
Definition max_abs_1 (x : Q) : Number :=
  if Qltb (Qabs x) 1 then PyInt 1 else PyFloat (Qabs x).

(** [d / n] for a [Decimal] [d]: [Decimal.__truediv__] accepts an [int] and
    returns [NotImplemented] for a [float], which is a [TypeError]. *)
Definition Decimal_truediv (d : Q) (n : Number) : PyError + Q :=
  match n with
  | PyInt z => inr (d / inject_Z z)
  | PyFloat _ =>
      inl (TypeError
             "unsupported operand type(s) for /: 'decimal.Decimal' and 'float'")
  end.

(** [max(routes, key=total_cost)] as a position: the first highest. *)
Fixpoint max_from (best_i : nat) (best : Q) (i : nat) (keys : list Q) : nat :=
  match keys with
  | [] => best_i
  | k :: keys' =>
      if Qltb best k then max_from i k (S i) keys'
      else max_from best_i best (S i) keys'
  end.

Definition max_index (keys : list Q) : nat :=
  match keys with
  | [] => 0%nat
  | k :: keys' => max_from 0 k 1 keys'
  end.

(** [_analyze_savings(routes, recommended_route)]; [first] is [routes[0]]. *)
Definition _analyze_savings (first : OptimizedRoute)
  (routes : list OptimizedRoute) (recommended_route : OptimizedRoute)
  : PyError + SavingsAnalysis :=
  let fastest_route := first in
  let baseline_route :=
    if OptimizedRoute_eqb recommended_route fastest_route
    then default first (routes !! max_index (map cost_of routes))
    else fastest_route in
  let absolute_savings := cost_of baseline_route - cost_of recommended_route in
  let percentage_savings :=
    if Qltb 0 (cost_of baseline_route)
    then (absolute_savings / cost_of baseline_route) * 100
    else 0 in
  let time_trade_off :=
    (duration (osrm_route recommended_route)
     - duration (osrm_route baseline_route)) / 60 in
  let distance_trade_off :=
    (distance (osrm_route recommended_route)
     - distance (osrm_route baseline_route)) / 1000 in
  match (if negb (Qeqb time_trade_off 0)
         then Decimal_truediv absolute_savings (max_abs_1 time_trade_off)
         else inr 0) with
  | inl e => inl e
  | inr savings_per_minute =>
      match (if negb (Qeqb distance_trade_off 0)
             then Decimal_truediv absolute_savings (max_abs_1 distance_trade_off)
             else inr 0) with
      | inl e => inl e
      | inr savings_per_km =>
          inr (mkSavingsAnalysis absolute_savings percentage_savings
                 time_trade_off distance_trade_off
                 savings_per_minute savings_per_km)
      end
  end.

(** [statistics.mean(xs)] of a non-empty list of floats. *)
Definition mean (xs : list Q) : Q :=
  fold_left Qplus xs 0 / inject_Z (Z.of_nat (length xs)).

(** [_generate_optimization_insights]; [first] is [routes[0]]. *)
Definition _generate_optimization_insights (first : OptimizedRoute)
  (routes : list OptimizedRoute) (criteria : OptimizationCriteria)
  : list Insight :=
  let range (f : OptimizedRoute → Q) :=
    list_max (f first) (map f (tl routes))
    - list_min (f first) (map f (tl routes)) in
  let toll r := total_toll_cost (cost_breakdown r) in
  let cost_range := range cost_of in
  let time_range := range (fun r => duration (osrm_route r) / 60) in
  let toll_routes := List.filter (fun r => Qltb 0 (toll r)) routes in
  let toll_free_routes := List.filter (fun r => Qeqb (toll r) 0) routes in
  let fuel_range := range (fun r => total_fuel_cost (fuel_cost (cost_breakdown r))) in
  let distance_range := range (fun r => distance (osrm_route r) / 1000) in
  (if Qltb 100 cost_range then [CostsVary cost_range]
   else if Qltb cost_range 20 then [SimilarCosts] else [])
  ++ (if Qltb 30 time_range then [TimesVary time_range] else [])
  ++ (match toll_routes, toll_free_routes with
      | _ :: _, _ :: _ => [TollFreeAvailable (mean (map toll toll_routes))]
      | _, _ => []
      end)
  ++ (if Qltb 200 fuel_range then [FuelCostsVary fuel_range] else [])
  ++ (if Qltb 50 distance_range then [DistancesVary distance_range] else [])
  ++ (match criteria with
      | TOTAL_COST => [FocusTotalCost]
      | TIME => [FocusTime]
      | TOLL_AVOIDANCE => [FocusTollAvoidance]
      | _ => []
      end).

(** [_generate_warnings]. *)
Definition _generate_warnings (recommended_route : OptimizedRoute)
  : list ComparisonWarning :=
  let b := cost_breakdown recommended_route in
  (if Qltb 5000 (total_cost b) then [HighRouteCost] else [])
  ++ (if Qltb 1000000 (distance (osrm_route recommended_route))
      then [VeryLongRoute] else [])
  ++ (if Qltb 28800 (duration (osrm_route recommended_route))
      then [LongDrivingTime] else [])
  ++ (if Qltb (total_fuel_cost (fuel_cost b)) (total_toll_cost b)
      then [TollsExceedFuel] else [])
  ++ (match estimated_savings recommended_route with
      | Some s => if negb (Qeqb s 0) && Qltb s 10 then [MinimalSavings] else []
      | None => []
      end)
  ++ [VerifyDataCurrent].

(** [analyze_routes(routes, criteria, user_preferences)]. *)
Definition analyze_routes (routes : list OptimizedRoute)
  (criteria : OptimizationCriteria) (user_preferences : option Preferences)
  : PyError + OptimizationSummary :=
  match routes with
  | [] => inl (ValueError "No routes provided for analysis")
  | first :: _ =>
      let user_preferences := default no_preferences user_preferences in
      let route_scores := _score_routes first routes criteria user_preferences in
      let '(best, routes) := _select_recommended_route routes route_scores in
      let first := default first (routes !! 0%nat) in
      let recommended_route := default first (routes !! best) in
      let route_comparisons := _generate_route_comparisons routes in
      match _analyze_savings first routes recommended_route with
      | inl e => inl e
      | inr savings_analysis =>
          let insights :=
            _generate_optimization_insights first routes criteria in
          let warnings := _generate_warnings recommended_route in
          inr (mkOptimizationSummary (Z.of_nat (length routes)) best routes
                 route_scores route_comparisons savings_analysis
                 insights warnings)
      end
  end.

(** *** The routes of the test suite ([tests/test_route_comparison_service.py])

    [mock_routes]: fast but expensive, slower but cheaper, longest. *)

Definition mock_route (distance duration total fuel toll : Q) (label : string)
  : OptimizedRoute :=
  mkOptimizedRoute
    (mkOSRMRoute distance duration "" [] None None)
    (mkRouteCostBreakdown
       (mkFuelCostInfo (distance / 1000) 15 (distance / 1000 / 100 * 15) 150
          fuel "diesel_500")
       [] toll total None)
    label "" [] None.

Definition mock_routes : list OptimizedRoute :=
  [ mock_route 100000 3600 1000 800 200 "fastest";
    mock_route 120000 4800 900 900 0 "alternative";
    mock_route 150000 6000 1200 1100 100 "scenic" ].

End RouteComparison.

(* ===================================================================== *)
(** ** Rate limiting ([app/middleware/rate_limit_middleware.py])         *)
(* ===================================================================== *)

Module RateLimit.

Local Open Scope Q_scope.

(** [x < y] on timestamps. *)
Definition Qltb (x y : Q) : bool := negb (Qle_bool y x).

(** [self.window_size]. *)
Definition window_size : Q := 60.

(** [self.excluded_paths]. *)
Definition excluded_paths : list string :=
  ["/health"; "/docs"; "/redoc"; "/openapi.json"]%string.

(** The state of the middleware.  A [deque] of timestamps is the list of
    its elements from left to right; a [defaultdict(deque)] is a finite map
    in which a missing key reads as the empty queue. *)
Record RateLimitMiddleware : Type := mkRateLimitMiddleware
  { requests_per_minute : Z;
    ip_requests : gmap string (list Q);
    user_requests : gmap string (list Q) }.

(** [d[key]] of a [defaultdict(deque)]. *)
Definition queue_of (d : gmap string (list Q)) (key : string) : list Q :=
  default [] (d !! key).

(** [_clean_old_requests(request_queue, current_time)]: pops from the left
    while the leftmost timestamp is more than the window old. *)
Fixpoint _clean_old_requests (request_queue : list Q) (current_time : Q)
  : list Q :=
  match request_queue with
  | [] => []
  | oldest :: rest =>
      if Qltb window_size (current_time - oldest)
      then _clean_old_requests rest current_time
      else request_queue
  end.

(** [_is_rate_limited(identifier, request_queue, current_time)] for the
    limit [self.requests_per_minute]: the answer and the queue it leaves. *)
Definition _is_rate_limited (limit : Z) (request_queue : list Q)
  (current_time : Q) : bool * list Q :=
  let request_queue := _clean_old_requests request_queue current_time in
  if (limit <=? Z.of_nat (length request_queue))%Z
  then (true, request_queue)
  else (false, request_queue ++ [current_time]).

(** What [dispatch] reads from the request; [user_id] is
    [getattr(request.state, 'user_id', None)]. *)
Record Request : Set := mkRequest
  { path : string; client_host : string; user_id : option string }.

(** [int(x)] of a float: truncation towards zero. *)
Definition int_of_float (x : Q) : Z :=
  if Qle_bool 0 x then Qfloor x else Qceiling x.

Inductive Response : Set :=
| NotLimited
    (* the response of [call_next], returned as it is *)
| JSONResponse (status_code : Z) (detail : string) (retry_after : Z)
    (header_Retry_After : string)
| Limited (X_RateLimit_Limit X_RateLimit_Remaining X_RateLimit_Reset : Z).
    (* the response of [call_next] with the three headers added *)

Definition HTTP_429_TOO_MANY_REQUESTS : Z := 429.

(** The two rejections of [dispatch]. *)
Definition ip_rejection : Response :=
  JSONResponse HTTP_429_TOO_MANY_REQUESTS
    "Too many requests. Please try again later." 60 "60".

Definition user_rejection : Response :=
  JSONResponse HTTP_429_TOO_MANY_REQUESTS
    "Too many requests for this user. Please try again later." 60 "60".

(** [any(request.url.path.startswith(p) for p in self.excluded_paths)]. *)
Definition excluded (request : Request) : bool :=
  existsb (fun p => String.prefix p (path request)) excluded_paths.

(** [dispatch(request, call_next)] at the clock reading [current_time]: the
    response and the state the middleware is left in. *)
Definition dispatch (self : RateLimitMiddleware) (request : Request)
  (current_time : Q) : Response * RateLimitMiddleware :=
  if excluded request then (NotLimited, self)
  else
    let client_ip := client_host request in
    let limit := requests_per_minute self in
    let '(limited, ip_queue) :=
      _is_rate_limited limit (queue_of (ip_requests self) client_ip)
        current_time in
    let ips := <[client_ip := ip_queue]> (ip_requests self) in
    if limited then
      (ip_rejection, mkRateLimitMiddleware limit ips (user_requests self))
    else
      let after_user_check :=
        match user_id request with
        | Some uid =>
            if String.eqb uid "" then (false, user_requests self)
            else
              let '(limited, user_queue) :=
                _is_rate_limited limit (queue_of (user_requests self) uid)
                  current_time in
              (limited, <[uid := user_queue]> (user_requests self))
        | None => (false, user_requests self)
        end in
      let '(user_limited, users) := after_user_check in
      if user_limited then
        (user_rejection, mkRateLimitMiddleware limit ips users)
      else
        let remaining_requests :=
          Z.max 0 (limit - Z.of_nat (length ip_queue)) in
        (Limited limit remaining_requests
           (int_of_float (current_time + window_size)),
         mkRateLimitMiddleware limit ips users).

(** The limiter of one identifier fed the clock readings of its successive
    requests: for each request whether it is rate limited, and the queue at
    the end. *)
Fixpoint limiter_run (limit : Z) (request_queue : list Q) (times : list Q)
  : list bool * list Q :=
  match times with
  | [] => ([], request_queue)
  | t :: times' =>
      let '(limited, q) := _is_rate_limited limit request_queue t in
      let '(ds, q') := limiter_run limit q times' in
      (limited :: ds, q')
  end.

(** The clock readings of the requests that were admitted. *)
Fixpoint admitted (limit : Z) (request_queue : list Q) (times : list Q)
  : list Q :=
  match times with
  | [] => []
  | t :: times' =>
      let '(limited, q) := _is_rate_limited limit request_queue t in
      if limited then admitted limit q times'
      else t :: admitted limit q times'
  end.

(** The clock does not run backwards: every reading is at least [now] and
    the readings do not decrease. *)
Fixpoint nondecreasing_from (now : Q) (times : list Q) : Prop :=
  match times with
  | [] => True
  | t :: times' => now <= t ∧ nondecreasing_from t times'
  end.



(** Every timestamp of the queue is more than the window old at [now]. *)
Definition all_expired (now : Q) (request_queue : list Q) : Prop :=
  Forall (fun t => window_size < now - t) request_queue.

(** *** A user behind two addresses, with a limit of one request

    The user "u" is served from 10.0.0.1 at time 0 and comes back from
    10.0.0.2 at time 1; then someone else calls from 10.0.0.2 at time 2. *)

Definition fresh (limit : Z) : RateLimitMiddleware :=
  mkRateLimitMiddleware limit ∅ ∅.

Definition request_1 : Request := mkRequest "/api/routes" "10.0.0.1" (Some "u"%string).
Definition request_2 : Request := mkRequest "/api/routes" "10.0.0.2" (Some "u"%string).
Definition request_3 : Request := mkRequest "/api/routes" "10.0.0.2" None.

Definition state_1 : RateLimitMiddleware := snd (dispatch (fresh 1) request_1 0).
Definition state_2 : RateLimitMiddleware := snd (dispatch state_1 request_2 1).


End RateLimit.

(* ===================================================================== *)
(** ** The steps of [optimize_route], named                              *)
(* ===================================================================== *)

Module OptimizeSteps.
Import PyStr Fleet RouteOptimization.

(** The body of the loop [for i, osrm_route in enumerate(osrm_routes)]. *)
Definition build_route (w : World) (request : RouteOptimizationRequest)
  (vehicle : Vehicle) (fuel_price : Q) (i : nat) (osrm_route : OSRMRoute)
  : OptimizedRoute :=
  mkOptimizedRoute osrm_route
    (_calculate_route_costs w osrm_route vehicle fuel_price (avoid_tolls request))
    (if (i =? 0)%nat then "fastest"%string else alternative_label i)
    (route_geometry osrm_route)
    [origin request; destination request] None.

(** The price [optimize_route] computes with and the warnings it starts
    from: the current price, or the default with a warning when there is no
    current price or the current price is zero ([if not fuel_price]). *)
Definition price_and_warnings (w : World) (vehicle : Vehicle)
  : Q * list Warning :=
  match _get_current_fuel_price w (fuel_type vehicle) with
  | Some p =>
      if Qeqb p 0
      then (_get_default_fuel_price (fuel_type vehicle),
            [NoCurrentFuelPrice (fuel_type vehicle)])
      else (p, [])
  | None => (_get_default_fuel_price (fuel_type vehicle),
             [NoCurrentFuelPrice (fuel_type vehicle)])
  end.

(** The alternatives the routing engine returns for a request. *)
Definition alternatives_of (w : World) (request : RouteOptimizationRequest)
  : list OSRMRoute :=
  get_route_alternatives w (coordinate (origin request))
    (coordinate (destination request)) (max_alternatives request).


End OptimizeSteps.

(* ===================================================================== *)
(** ** Route comparison: ranking and metrics                             *)
(* ===================================================================== *)

Module RouteRanking.
Import RouteOptimization RouteComparison.

Local Open Scope Q_scope.

(** The baseline [_analyze_savings] compares the recommended route with:
    the first route, or the most expensive one when the recommended route
    equals the first. *)
Definition baseline_route (first : OptimizedRoute)
  (routes : list OptimizedRoute) (recommended_route : OptimizedRoute)
  : OptimizedRoute :=
  if OptimizedRoute_eqb recommended_route first
  then default first (routes !! max_index (map cost_of routes))
  else first.









(** A score, or one of its parts, lies between 0 and 1. *)
Definition unit_interval (x : Q) : Prop := 0 <= x ∧ x <= 1.

Definition score_in_range (s : RouteScore) : Prop :=
  unit_interval (total_score s) ∧ unit_interval (cost_score s)
  ∧ unit_interval (time_score s) ∧ unit_interval (distance_score s)
  ∧ unit_interval (toll_score s).


End RouteRanking.

(* ===================================================================== *)
(** ** Authorization ([app/auth/dependencies.py], [app/auth/decorators.py],
       [require_admin_role] and [require_permission] of
       [app/auth/permissions.py])                                        *)
(* ===================================================================== *)

Module Authorization.
Import Permissions Validators.

Local Open Scope string_scope.

Definition HTTP_403_FORBIDDEN : Z := 403.

(** [permission.value]. *)
Definition Permission_value (p : Permission) : string :=
  match p with
  | CREATE_USER => "create_user" | READ_USER => "read_user"
  | UPDATE_USER => "update_user" | DELETE_USER => "delete_user"
  | CREATE_COMPANY => "create_company" | READ_COMPANY => "read_company"
  | UPDATE_COMPANY => "update_company" | DELETE_COMPANY => "delete_company"
  | CREATE_VEHICLE => "create_vehicle" | READ_VEHICLE => "read_vehicle"
  | UPDATE_VEHICLE => "update_vehicle" | DELETE_VEHICLE => "delete_vehicle"
  | CALCULATE_ROUTE => "calculate_route" | READ_ROUTE => "read_route"
  | DELETE_ROUTE => "delete_route"
  | CREATE_FUEL_PRICE => "create_fuel_price"
  | READ_FUEL_PRICE => "read_fuel_price"
  | UPDATE_FUEL_PRICE => "update_fuel_price"
  | DELETE_FUEL_PRICE => "delete_fuel_price"
  | CREATE_TOLL => "create_toll" | READ_TOLL => "read_toll"
  | UPDATE_TOLL => "update_toll" | DELETE_TOLL => "delete_toll"
  | GENERATE_REPORT => "generate_report"
  | ADMIN_PANEL => "admin_panel" | VIEW_SYSTEM_STATS => "view_system_stats"
  | MANAGE_SYSTEM_DATA => "manage_system_data"
  end.

(** The columns of [app/models/user.py] the checks read. *)
Record User : Set := mkUser
  { role : UserRole; is_active : bool }.

(** *** [app/auth/dependencies.py] *)

Definition get_current_active_user (current_user : User)
  : HTTPException + User :=
  if negb (is_active current_user)
  then inl (mkHTTPException HTTP_400_BAD_REQUEST "Inactive user")
  else inr current_user.


(** [current_user: User = Depends(dependency)]: the dependency runs first,
    and what it raises is what the request gets. *)
Definition Depends (dependency dependant : User → HTTPException + User)
  (user : User) : HTTPException + User :=
  match dependency user with
  | inl e => inl e
  | inr current_user => dependant current_user
  end.

(** *** [app/auth/decorators.py]: the inner [permission_dependency] of each
    decorator, as a function of the permission(s) and the current user *)

Definition require_permission (permission : Permission) (current_user : User)
  : HTTPException + User :=
  if negb (has_permission (role current_user) permission)
  then inl (mkHTTPException HTTP_403_FORBIDDEN
              ("Permission required: " ++ Permission_value permission))
  else inr current_user.

Definition require_any_permission (permissions : list Permission)
  (current_user : User) : HTTPException + User :=
  if negb (has_any_permission (role current_user) permissions)
  then
    let permission_names := map Permission_value permissions in
    inl (mkHTTPException HTTP_403_FORBIDDEN
           ("One of these permissions required: "
            ++ String.concat ", " permission_names))
  else inr current_user.

Definition require_all_permissions (permissions : list Permission)
  (current_user : User) : HTTPException + User :=
  if negb (has_all_permissions (role current_user) permissions)
  then
    let permission_names := map Permission_value permissions in
    inl (mkHTTPException HTTP_403_FORBIDDEN
           ("All of these permissions required: "
            ++ String.concat ", " permission_names))
  else inr current_user.

Definition require_admin := require_permission ADMIN_PANEL.

Definition require_vehicle_access :=
  require_any_permission
    [CREATE_VEHICLE; READ_VEHICLE; UPDATE_VEHICLE; DELETE_VEHICLE].

Definition require_route_access :=
  require_any_permission [CALCULATE_ROUTE; READ_ROUTE].

Definition require_fuel_price_management :=
  require_any_permission
    [CREATE_FUEL_PRICE; UPDATE_FUEL_PRICE; DELETE_FUEL_PRICE].

Definition require_toll_management :=
  require_any_permission [CREATE_TOLL; UPDATE_TOLL; DELETE_TOLL].

Definition require_system_management := require_permission MANAGE_SYSTEM_DATA.

(** *** [require_admin_role(user)] and [require_permission(user, permission)]
    of [app/auth/permissions.py]; [user] is [None] or a [User], which has the
    attribute [role].  The second is named [require_user_permission] here,
    [require_permission] being the decorator above. *)



(** The dependencies an endpoint can be guarded with, each behind
    [get_current_active_user] as its [Depends] declares. *)
Inductive Guard : Set :=
| AdminGuard | VehicleAccess | RouteAccess
| FuelPriceManagement | TollManagement | SystemManagement.

Definition guard_dependency (g : Guard) : User → HTTPException + User :=
  Depends get_current_active_user
    match g with
    | AdminGuard => require_admin
    | VehicleAccess => require_vehicle_access
    | RouteAccess => require_route_access
    | FuelPriceManagement => require_fuel_price_management
    | TollManagement => require_toll_management
    | SystemManagement => require_system_management
    end.

End Authorization.

(* ===================================================================== *)
(** ** Staleness alerts and reports
       ([app/services/data_staleness_service.py])                        *)
(* ===================================================================== *)

Module StalenessReport.
Import Staleness.

Local Open Scope string_scope.
Local Open Scope Z_scope.

(** [str(n)] for an [int]. *)
Definition str_of_int (n : Z) : string := NilZero.string_of_int (Z.to_int n).

(** [@dataclass StalenessAlert]; [last_updated] is carried, not read. *)
Record StalenessAlert : Set := mkStalenessAlert
  { data_type : string; identifier : string; description : string;
    level : DataStalenessLevel; days_old : Z; last_updated : option Z;
    recommended_action : string; fallback_value : option Q }.

(** The columns of [app/models/fuel_price.py] the service reads.  A [date]
    is its proleptic ordinal ([date.toordinal()]), so that the difference of
    two dates in days is the difference of the ordinals. *)
Record FuelPrice : Set := mkFuelPrice
  { fuel_type : string; region : string; effective_date : Z;
    is_active : bool; updated_at : option Z }.

(** [date.min.toordinal()], [date.max.toordinal()] and the largest
    magnitude [timedelta(days=...)] accepts. *)
Definition date_min : Z := 1.
Definition date_max : Z := 3652059.
Definition timedelta_max_days : Z := 999999999.

(** [self.default_fuel_prices]. *)
Definition default_fuel_prices : gmap string Q :=
  <["diesel_500" := 150%Q]>
    (<["diesel_premium" := 165%Q]>
       (<["gasoline_regular" := 140%Q]>
          (<["gasoline_premium" := 155%Q]> ∅))).

Definition _get_fuel_price_recommendation (level : DataStalenessLevel)
  (days_old : Z) : string :=
  match level with
  | CRITICAL => "URGENT: Update fuel price immediately (data is "
                ++ str_of_int days_old ++ " days old)"
  | STALE => "Update fuel price soon (data is "
             ++ str_of_int days_old ++ " days old)"
  | WARNING => "Consider updating fuel price (data is "
               ++ str_of_int days_old ++ " days old)"
  | FRESH => "Data is fresh"
  end.

(** [if fuel_type: query = query.filter(column == fuel_type)]: [None] and
    the empty string leave the query as it is. *)
Definition optional_filter (value : option string) (column : string) : bool :=
  match value with
  | None | Some "" => true
  | Some v => String.eqb column v
  end.

(** [check_fuel_price_staleness(threshold_days, fuel_type, region)], on the
    day [today] and over the rows [rows] of the table [fuel_prices], in the
    order the query returns them.  [timedelta(days=threshold_days)] and the
    subtraction from [date.today()] raise [OverflowError] out of their
    ranges, which the [except] clause turns into the empty list. *)
Definition check_fuel_price_staleness (today : Z) (rows : list FuelPrice)
  (threshold_days : Z) (fuel_type' region' : option string)
  : list StalenessAlert :=
  if negb (Z.abs threshold_days <=? timedelta_max_days) then []
  else
    let staleness_date := today - threshold_days in
    if negb ((date_min <=? staleness_date) && (staleness_date <=? date_max))
    then []
    else
      let stale_prices :=
        List.filter
          (fun price =>
             (effective_date price <? staleness_date) && is_active price
             && optional_filter fuel_type' (fuel_type price)
             && optional_filter region' (region price))
          rows in
      map (fun price =>
             let days_old := today - effective_date price in
             let level := _get_staleness_level "fuel_price" days_old in
             let fallback_value :=
               default (default 150%Q (default_fuel_prices !! "diesel_500"))
                 (default_fuel_prices !! fuel_type price) in
             mkStalenessAlert "fuel_price"
               (fuel_type price ++ "_" ++ region price)
               (fuel_type price ++ " price in " ++ region price)
               level days_old (updated_at price)
               (_get_fuel_price_recommendation level days_old)
               (Some fallback_value))
        stale_prices.

(** [alerts_by_level]: the dictionary has exactly the keys [WARNING],
    [STALE] and [CRITICAL]. *)
Record LevelCounts : Set := mkLevelCounts
  { count_WARNING : Z; count_STALE : Z; count_CRITICAL : Z }.

(** [if alert.level in alerts_by_level: alerts_by_level[alert.level] += 1]. *)
Definition count_alert (alerts_by_level : LevelCounts) (alert : StalenessAlert)
  : LevelCounts :=
  match level alert with
  | WARNING =>
      mkLevelCounts (count_WARNING alerts_by_level + 1)
        (count_STALE alerts_by_level) (count_CRITICAL alerts_by_level)
  | STALE =>
      mkLevelCounts (count_WARNING alerts_by_level)
        (count_STALE alerts_by_level + 1) (count_CRITICAL alerts_by_level)
  | CRITICAL =>
      mkLevelCounts (count_WARNING alerts_by_level)
        (count_STALE alerts_by_level) (count_CRITICAL alerts_by_level + 1)
  | FRESH => alerts_by_level
  end.

(** [len([a for a in alerts if a.data_type == t and a.level == l])]. *)
Definition count_of (t : string) (l : DataStalenessLevel)
  (alerts : list StalenessAlert) : Z :=
  Z.of_nat (length (List.filter
                      (fun a => String.eqb (data_type a) t
                                && bool_decide (level a = l)) alerts)).

(** [_generate_recommendations(alerts)]. *)
Definition _generate_recommendations (alerts : list StalenessAlert)
  : list string :=
  match alerts with
  | [] => ["All data is up to date. No action required."]
  | _ =>
      let fuel_critical := count_of "fuel_price" CRITICAL alerts in
      let fuel_stale := count_of "fuel_price" STALE alerts in
      let toll_critical := count_of "toll" CRITICAL alerts in
      let toll_stale := count_of "toll" STALE alerts in
      ((if 0 <? fuel_critical
       then [("PRIORITY: Update " ++ str_of_int fuel_critical
              ++ " critical fuel price(s) immediately")%string]
       else [])
      ++ (if 0 <? toll_critical
          then [("PRIORITY: Verify " ++ str_of_int toll_critical
                 ++ " critical toll(s) immediately")%string]
          else [])
      ++ (if 0 <? fuel_stale
          then [("Update " ++ str_of_int fuel_stale
                 ++ " stale fuel price(s) within the next few days")%string]
          else [])
      ++ (if 0 <? toll_stale
          then [("Review " ++ str_of_int toll_stale
                 ++ " stale toll(s) when convenient")%string]
          else [])
      ++ ["Set up automated data refresh processes";
          "Consider implementing data source monitoring";
          "Review data update procedures with team"])%list
  end.

(** [@dataclass DataFreshnessReport], without [report_date]. *)
Record DataFreshnessReport : Set := mkDataFreshnessReport
  { total_alerts : Z; alerts_by_level : LevelCounts;
    alerts : list StalenessAlert; summary : string;
    recommendations : list string }.

(** The body of [generate_staleness_report] after its two queries:
    [fuel_alerts] and [toll_alerts] are what [check_fuel_price_staleness]
    and [check_toll_staleness] returned. *)
Definition report_of (fuel_alerts toll_alerts : list StalenessAlert)
  : DataFreshnessReport :=
  let all_alerts := (fuel_alerts ++ toll_alerts)%list in
  let alerts_by_level := fold_left count_alert all_alerts (mkLevelCounts 0 0 0) in
  let total_alerts := Z.of_nat (length all_alerts) in
  let summary :=
    if total_alerts =? 0 then "All data is fresh and up to date."
    else
      let critical_count := count_CRITICAL alerts_by_level in
      let stale_count := count_STALE alerts_by_level in
      let warning_count := count_WARNING alerts_by_level in
      let summary_parts :=
        ((if 0 <? critical_count
         then [(str_of_int critical_count ++ " critical")%string] else [])
        ++ (if 0 <? stale_count
            then [(str_of_int stale_count ++ " stale")%string] else [])
        ++ (if 0 <? warning_count
            then [(str_of_int warning_count ++ " warning")%string] else []))%list in
      "Found " ++ str_of_int total_alerts ++ " data staleness issues: "
      ++ String.concat ", " summary_parts ++ "." in
  mkDataFreshnessReport total_alerts alerts_by_level all_alerts summary
    (_generate_recommendations all_alerts).

(** [generate_staleness_report(fuel_price_threshold, toll_threshold)], given
    what [check_toll_staleness(toll_threshold)] returns. *)
Definition generate_staleness_report (today : Z) (rows : list FuelPrice)
  (toll_alerts : list StalenessAlert) (fuel_price_threshold : Z)
  : DataFreshnessReport :=
  report_of (check_fuel_price_staleness today rows fuel_price_threshold None None)
    toll_alerts.

(** The number of alerts of a level. *)
Definition at_level (l : DataStalenessLevel) (alerts : list StalenessAlert) : Z :=
  Z.of_nat (length (List.filter (fun a => bool_decide (level a = l)) alerts)).

End StalenessReport.

(* ===================================================================== *)
(** ** Coordinates and phone numbers
       ([app/validators/common_validators.py])                           *)
(* ===================================================================== *)

Module CommonValidators.
Import PyStr Validators.

(** *** [validate_coordinates] *)

(** [argentina_bounds]: the floats the literals [-73.5], [-53.6], [-55.1]
    and [-21.8] denote. *)
Definition min_longitude : Q := -147 # 2.
Definition max_longitude : Q := -7543529375845581 # 140737488355328.
Definition min_latitude : Q := -7754635608378573 # 140737488355328.
Definition max_latitude : Q := -6136154492292301 # 281474976710656.

(** [lo <= x <= hi]. *)
Definition between (lo x hi : Q) : bool := Qle_bool lo x && Qle_bool x hi.

Definition validate_coordinates (longitude latitude : Q)
  : HTTPException + (Q * Q) :=
  if negb (between (-180) longitude 180)
  then inl (mkHTTPException HTTP_400_BAD_REQUEST
              "Longitude must be between -180 and 180 degrees")
  else if negb (between (-90) latitude 90)
  then inl (mkHTTPException HTTP_400_BAD_REQUEST
              "Latitude must be between -90 and 90 degrees")
  else if negb (between min_longitude longitude max_longitude)
  then inl (mkHTTPException HTTP_400_BAD_REQUEST
              "Longitude appears to be outside Argentina bounds")
  else if negb (between min_latitude latitude max_latitude)
  then inl (mkHTTPException HTTP_400_BAD_REQUEST
              "Latitude appears to be outside Argentina bounds")
  else inr (longitude, latitude).

(** *** [validate_phone_number] *)

(** [re.sub(r'[^\d+]', '', s)]: the digits and plus signs of [s], in
    order. *)
Definition keeps (c : ascii) : bool := is_digit c || Ascii.eqb c "+"%char.

Definition sub_non_digits_plus (s : str) : str := List.filter keeps s.

(** The phone patterns have the shape [^ A1 ... An $] where each [Ai] is a
    literal character or [\d]. *)
Inductive Atom : Set := Lit (c : ascii) | Digit.

Definition atom_matches (a : Atom) (c : ascii) : bool :=
  match a with Lit l => Ascii.eqb l c | Digit => is_digit c end.

(** [re.match(p, s)] for such a pattern; [$] as in [PyStr.re_match]. *)
Fixpoint re_match_atoms (p : list Atom) (s : str) : bool :=
  match p with
  | [] =>
      match s with
      | [] => true
      | [c] => Ascii.eqb c "010"%char
      | _ => false
      end
  | a :: p' =>
      match s with
      | [] => false
      | c :: s' => atom_matches a c && re_match_atoms p' s'
      end
  end.

(** [^\+54\d{10}$], [^54\d{10}$], [^\d{10}$], [^\d{8}$]. *)
Definition phone_patterns : list (list Atom) :=
  [ map Lit (lit "+54") ++ repeat Digit 10;
    map Lit (lit "54") ++ repeat Digit 10;
    repeat Digit 10;
    repeat Digit 8 ].

Definition validate_phone_number (phone : str) : HTTPException + str :=
  if negb (truthy phone) || negb (truthy (strip phone))
  then inl (mkHTTPException HTTP_400_BAD_REQUEST "Phone number cannot be empty")
  else
    let normalized := sub_non_digits_plus (strip phone) in
    if existsb (fun pattern => re_match_atoms pattern normalized) phone_patterns
    then inr normalized
    else inl (mkHTTPException HTTP_400_BAD_REQUEST
                "Invalid phone number format for Argentina").

(** The four shapes of a normalized phone number. *)
Definition phone_shape (n : str) : Prop :=
  ∃ digits, Forall (fun c => is_digit c = true) digits
    ∧ ((n = lit "+54" ++ digits ∧ length digits = 10%nat)
       ∨ (n = lit "54" ++ digits ∧ length digits = 10%nat)
       ∨ (n = digits ∧ (length digits = 10%nat ∨ length digits = 8%nat))).

End CommonValidators.

(* ===================================================================== *)
(** * Properties                                                         *)
(* ===================================================================== *)

(** ** Permissions *)

Section PermissionFacts.
Import Permissions.

Lemma all_permissions_NoDup : NoDup all_permissions.
Proof. compute_done. Qed.

Lemma all_permissions_complete (p : Permission) : p ∈ all_permissions.
Proof. destruct p; compute_done. Qed.

(** Any enumeration without repetition has as many elements as
    [all_permissions]. *)
Lemma enumeration_length (l : list Permission) :
  NoDup l → (∀ p, p ∈ l) → length l = length all_permissions.
Proof.
  intros Hnd Hall. apply Nat.le_antisymm.
  - apply submseteq_length, NoDup_submseteq; [exact Hnd|].
    intros p _. apply all_permissions_complete.
  - apply submseteq_length, NoDup_submseteq; [exact all_permissions_NoDup|].
    intros p _. apply Hall.
Qed.

(** C3, as stated: the enumeration does not have exactly 24 members. *)
Lemma permission_atoms_not_24 : ¬ defines_exactly 24.
Proof.
  intros (l & Hnd & Hall & Hlen).
  pose proof (enumeration_length l Hnd Hall) as H.
  rewrite Hlen in H. vm_compute in H. discriminate H.
Qed.

(** C3, amended: the subsystem defines exactly 27 permission atoms; the
    admin role holds every one of them; the operator role holds exactly the
    twelve of [operator_subset] (read and update user, read company, the four
    vehicle permissions, route calculation and read, fuel-price read, toll
    read, report generation), a strict subset of the admin's. *)
Theorem role_permission_table :
  defines_exactly 27
  ∧ (∀ p, has_permission ADMIN p = true)
  ∧ (∀ p, has_permission OPERATOR p = bool_decide (p ∈ operator_subset))
  ∧ length operator_subset = 12%nat
  ∧ NoDup operator_subset
  ∧ (∀ p, has_permission OPERATOR p = true → has_permission ADMIN p = true)
  ∧ has_permission ADMIN ADMIN_PANEL = true
  ∧ has_permission OPERATOR ADMIN_PANEL = false.
Proof.
  split.
  { exists all_permissions. split; [exact all_permissions_NoDup|].
    split; [exact all_permissions_complete | reflexivity]. }
  split. { intros p. destruct p; reflexivity. }
  split. { intros p. destruct p; reflexivity. }
  split. { reflexivity. }
  split. { compute_done. }
  split. { intros p _. destruct p; reflexivity. }
  split; reflexivity.
Qed.

(** An operator permission is an admin permission: reading a user. *)
Lemma role_permission_table_witness :
  has_permission OPERATOR READ_USER = true
  ∧ has_permission ADMIN READ_USER = true.
Proof.
  split; [reflexivity|].
  apply (proj1 (proj2 (proj2 (proj2 (proj2 (proj2 role_permission_table)))))).
  reflexivity.
Defined.

End PermissionFacts.

(** ** Staleness levels *)

Section StalenessFacts.
Import Staleness.

Lemma thresholds_fuel_price_eq :
  default thresholds_fuel_price (thresholds !! "fuel_price"%string)
  = mkThresholds 15 30 60.
Proof. reflexivity. Qed.

Lemma thresholds_toll_eq :
  default thresholds_fuel_price (thresholds !! "toll"%string)
  = mkThresholds 90 180 365.
Proof. reflexivity. Qed.

(** The level computed from a table is the highest one whose threshold the
    age meets, whenever the thresholds increase with the severity. *)
Lemma level_is_highest_met (th : Thresholds) (days_old : Z) :
  th_WARNING th <= th_STALE th → th_STALE th <= th_CRITICAL th →
  highest_met th days_old
    (if th_CRITICAL th <=? days_old then CRITICAL
     else if th_STALE th <=? days_old then STALE
     else if th_WARNING th <=? days_old then WARNING
     else FRESH).
Proof.
  intros H1 H2. unfold highest_met.
  destruct (Z.leb_spec (th_CRITICAL th) days_old) as [Hc|Hc];
    [|destruct (Z.leb_spec (th_STALE th) days_old) as [Hs|Hs];
      [|destruct (Z.leb_spec (th_WARNING th) days_old) as [Hw|Hw]]].
  all: split;
    [ intros t Ht; simpl in Ht; try discriminate; injection Ht as <-; lia
    | intros l' t Ht Hmet; destruct l'; simpl in *; try discriminate;
      injection Ht as <-; lia ].
Qed.

(** C6: for every age in days the level is the highest threshold the age
    meets or exceeds, else fresh, with the thresholds 15/30/60 for fuel
    prices and 90/180/365 for tolls; the boundary ages 30, 29, 60, 14 (fuel)
    and 180, 179, 365, 89 (toll) give stale, warning, critical, fresh. *)
Theorem staleness_level_thresholds (days_old : Z) :
  highest_met (mkThresholds 15 30 60) days_old
    (_get_staleness_level "fuel_price" days_old)
  ∧ highest_met (mkThresholds 90 180 365) days_old
      (_get_staleness_level "toll" days_old)
  ∧ _get_staleness_level "fuel_price" days_old
    = (if 60 <=? days_old then CRITICAL else if 30 <=? days_old then STALE
       else if 15 <=? days_old then WARNING else FRESH)
  ∧ _get_staleness_level "toll" days_old
    = (if 365 <=? days_old then CRITICAL else if 180 <=? days_old then STALE
       else if 90 <=? days_old then WARNING else FRESH)
  ∧ _get_staleness_level "fuel_price" 30 = STALE
  ∧ _get_staleness_level "fuel_price" 29 = WARNING
  ∧ _get_staleness_level "fuel_price" 60 = CRITICAL
  ∧ _get_staleness_level "fuel_price" 14 = FRESH
  ∧ _get_staleness_level "toll" 180 = STALE
  ∧ _get_staleness_level "toll" 179 = WARNING
  ∧ _get_staleness_level "toll" 365 = CRITICAL
  ∧ _get_staleness_level "toll" 89 = FRESH.
Proof.
  unfold _get_staleness_level.
  rewrite thresholds_fuel_price_eq, thresholds_toll_eq. cbn [th_CRITICAL th_STALE th_WARNING].
  split. { apply (level_is_highest_met (mkThresholds 15 30 60)); simpl; lia. }
  split. { apply (level_is_highest_met (mkThresholds 90 180 365)); simpl; lia. }
  repeat split; reflexivity.
Qed.

End StalenessFacts.

(** ** Strings *)

Section StringFacts.
Import PyStr.




Lemma drop_while_filter (f g : ascii → bool) (s : str) :
  (∀ c, f c = true → g c = false) →
  List.filter g (drop_while f s) = List.filter g s.
Proof.
  intros Hfg. induction s as [|c s IH]; [reflexivity|]. simpl.
  destruct (f c) eqn:Hf; [|reflexivity].
  rewrite (Hfg c Hf). exact IH.
Qed.

Lemma filter_rev (g : ascii → bool) (s : str) :
  List.filter g (rev s) = rev (List.filter g s).
Proof.
  induction s as [|c s IH]; [reflexivity|]. simpl.
  rewrite List.filter_app, IH. simpl.
  destruct (g c); simpl; [reflexivity | apply app_nil_r].
Qed.

Lemma isspace_not_digit (c : ascii) : isspace c = true → is_digit c = false.
Proof.
  destruct c as [[] [] [] [] [] [] [] []]; vm_compute; congruence.
Qed.

(** Stripping white space keeps the digits. *)
Lemma strip_digits (s : str) :
  List.filter is_digit (strip s) = List.filter is_digit s.
Proof.
  unfold strip, rstrip, lstrip.
  rewrite filter_rev, (drop_while_filter _ _ _ isspace_not_digit).
  rewrite filter_rev, rev_involutive.
  apply (drop_while_filter _ _ _ isspace_not_digit).
Qed.

Lemma truthy_length (s : str) : truthy s = true ↔ (0 < length s)%nat.
Proof. destruct s; simpl; split; (lia || congruence || reflexivity). Qed.

End StringFacts.

(** ** Vehicle category and fuel cost *)

Section VehicleFacts.
Import PyStr Fleet RouteOptimization.





Local Open Scope Q_scope.



End VehicleFacts.

(** ** Tax identifiers *)

Section TaxIdFacts.
Import PyStr Validators.

Lemma length_11_inv {A} (l : list A) :
  length l = 11%nat → ∃ a b c d e f g h i j k, l = [a; b; c; d; e; f; g; h; i; j; k].
Proof.
  intros H.
  do 11 (destruct l as [|? l]; [discriminate H|]).
  destruct l; [|discriminate H]. repeat eexists.
Qed.

Lemma length_10_inv {A} (l : list A) :
  length l = 10%nat → ∃ a b c d e f g h i j, l = [a; b; c; d; e; f; g; h; i; j].
Proof.
  intros H.
  do 10 (destruct l as [|? l]; [discriminate H|]).
  destruct l; [|discriminate H]. repeat eexists.
Qed.

(** On eleven characters the code computes the documented checksum. *)
Lemma cuit_algorithm_spec (cuit : str) :
  length cuit = 11%nat →
  _validate_cuit_algorithm cuit = true ↔ checksum_holds (map int_of_digit cuit).
Proof.
  intros Hlen.
  destruct (length_11_inv cuit Hlen) as (a & b & c & d & e & f & g & h & i & j & k & ->).
  unfold _validate_cuit_algorithm, checksum_holds, check_digit_of.
  cbn [length Nat.eqb negb map seq nth multipliers py_sum fold_left weighted_sum].
  replace (0 + int_of_digit a * 5 + int_of_digit b * 4 + int_of_digit c * 3
           + int_of_digit d * 2 + int_of_digit e * 7 + int_of_digit f * 6
           + int_of_digit g * 5 + int_of_digit h * 4 + int_of_digit i * 3
           + int_of_digit j * 2)
    with (5 * int_of_digit a + 4 * int_of_digit b + 3 * int_of_digit c
          + 2 * int_of_digit d + 7 * int_of_digit e + 6 * int_of_digit f
          + 5 * int_of_digit g + 4 * int_of_digit h + 3 * int_of_digit i
          + 2 * int_of_digit j) by lia.
  apply Z.eqb_eq.
Qed.

(** The check digit is a function of the first ten digits. *)
Lemma check_digit_of_app (ds : list Z) (x y : Z) :
  length ds = 10%nat → check_digit_of (ds ++ [x]) = check_digit_of (ds ++ [y]).
Proof.
  intros H.
  destruct (length_10_inv ds H) as (a & b & c & d & e & f & g & h & i & j & ->).
  reflexivity.
Qed.

Lemma int_of_digit_inj (c c' : ascii) : int_of_digit c = int_of_digit c' → c = c'.
Proof.
  unfold int_of_digit, code. intros H.
  assert (N_of_ascii c = N_of_ascii c') as E by lia.
  rewrite <- (ascii_N_embedding c), <- (ascii_N_embedding c'), E. reflexivity.
Qed.

(** What [validate_tax_id] decides, in terms of the digits of its input. *)
Lemma validate_tax_id_cases (s : str) :
  validate_tax_id s =
  if (length (List.filter is_digit s) =? 11)%nat
     && _validate_cuit_algorithm (List.filter is_digit s)
  then inr (format_tax_id (List.filter is_digit s))
  else validate_tax_id s.
Proof.
  destruct ((length (List.filter is_digit s) =? 11)%nat
            && _validate_cuit_algorithm (List.filter is_digit s)) eqn:E;
    [|reflexivity].
  apply andb_true_iff in E as [Hlen Halg].
  unfold validate_tax_id, sub_nondigits. rewrite strip_digits.
  assert (truthy (strip s) = true) as Hs.
  { apply truthy_length. destruct (strip s) eqn:Es; [|simpl; lia].
    rewrite <- strip_digits, Es in Hlen. discriminate Hlen. }
  assert (truthy s = true) as Hs'.
  { destruct s; [discriminate Hlen | reflexivity]. }
  rewrite Hs, Hs', Hlen, Halg. reflexivity.
Qed.

Lemma validate_tax_id_accepts (s : str) :
  accepts (validate_tax_id s)
  ↔ (length (List.filter is_digit s) =? 11)%nat
    && _validate_cuit_algorithm (List.filter is_digit s) = true.
Proof.
  split.
  - intros [r Hr]. unfold validate_tax_id, sub_nondigits in Hr.
    rewrite strip_digits in Hr.
    destruct (negb (truthy s) || negb (truthy (strip s))); [discriminate Hr|].
    destruct (length (List.filter is_digit s) =? 11)%nat; [|discriminate Hr].
    destruct (_validate_cuit_algorithm (List.filter is_digit s));
      [reflexivity | discriminate Hr].
  - intros H. rewrite validate_tax_id_cases, H. eexists. reflexivity.
Qed.

Lemma format_tax_id_laid_out (ds : str) :
  length ds = 11%nat → laid_out ds (format_tax_id ds).
Proof.
  intros H.
  destruct (length_11_inv ds H) as (a & b & c & d & e & f & g & h & i & j & k & ->).
  exists a, b, c, d, e, f, g, h, i, j, k. split; reflexivity.
Qed.

(** C2: [validate_tax_id] accepts exactly the inputs whose digits, once
    every other character is stripped, are eleven and satisfy the CUIT/CUIL
    checksum; on acceptance the result is the digits laid out as
    XX-XXXXXXXX-X; an accepted input whose last digit is replaced by another
    digit is rejected. *)
Theorem validate_tax_id_checksum (s : str) :
  (accepts (validate_tax_id s)
   ↔ length (digits_of s) = 11%nat ∧ checksum_holds (digits_of s))
  ∧ (∀ r, validate_tax_id s = inr r → laid_out (List.filter is_digit s) r)
  ∧ (∀ pre d post d',
       s = pre ++ d :: post → List.filter is_digit post = [] →
       is_digit d = true → is_digit d' = true → d' ≠ d →
       accepts (validate_tax_id s) →
       ¬ accepts (validate_tax_id (pre ++ d' :: post))).
Proof.
  assert (Hacc : ∀ s, accepts (validate_tax_id s)
     ↔ length (digits_of s) = 11%nat ∧ checksum_holds (digits_of s)).
  { intros s0. rewrite validate_tax_id_accepts, andb_true_iff, Nat.eqb_eq.
    unfold digits_of. rewrite length_map. split.
    - intros [Hlen Halg]. split; [exact Hlen|].
      apply cuit_algorithm_spec; assumption.
    - intros [Hlen Hck]. split; [exact Hlen|].
      apply cuit_algorithm_spec; assumption. }
  split; [apply Hacc|]. split.
  - intros r Hr.
    assert (accepts (validate_tax_id s)) as Ha by (exists r; exact Hr).
    apply validate_tax_id_accepts, andb_true_iff in Ha as [Hlen Halg].
    rewrite validate_tax_id_cases, Hlen, Halg in Hr. injection Hr as <-.
    apply format_tax_id_laid_out, Nat.eqb_eq, Hlen.
  - intros pre d post d' -> Hpost Hd Hd' Hne Ha Ha'.
    apply Hacc in Ha as [Hlen Hck]. apply Hacc in Ha' as [Hlen' Hck'].
    unfold digits_of in *.
    rewrite List.filter_app in *. cbn [List.filter] in *.
    rewrite Hd, Hpost in *. rewrite Hd', List.map_app in *.
    cbn [map] in *.
    assert (length (map int_of_digit (List.filter is_digit pre)) = 10%nat) as H10.
    { rewrite length_app in Hlen. simpl in Hlen. lia. }
    unfold checksum_holds in Hck, Hck'.
    rewrite app_nth2 in Hck, Hck' by lia.
    rewrite H10 in Hck, Hck'. cbn [Nat.sub nth] in Hck, Hck'.
    rewrite (check_digit_of_app _ (int_of_digit d') (int_of_digit d) H10) in Hck'.
    apply Hne, int_of_digit_inj. congruence.
Qed.

(** A checksummed CUIT is accepted and formatted, and with its last digit
    changed from 6 to 7 it is rejected. *)
Lemma validate_tax_id_checksum_witness :
  accepts (validate_tax_id (lit "20-12345678-6"))
  ∧ laid_out (lit "20123456786") (lit "20-12345678-6")
  ∧ ¬ accepts (validate_tax_id (lit "20-12345678-7")).
Proof.
  pose proof (validate_tax_id_checksum (lit "20-12345678-6")) as (Hacc & Hout & Hflip).
  assert (accepts (validate_tax_id (lit "20-12345678-6"))) as Ha.
  { apply Hacc. split; reflexivity. }
  split; [exact Ha|]. split.
  - apply (Hout (lit "20-12345678-6")). reflexivity.
  - apply (Hflip (lit "20-12345678-") "6"%char [] "7"%char);
      [reflexivity | reflexivity | reflexivity | reflexivity | discriminate | exact Ha].
Defined.

End TaxIdFacts.

(** ** License plates *)

Section LicensePlateFacts.
Import PyStr Validators.

(** A letter A-Z or a digit is kept by every step of the normalization. *)
Lemma class_char_plain (k : CharClass) (c : ascii) :
  class_matches k c = true →
  isspace c = false ∧ upper_char c = [c]
  ∧ Ascii.eqb c " " = false ∧ Ascii.eqb c "-" = false ∧ c ≠ LF.
Proof.
  destruct k; destruct c as [[] [] [] [] [] [] [] []]; vm_compute;
    intros H; try discriminate H; repeat split; discriminate.
Qed.

(** What [re.match] accepts: the exact shape, or the shape followed by one
    line feed. *)
Lemma re_match_spec (p : list CharClass) (s : str) :
  re_match p s = true ↔ has_shape p s ∨ ∃ s0, s = s0 ++ [LF] ∧ has_shape p s0.
Proof.
  unfold has_shape. revert s. induction p as [|k p IH]; intros s.
  - destruct s as [|c [|c' s]]; simpl.
    + split; [intros _; left; constructor | reflexivity].
    + rewrite Ascii.eqb_eq. split.
      * intros ->. right. exists []. split; [reflexivity | constructor].
      * intros [H|(s0 & E & H)]; [inversion H|].
        inversion H; subst. injection E as ->. reflexivity.
    + split; [discriminate|].
      intros [H|(s0 & E & H)]; [inversion H|].
      inversion H; subst. discriminate E.
  - destruct s as [|c s]; cbn [re_match].
    + split; [discriminate|].
      intros [H|(s0 & E & H)]; [inversion H|].
      inversion H; subst. discriminate E.
    + rewrite andb_true_iff, IH. split.
      * intros [Hc [H|(s0 & -> & H)]].
        -- left. constructor; assumption.
        -- right. exists (c :: s0). split; [reflexivity|].
           constructor; assumption.
      * intros [H|(s0 & E & H)].
        -- inversion H; subst. split; [assumption | left; assumption].
        -- inversion H as [|k' c' p' s0' Hc Hs]; subst.
           injection E as -> ->. split; [assumption|].
           right. exists s0'. split; [reflexivity | assumption].
Qed.

Lemma existsb_patterns (s : str) :
  existsb (fun pattern => re_match pattern s) patterns = true
  ↔ plate_format s ∨ ∃ s0, s = s0 ++ [LF] ∧ plate_format s0.
Proof.
  rewrite existsb_exists. unfold plate_format. split.
  - intros (p & Hin & Hm). apply list_elem_of_In in Hin.
    apply re_match_spec in Hm as [H|(s0 & E & H)]; [left | right]; eauto.
  - intros [(p & Hin & H)|(s0 & E & p & Hin & H)];
      exists p; (split; [apply list_elem_of_In, Hin|]);
      apply re_match_spec; [left | right]; eauto.
Qed.

(** [validate_license_plate] returns the normalization of its input, and
    returns exactly when the input is not blank and the normalization is one
    of the formats, or one of the formats followed by a line feed. *)
Lemma validate_license_plate_spec (s r : str) :
  validate_license_plate s = inr r
  ↔ truthy (strip s) = true ∧ r = normalize_plate s
    ∧ (plate_format r ∨ ∃ r0, r = r0 ++ [LF] ∧ plate_format r0).
Proof.
  unfold validate_license_plate.
  destruct (truthy s) eqn:Hs; cbn [negb orb].
  - destruct (truthy (strip s)) eqn:Hs'; cbn [negb].
    + destruct (existsb (fun pattern => re_match pattern (normalize_plate s))
                  patterns) eqn:E.
      * apply existsb_patterns in E. split.
        -- intros H. injection H as <-. auto.
        -- intros (_ & -> & _). reflexivity.
      * split; [discriminate|]. intros (_ & -> & H).
        apply existsb_patterns in H. congruence.
    + split; [discriminate | intros [H _]; discriminate H].
  - split; [discriminate|]. intros [H _]. destruct s; discriminate.
Qed.

Lemma has_shape_plain (p : list CharClass) (s : str) :
  has_shape p s →
  Forall (fun c => isspace c = false ∧ upper_char c = [c]
                   ∧ Ascii.eqb c " " = false ∧ Ascii.eqb c "-" = false
                   ∧ c ≠ LF) s.
Proof.
  induction 1 as [|k c p s Hc _ IH]; constructor; [|exact IH].
  exact (class_char_plain k c Hc).
Qed.

Lemma plate_format_nonempty (s : str) : plate_format s → s ≠ [].
Proof.
  intros (p & Hin & H) ->. inversion H; subst.
  apply list_elem_of_In in Hin. simpl in Hin.
  destruct Hin as [E|[E|[E|[]]]]; discriminate E.
Qed.

(** A plate in one of the three formats is its own normalization. *)
Lemma plate_format_fixed (s : str) :
  plate_format s → truthy (strip s) = true ∧ strip s = s ∧ normalize_plate s = s.
Proof.
  intros Hf. pose proof (plate_format_nonempty s Hf) as Hne.
  destruct Hf as (p & _ & Hs). apply has_shape_plain in Hs.
  assert (lstrip s = s) as Hl.
  { destruct s as [|c s]; [reflexivity|]. inversion Hs as [|? ? (Hc & _) _]; subst.
    unfold lstrip. simpl. rewrite Hc. reflexivity. }
  assert (rstrip s = s) as Hr.
  { unfold rstrip. destruct (rev s) as [|c t] eqn:Er.
    - apply (f_equal (@rev ascii)) in Er. rewrite rev_involutive in Er. exact (eq_sym Er).
    - assert (isspace c = false) as Hc.
      { rewrite Forall_forall in Hs. apply Hs.
        apply list_elem_of_In, in_rev. rewrite Er. left. reflexivity. }
      simpl. rewrite Hc, <- Er. apply rev_involutive. }
  assert (strip s = s) as Hstrip by (unfold strip; rewrite Hl; exact Hr).
  split; [rewrite Hstrip; destruct s; [contradiction | reflexivity]|].
  split; [exact Hstrip|].
  unfold normalize_plate. rewrite Hstrip.
  assert (upper s = s) as ->.
  { clear -Hs. induction Hs as [|c s (_ & Hu & _) _ IH]; [reflexivity|].
    cbn [upper flat_map]. rewrite Hu. cbn [app]. f_equal. exact IH. }
  assert (remove_char " " s = s) as ->.
  { clear -Hs. induction Hs as [|c s (_ & _ & Hsp & _) _ IH]; [reflexivity|].
    cbn [remove_char List.filter]. rewrite Hsp. cbn [negb]. f_equal. exact IH. }
  clear -Hs. induction Hs as [|c s (_ & _ & _ & Hhy & _) _ IH]; [reflexivity|].
  cbn [remove_char List.filter]. rewrite Hhy. cbn [negb]. f_equal. exact IH.
Qed.

(** On the outputs that are in one of the three formats the validator is
    idempotent. *)
Lemma validate_license_plate_fixed (r : str) :
  plate_format r → validate_license_plate r = inr r.
Proof.
  intros Hf. destruct (plate_format_fixed r Hf) as (Ht & _ & Hn).
  apply validate_license_plate_spec. rewrite Hn. auto.
Qed.

(** C8 at the input "ABC123", line feed, hyphen: the validator accepts it
    and returns "ABC123" followed by a line feed, which is not one of the
    three formats and on which the validator returns "ABC123", another
    value.  The documented examples behave as the claim says. *)
Theorem validate_license_plate_line_feed :
  validate_license_plate (lit "ABC123" ++ [LF; "-"%char])
  = inr (lit "ABC123" ++ [LF])
  ∧ ¬ plate_format (lit "ABC123" ++ [LF])
  ∧ validate_license_plate (lit "ABC123" ++ [LF]) = inr (lit "ABC123")
  ∧ lit "ABC123" ≠ lit "ABC123" ++ [LF]
  ∧ validate_license_plate (lit "abc-123") = inr (lit "ABC123")
  ∧ validate_license_plate (lit "ABC123") = inr (lit "ABC123")
  ∧ ¬ accepts (validate_license_plate (lit "AB12")).
Proof.
  split; [reflexivity|]. split.
  { intros Hf. apply plate_format_fixed in Hf as (_ & Hs & _).
    vm_compute in Hs. discriminate Hs. }
  split; [reflexivity|]. split; [discriminate|].
  split; [reflexivity|]. split; [reflexivity|].
  intros [r Hr]. vm_compute in Hr. discriminate Hr.
Qed.

End LicensePlateFacts.

(** ** Route optimization *)

Section RouteOptimizationFacts.
Import PyStr Fleet RouteOptimization.

Local Open Scope Q_scope.

Lemma lookup_map {A B} (f : A → B) (l : list A) (i : nat) :
  map f l !! i = f <$> l !! i.
Proof.
  revert i. induction l as [|x l IH]; intros [|i]; simpl; auto.
Qed.

Lemma Qltb_true (x y : Q) : RouteOptimization.Qltb x y = true ↔ x < y.
Proof.
  unfold RouteOptimization.Qltb. rewrite negb_true_iff.
  destruct (Qle_bool y x) eqn:E.
  - apply Qle_bool_iff in E. split; [discriminate | intros H; lra].
  - split; [intros _|reflexivity].
    apply Qnot_le_lt. intros H. apply Qle_bool_iff in H. congruence.
Qed.

Lemma Qltb_false (x y : Q) : RouteOptimization.Qltb x y = false ↔ y <= x.
Proof.
  destruct (RouteOptimization.Qltb x y) eqn:E.
  - apply Qltb_true in E. split; [discriminate | intros H; lra].
  - split; [intros _|reflexivity].
    apply Qnot_lt_le. intros H. apply Qltb_true in H. congruence.
Qed.

(** [min] scans with the best key so far: the result is a position of the
    whole list whose key no key is below. *)
Lemma min_from_spec (keys pre : list Q) (best_i : nat) (best : Q) :
  pre !! best_i = Some best →
  (∀ j k, pre !! j = Some k → best <= k) →
  ∃ kr, (pre ++ keys) !! min_from best_i best (length pre) keys = Some kr
        ∧ ∀ j k, (pre ++ keys) !! j = Some k → kr <= k.
Proof.
  revert pre best_i best. induction keys as [|k keys IH]; intros pre best_i best Hb Hmin.
  - simpl. rewrite app_nil_r. eauto.
  - cbn [min_from].
    replace (pre ++ k :: keys) with ((pre ++ [k]) ++ keys)
      by (rewrite <- app_assoc; reflexivity).
    replace (S (length pre)) with (length (pre ++ [k]))
      by (rewrite length_app; simpl; lia).
    destruct (RouteOptimization.Qltb k best) eqn:E.
    + apply Qltb_true in E. apply IH.
      * rewrite lookup_app_r by lia. rewrite Nat.sub_diag. reflexivity.
      * intros j x Hj. destruct (decide (j < length pre)%nat) as [Hlt|Hge].
        -- rewrite lookup_app_l in Hj by exact Hlt.
           specialize (Hmin j x Hj). lra.
        -- rewrite lookup_app_r in Hj by lia.
           destruct (j - length pre)%nat; simpl in Hj; [|discriminate Hj].
           injection Hj as <-. lra.
    + apply Qltb_false in E. apply IH.
      * rewrite lookup_app_l by (eapply lookup_lt_Some; exact Hb). exact Hb.
      * intros j x Hj. destruct (decide (j < length pre)%nat) as [Hlt|Hge].
        -- rewrite lookup_app_l in Hj by exact Hlt. eauto.
        -- rewrite lookup_app_r in Hj by lia.
           destruct (j - length pre)%nat; simpl in Hj; [|discriminate Hj].
           injection Hj as <-. exact E.
Qed.

Lemma min_index_spec (keys : list Q) :
  keys ≠ [] →
  ∃ kr, keys !! min_index keys = Some kr ∧ ∀ j k, keys !! j = Some k → kr <= k.
Proof.
  destruct keys as [|k keys]; [congruence|]. intros _.
  apply (min_from_spec keys [k] 0 k); [reflexivity|].
  intros [|j] x Hj; simpl in Hj; [|discriminate Hj].
  injection Hj as <-. lra.
Qed.

(** *** Equality of route objects *)

Lemma Qeqb_refl (x : Q) : Qeqb x x = true.
Proof. apply Qeq_bool_iff. reflexivity. Qed.

Lemma option_eqb_refl {A} (e : A → A → bool) (x : option A) :
  (∀ a, e a a = true) → option_eqb e x x = true.
Proof. intros H. destruct x; simpl; auto. Qed.

Lemma list_eqb_refl {A} (e : A → A → bool) (l : list A) :
  (∀ a, e a a = true) → list_eqb e l l = true.
Proof. intros H. induction l; simpl; [reflexivity|]. rewrite H, IHl. reflexivity. Qed.

Lemma OptimizedRoute_eqb_refl (r : OptimizedRoute) : OptimizedRoute_eqb r r = true.
Proof.
  assert (Hc : ∀ c, Coordinate_eqb c c = true)
    by (intros c; unfold Coordinate_eqb; rewrite !Qeqb_refl; reflexivity).
  assert (Hstep : ∀ s, RouteStep_eqb s s = true)
    by (intros s; unfold RouteStep_eqb;
        rewrite !Qeqb_refl, !String.eqb_refl; reflexivity).
  assert (Hleg : ∀ l, RouteLeg_eqb l l = true)
    by (intros l; unfold RouteLeg_eqb;
        rewrite !Qeqb_refl, (list_eqb_refl _ _ Hstep); reflexivity).
  assert (Hpoint : ∀ p, RoutePoint_eqb p p = true)
    by (intros p; unfold RoutePoint_eqb;
        rewrite Hc, !(option_eqb_refl _ _ String.eqb_refl); reflexivity).
  assert (Htoll : ∀ t, TollInfo_eqb t t = true)
    by (intros t; unfold TollInfo_eqb;
        rewrite Hc, !Qeqb_refl, !String.eqb_refl; reflexivity).
  unfold OptimizedRoute_eqb, OSRMRoute_eqb, RouteCostBreakdown_eqb,
    FuelCostInfo_eqb.
  rewrite !Qeqb_refl, !String.eqb_refl, (list_eqb_refl _ _ Hleg),
    (list_eqb_refl _ _ Htoll), (list_eqb_refl _ _ Hpoint),
    !(option_eqb_refl _ _ Qeqb_refl), (option_eqb_refl _ _ String.eqb_refl).
  reflexivity.
Qed.

Lemma OptimizedRoute_eqb_type (a b : OptimizedRoute) :
  route_type a ≠ route_type b → OptimizedRoute_eqb a b = false.
Proof.
  intros H. apply String.eqb_neq in H. unfold OptimizedRoute_eqb.
  rewrite H, andb_false_r. reflexivity.
Qed.

(** How [recommend] leaves the route objects: with [i] the position of the
    first cheapest route, either [i] is 0 and only the label of that route
    changes, or [i] is not 0 and every other route receives its difference
    to the first route while route [i] receives the savings. *)
Lemma recommend_routes (routes0 : list OptimizedRoute) (first : OptimizedRoute)
  (ws : list Warning) :
  routes0 !! 0%nat = Some first →
  (∀ j r, routes0 !! j = Some r → route_type r ≠ "cheapest"%string) →
  let i := min_index (map cost_of routes0) in
  let resp := recommend routes0 first ws in
  recommended_index resp = i ∧ warnings resp = ws ∧
  ∃ ri, routes0 !! i = Some ri
    ∧ (∀ j r, routes0 !! j = Some r → cost_of ri <= cost_of r)
    ∧ ((i = 0%nat ∧ total_savings resp = 0
        ∧ routes resp = alter (set_route_type "cheapest") 0%nat routes0)
       ∨ (i ≠ 0%nat ∧ total_savings resp = cost_of first - cost_of ri
          ∧ ∀ j, routes resp !! j =
                 (fun r => if decide (j = i)
                           then set_estimated_savings
                                  (cost_of first - cost_of ri)
                                  (set_route_type "cheapest" r)
                           else set_savings_vs_fastest
                                  (cost_of first - cost_of r) r)
                 <$> routes0 !! j)).
Proof.
  intros Hfirst Htypes i resp.
  assert (map cost_of routes0 ≠ []) as Hne
    by (destruct routes0; [discriminate Hfirst | discriminate]).
  destruct (min_index_spec _ Hne) as (kr & Hkr & Hmin). fold i in Hkr.
  rewrite lookup_map in Hkr.
  destruct (routes0 !! i) as [ri|] eqn:Hri; [|discriminate Hkr].
  injection Hkr as <-.
  assert (Hle : ∀ j r, routes0 !! j = Some r → cost_of ri <= cost_of r).
  { intros j r Hj. apply (Hmin j). rewrite lookup_map, Hj. reflexivity. }
  subst resp. unfold recommend. fold i.
  destruct (decide (i = 0%nat)) as [Hi|Hi].
  - rewrite Hi in *. rewrite list_lookup_alter_eq, Hfirst. cbn [fmap option_fmap option_map default].
    rewrite OptimizedRoute_eqb_refl. cbn [negb].
    repeat split. exists ri. split; [reflexivity|]. split; [exact Hle|].
    left. repeat split.
  - rewrite list_lookup_alter_eq, Hri.
    rewrite list_lookup_alter_ne, Hfirst by exact Hi.
    cbn [fmap option_fmap option_map default].
    rewrite OptimizedRoute_eqb_type
      by (cbn; intros E; apply (Htypes 0%nat first Hfirst); rewrite E; reflexivity).
    cbn [negb].
    rewrite list_lookup_alter_eq, list_lookup_alter_eq, Hri.
    cbn [fmap option_fmap option_map default].
    repeat split. exists ri. split; [reflexivity|]. split; [exact Hle|].
    right. split; [exact Hi|]. split; [reflexivity|].
    intros j. cbn [routes]. rewrite lookup_map.
    destruct (decide (j = i)) as [->|Hj].
    + rewrite list_lookup_alter_eq, list_lookup_alter_eq, Hri.
      cbn [fmap option_fmap option_map].
      rewrite OptimizedRoute_eqb_refl. reflexivity.
    + rewrite list_lookup_alter_ne, list_lookup_alter_ne by congruence.
      destruct (routes0 !! j) as [r|] eqn:Hr; [|reflexivity].
      cbn [fmap option_fmap option_map].
      rewrite OptimizedRoute_eqb_type; [reflexivity|].
      cbn. exact (Htypes j r Hr).
Qed.

(** The objects [optimize_route] builds before it selects. *)
Lemma built_route_facts (w : World) (vehicle : Vehicle) (fuel_price : Q)
  (avoid : bool) (points : list RoutePoint) (i : nat) (o : OSRMRoute) :
  let r :=
    mkOptimizedRoute o
      (_calculate_route_costs w o vehicle fuel_price avoid)
      (if (i =? 0)%nat then "fastest"%string else alternative_label i)
      (route_geometry o) points None in
  route_type r ≠ "cheapest"%string
  ∧ savings_vs_fastest (cost_breakdown r) = None
  ∧ cost_of r = total_fuel_cost (fuel_cost (cost_breakdown r))
                + total_toll_cost (cost_breakdown r).
Proof.
  cbn. split; [|split; reflexivity].
  destruct (i =? 0)%nat; [discriminate|].
  unfold alternative_label. cbn. discriminate.
Qed.

(** C1, amended: for every non-empty list of alternatives, the recommended
    route is an alternative of minimum total cost (fuel cost plus toll cost)
    and carries the label "cheapest"; [total_savings] is the total cost of the
    first-listed route minus that of the recommended route, zero when the
    recommended route is the first-listed one; when the recommended route is
    not the first-listed one, every other route carries the total cost of the
    first-listed route minus its own as its savings against the fastest;
    when the recommended route is the first-listed one, no route carries
    such a difference. *)
Theorem optimize_route_recommendation (w : World)
  (request : RouteOptimizationRequest) (resp : RouteOptimizationResponse) :
  optimize_route w request = inr resp →
  ∃ fastest recommended,
    routes resp !! 0%nat = Some fastest
    ∧ recommended_route resp = Some recommended
    ∧ route_type recommended = "cheapest"%string
    ∧ (∀ r, r ∈ routes resp →
         cost_of r == total_fuel_cost (fuel_cost (cost_breakdown r))
                      + total_toll_cost (cost_breakdown r))
    ∧ (∀ r, r ∈ routes resp → cost_of recommended <= cost_of r)
    ∧ total_savings resp == cost_of fastest - cost_of recommended
    ∧ (recommended_index resp = 0%nat →
         total_savings resp == 0
         ∧ ∀ r, r ∈ routes resp → savings_vs_fastest (cost_breakdown r) = None)
    ∧ (recommended_index resp ≠ 0%nat →
         ∀ j r, j ≠ recommended_index resp → routes resp !! j = Some r →
           ∃ delta, savings_vs_fastest (cost_breakdown r) = Some delta
                    ∧ delta == cost_of fastest - cost_of r).
Proof.
  unfold optimize_route. intros H.
  destruct (query_vehicle w (vehicle_id request)) as [vehicle|]; [|discriminate H].
  destruct (match _get_current_fuel_price w (fuel_type vehicle) with
            | Some p =>
                if Qeqb p 0
                then (_get_default_fuel_price (fuel_type vehicle),
                      [NoCurrentFuelPrice (fuel_type vehicle)])
                else (p, [])
            | None => (_get_default_fuel_price (fuel_type vehicle),
                       [NoCurrentFuelPrice (fuel_type vehicle)])
            end) as [fuel_price ws].
  destruct (health_check w); [|discriminate H]. cbn [negb] in H.
  destruct (get_route_alternatives w (coordinate (origin request))
              (coordinate (destination request)) (max_alternatives request))
    as [|o os]; [discriminate H|].
  match type of H with
  | inr (recommend (imap ?b ?l) ?f _) = _ =>
      set (routes0 := imap b l) in H; set (first := f) in H
  end.
  assert (resp = recommend routes0 first ws) as -> by congruence. clear H.
  assert (Hbuilt : ∀ j r, routes0 !! j = Some r →
            route_type r ≠ "cheapest"%string
            ∧ savings_vs_fastest (cost_breakdown r) = None
            ∧ cost_of r = total_fuel_cost (fuel_cost (cost_breakdown r))
                          + total_toll_cost (cost_breakdown r)).
  { intros j r Hj. unfold routes0 in Hj. rewrite list_lookup_imap in Hj.
    destruct ((o :: os) !! j) as [oj|]; [|discriminate Hj].
    injection Hj as <-. apply built_route_facts. }
  assert (Hfirst : routes0 !! 0%nat = Some first) by reflexivity.
  destruct (recommend_routes routes0 first ws Hfirst
              (fun j r Hj => proj1 (Hbuilt j r Hj)))
    as (Hidx & _ & ri & Hri & Hle & Hcases).
  set (i := min_index (map cost_of routes0)) in *.
  set (resp := recommend routes0 first ws) in *.
  unfold recommended_route. rewrite Hidx.
  destruct Hcases as [(Hi & Hsav & Hroutes)|(Hi & Hsav & Hroutes)].
  - (* the first-listed route is the cheapest *)
    rewrite Hi in Hri. rewrite Hfirst in Hri. injection Hri as <-.
    assert (Hpt : ∀ j r, routes resp !! j = Some r →
              ∃ r0, routes0 !! j = Some r0 ∧ cost_breakdown r = cost_breakdown r0).
    { intros j r Hj. rewrite Hroutes, list_lookup_alter in Hj.
      destruct (decide (0%nat = j)) as [<-|_].
      - rewrite Hfirst in Hj. injection Hj as <-. exists first. auto.
      - exists r. auto. }
    exists (set_route_type "cheapest" first), (set_route_type "cheapest" first).
    rewrite Hi, Hroutes, list_lookup_alter_eq, Hfirst.
    split; [reflexivity|]. split; [reflexivity|]. split; [reflexivity|].
    rewrite <- Hroutes.
    split.
    { intros r Hr. apply list_elem_of_lookup in Hr as [j Hj].
      destruct (Hpt j r Hj) as (r0 & Hr0 & E).
      destruct (Hbuilt j r0 Hr0) as (_ & _ & Hc).
      unfold cost_of in *. rewrite E, Hc. reflexivity. }
    split.
    { intros r Hr. apply list_elem_of_lookup in Hr as [j Hj].
      destruct (Hpt j r Hj) as (r0 & Hr0 & E).
      specialize (Hle j r0 Hr0). unfold cost_of in *. rewrite E. exact Hle. }
    split.
    { rewrite Hsav. unfold cost_of. cbn. lra. }
    split.
    { intros _. split; [rewrite Hsav; reflexivity|].
      intros r Hr. apply list_elem_of_lookup in Hr as [j Hj].
      destruct (Hpt j r Hj) as (r0 & Hr0 & E).
      rewrite E. exact (proj1 (proj2 (Hbuilt j r0 Hr0))). }
    intros Hne. contradiction.
  - (* another route is the cheapest *)
    assert (Hpt : ∀ j r, routes resp !! j = Some r →
              ∃ r0, routes0 !! j = Some r0 ∧ cost_of r = cost_of r0
                    ∧ fuel_cost (cost_breakdown r) = fuel_cost (cost_breakdown r0)
                    ∧ total_toll_cost (cost_breakdown r)
                      = total_toll_cost (cost_breakdown r0)
                    ∧ (j ≠ i → savings_vs_fastest (cost_breakdown r)
                               = Some (cost_of first - cost_of r0))).
    { intros j r Hj. rewrite Hroutes in Hj.
      destruct (routes0 !! j) as [r0|] eqn:Hr0; [|discriminate Hj].
      cbn [fmap option_fmap option_map] in Hj. injection Hj as <-. exists r0.
      destruct (decide (j = i)); repeat split; try reflexivity;
        intros; (contradiction || reflexivity). }
    assert (Hf : routes resp !! 0%nat
                 = Some (set_savings_vs_fastest (cost_of first - cost_of first) first)).
    { rewrite Hroutes, Hfirst. cbn [fmap option_fmap option_map].
      destruct (decide (0%nat = i)); [congruence | reflexivity]. }
    assert (Hr : routes resp !! i
                 = Some (set_estimated_savings (cost_of first - cost_of ri)
                           (set_route_type "cheapest" ri))).
    { rewrite Hroutes, Hri. cbn [fmap option_fmap option_map].
      destruct (decide (i = i)); [reflexivity | congruence]. }
    eexists _, _. split; [exact Hf|]. split; [exact Hr|].
    split; [reflexivity|].
    split.
    { intros r Hin. apply list_elem_of_lookup in Hin as [j Hj].
      destruct (Hpt j r Hj) as (r0 & Hr0 & Ec & Ef & Et & _).
      destruct (Hbuilt j r0 Hr0) as (_ & _ & Hc).
      rewrite Ec, Ef, Et, Hc. reflexivity. }
    split.
    { intros r Hin. apply list_elem_of_lookup in Hin as [j Hj].
      destruct (Hpt j r Hj) as (r0 & Hr0 & Ec & _).
      rewrite Ec. exact (Hle j r0 Hr0). }
    split.
    { rewrite Hsav. reflexivity. }
    split; [intros E; contradiction|].
    intros _ j r Hj Hlook.
    destruct (Hpt j r Hlook) as (r0 & Hr0 & Ec & _ & _ & Hs).
    eexists. split; [exact (Hs Hj)|]. rewrite Ec. reflexivity.
Qed.

(** C1, as stated, on the documented scenario with route A listed first:
    route A is the cheapest and the fastest, and route B, which is not the
    recommended route, carries no savings against the fastest. *)
Lemma optimize_route_no_delta_when_fastest_is_cheapest :
  ∃ resp r,
    optimize_route (scenario_world [scenario_route_A; scenario_route_B])
      scenario_request = inr resp
    ∧ recommended_index resp = 0%nat
    ∧ routes resp !! 1%nat = Some r
    ∧ savings_vs_fastest (cost_breakdown r) = None
    ∧ ¬ (∃ delta, savings_vs_fastest (cost_breakdown r) = Some delta).
Proof.
  eexists _, _. split; [reflexivity|]. split; [reflexivity|].
  split; [vm_compute; reflexivity|]. split; [reflexivity|].
  intros [delta H]. discriminate H.
Qed.

(** The scenario with route B listed first: route A is recommended. *)
Lemma optimize_route_recommendation_witness :
  ∃ resp fastest recommended,
    optimize_route (scenario_world [scenario_route_B; scenario_route_A])
      scenario_request = inr resp
    ∧ routes resp !! 0%nat = Some fastest
    ∧ recommended_route resp = Some recommended
    ∧ route_type recommended = "cheapest"%string
    ∧ total_savings resp == cost_of fastest - cost_of recommended.
Proof.
  eexists.
  destruct (optimize_route_recommendation
              (scenario_world [scenario_route_B; scenario_route_A])
              scenario_request _ eq_refl)
    as (fastest & recommended & H0 & Hr & Ht & _ & _ & Hs & _).
  exists fastest, recommended. repeat split; assumption.
Defined.

(** The figures of the scenario: 2250 for A, 2525 for B; savings 0 with A
    listed first and 275 with B listed first. *)
Lemma scenario_figures :
  (∀ resp,
     optimize_route (scenario_world [scenario_route_A; scenario_route_B])
       scenario_request = inr resp →
     recommended_index resp = 0%nat ∧ total_savings resp == 0
     ∧ Forall2 Qeq (map cost_of (routes resp)) [2250; 2525])
  ∧ (∀ resp,
       optimize_route (scenario_world [scenario_route_B; scenario_route_A])
         scenario_request = inr resp →
       recommended_index resp = 1%nat ∧ total_savings resp == 275
       ∧ Forall2 Qeq (map cost_of (routes resp)) [2525; 2250]).
Proof.
  split; intros resp H; injection H as <-.
  - split; [reflexivity|]. split; [reflexivity|].
    repeat constructor; reflexivity.
  - split; [reflexivity|]. split; [reflexivity|].
    repeat constructor; reflexivity.
Qed.

End RouteOptimizationFacts.

(** ** Route comparison *)

Section RouteComparisonFacts.
Import RouteOptimization RouteComparison.

Local Open Scope Q_scope.

(** The empty list is refused before anything is scored. *)
Lemma analyze_routes_empty (criteria : OptimizationCriteria)
  (user_preferences : option Preferences) :
  analyze_routes [] criteria user_preferences
  = inl (ValueError "No routes provided for analysis").
Proof. reflexivity. Qed.

(** When the analysis returns, the summary counts the routes it was given. *)
Lemma analyze_routes_total (routes : list OptimizedRoute)
  (criteria : OptimizationCriteria) (user_preferences : option Preferences)
  (summary : OptimizationSummary) :
  analyze_routes routes criteria user_preferences = inr summary →
  total_routes_analyzed summary = Z.of_nat (length routes).
Proof.
  unfold analyze_routes, _select_recommended_route.
  destruct routes as [|first rest]; [discriminate|].
  match goal with
  | |- context [_analyze_savings ?f ?l ?r] => destruct (_analyze_savings f l r)
  end; [discriminate|].
  intros H. injection H as <-. cbn [total_routes_analyzed].
  rewrite length_alter. reflexivity.
Qed.

(** A single route is always analysed. *)
Lemma analyze_routes_single (r : OptimizedRoute)
  (criteria : OptimizationCriteria) (user_preferences : option Preferences) :
  ∃ summary, analyze_routes [r] criteria user_preferences = inr summary
             ∧ total_routes_analyzed summary = 1%Z.
Proof.
  unfold analyze_routes, _select_recommended_route.
  assert (min_index (map total_score
            (_score_routes r [r] criteria
               (default no_preferences user_preferences))) = 0%nat) as ->
    by reflexivity.
  cbn [alter list_alter lookup list_lookup default].
  unfold _analyze_savings. rewrite OptimizedRoute_eqb_refl.
  cbn [map max_index max_from lookup list_lookup default].
  assert (∀ x : Q, Qeqb ((x - x) / 60) 0 = true) as H60
    by (intros x; apply Qeq_bool_iff; field).
  assert (∀ x : Q, Qeqb ((x - x) / 1000) 0 = true) as H1000
    by (intros x; apply Qeq_bool_iff; field).
  rewrite H60, H1000. cbn [negb]. eexists. split; reflexivity.
Qed.

(** C9 on the three routes of the test suite, analysed as the test
    [test_analyze_routes_complete] does (total cost, cost prioritised): the
    second route is recommended, the baseline is the first, the time
    trade-off is the float 20.0, and dividing the decimal savings by it
    raises [TypeError]; no summary is returned.  The empty list raises the
    [ValueError] of the claim. *)
Theorem analyze_routes_type_error :
  analyze_routes mock_routes TOTAL_COST (Some (mkPreferences true false false))
  = inl (TypeError
           "unsupported operand type(s) for /: 'decimal.Decimal' and 'float'")
  ∧ length mock_routes = 3%nat
  ∧ (∀ criteria user_preferences,
       analyze_routes [] criteria user_preferences
       = inl (ValueError "No routes provided for analysis")).
Proof.
  split; [vm_compute; reflexivity|]. split; [reflexivity|].
  intros. reflexivity.
Qed.

(** The same failure on the routes [optimize_route] returns in the
    documented end-to-end scenario, as [api/routes.py] chains the two. *)
Lemma analyze_routes_type_error_after_optimize :
  ∀ resp,
    optimize_route (scenario_world [scenario_route_A; scenario_route_B])
      scenario_request = inr resp →
    analyze_routes (routes resp) TOTAL_COST None
    = inl (TypeError
             "unsupported operand type(s) for /: 'decimal.Decimal' and 'float'").
Proof. intros resp H. injection H as <-. vm_compute. reflexivity. Qed.

End RouteComparisonFacts.

(** ** Rate limiting *)

Section RateLimitFacts.
Import RateLimit.

Local Open Scope Q_scope.

Lemma rl_Qltb_true (x y : Q) : RateLimit.Qltb x y = true ↔ x < y.
Proof. exact (Qltb_true x y). Qed.


(** The purge removes a prefix of expired timestamps. *)
Lemma clean_split (q : list Q) (t : Q) :
  ∃ purged, q = purged ++ _clean_old_requests q t ∧ all_expired t purged.
Proof.
  induction q as [|x q (purged & Hq & Hp)].
  - exists []. split; [reflexivity | constructor].
  - cbn [_clean_old_requests].
    destruct (RateLimit.Qltb window_size (t - x)) eqn:E.
    + exists (x :: purged). split; [simpl; f_equal; exact Hq|].
      constructor; [apply rl_Qltb_true, E | exact Hp].
    + exists []. split; [reflexivity | constructor].
Qed.

(** A later purge subsumes an earlier one. *)
Lemma clean_clean (q : list Q) (t1 t2 : Q) :
  t1 <= t2 →
  _clean_old_requests (_clean_old_requests q t1) t2 = _clean_old_requests q t2.
Proof.
  intros Ht. induction q as [|x q IH]; [reflexivity|].
  cbn [_clean_old_requests].
  destruct (RateLimit.Qltb window_size (t1 - x)) eqn:E1.
  - apply rl_Qltb_true in E1.
    assert (RateLimit.Qltb window_size (t2 - x) = true) as ->
      by (apply rl_Qltb_true; lra).
    exact IH.
  - reflexivity.
Qed.













Lemma excluded_dispatch (self : RateLimitMiddleware) (request : Request) (t : Q) :
  excluded request = true → dispatch self request t = (NotLimited, self).
Proof. intros H. unfold dispatch. rewrite H. reflexivity. Qed.

(** The answer of [dispatch] on a path that is not exempt, by cases on the
    two checks. *)
Lemma dispatch_cases (self : RateLimitMiddleware) (request : Request) (t : Q) :
  excluded request = false →
  let limit := requests_per_minute self in
  let ip := client_host request in
  let ipq := _clean_old_requests (queue_of (ip_requests self) ip) t in
  ((limit <= Z.of_nat (length ipq))%Z
   ∧ dispatch self request t
     = (ip_rejection,
        mkRateLimitMiddleware limit (<[ip := ipq]> (ip_requests self))
          (user_requests self)))
  ∨ ((Z.of_nat (length ipq) < limit)%Z
     ∧ ip_requests (snd (dispatch self request t))
       = <[ip := ipq ++ [t]]> (ip_requests self)
     ∧ fst (dispatch self request t) ≠ ip_rejection
     ∧ (user_id request = None →
        dispatch self request t
        = (Limited limit (Z.max 0 (limit - Z.of_nat (length (ipq ++ [t]))))
             (int_of_float (t + window_size)),
           mkRateLimitMiddleware limit (<[ip := ipq ++ [t]]> (ip_requests self))
             (user_requests self)))
     ∧ (∀ uid, user_id request = Some uid → uid ≠ ""%string →
        let uq := _clean_old_requests (queue_of (user_requests self) uid) t in
        ((limit <= Z.of_nat (length uq))%Z
         ∧ fst (dispatch self request t) = user_rejection
         ∧ user_requests (snd (dispatch self request t))
           = <[uid := uq]> (user_requests self))
        ∨ ((Z.of_nat (length uq) < limit)%Z
           ∧ (∃ remaining reset,
                fst (dispatch self request t) = Limited limit remaining reset)
           ∧ user_requests (snd (dispatch self request t))
             = <[uid := uq ++ [t]]> (user_requests self)))).
Proof.
  intros Hex limit ip ipq.
  assert (Hcheck : ∀ q,
            _is_rate_limited limit q t
            = if (limit <=? Z.of_nat (length (_clean_old_requests q t)))%Z
              then (true, _clean_old_requests q t)
              else (false, _clean_old_requests q t ++ [t])) by reflexivity.
  unfold dispatch. rewrite Hex. fold limit ip. rewrite !Hcheck. fold ipq.
  destruct (Z.leb_spec limit (Z.of_nat (length ipq))) as [Hfull|Hroom].
  - left. split; [exact Hfull | reflexivity].
  - right. split; [exact Hroom|].
    destruct (user_id request) as [uid|] eqn:Eu.
    + destruct (String.eqb uid "") eqn:Ee.
      * apply String.eqb_eq in Ee. subst uid.
        repeat split; try discriminate. intros uid E Hne. congruence.
      * rewrite Hcheck.
        set (uq := _clean_old_requests (queue_of (user_requests self) uid) t).
        destruct (Z.leb_spec limit (Z.of_nat (length uq))) as [Hu|Hu];
          (split; [reflexivity|]); (split; [discriminate|]);
          (split; [discriminate|]);
          intros uid' E Hne; injection E as <-; fold uq.
        -- left. repeat split. exact Hu.
        -- right. split; [exact Hu|]. split; [eauto | reflexivity].
    + repeat split; try discriminate.
Qed.

(** A rejected request leaves the queue as a purge at its time would, and
    a later request cannot tell that purge from no purge. *)
Lemma rejected_is_unobservable (limit : Z) (q q' : list Q) (t : Q) :
  _is_rate_limited limit q t = (true, q') →
  q' = _clean_old_requests q t
  ∧ ∀ t2, t <= t2 → _is_rate_limited limit q' t2 = _is_rate_limited limit q t2.
Proof.
  unfold _is_rate_limited.
  destruct (limit <=? Z.of_nat (length (_clean_old_requests q t)))%Z;
    intros H; [|discriminate H].
  injection H as <-. split; [reflexivity|].
  intros t2 Ht. rewrite (clean_clean q t t2 Ht). reflexivity.
Qed.

(** The requests that follow a rejected one are decided as if it had not
    been made. *)
Lemma rejected_run (limit : Z) (q q' : list Q) (t : Q) (times : list Q) :
  _is_rate_limited limit q t = (true, q') → nondecreasing_from t times →
  fst (limiter_run limit q' times) = fst (limiter_run limit q times)
  ∧ admitted limit q' times = admitted limit q times.
Proof.
  intros H Hmono. destruct times as [|t2 times]; [split; reflexivity|].
  destruct Hmono as [Ht _].
  destruct (rejected_is_unobservable limit q q' t H) as [_ Hsame].
  cbn [limiter_run admitted]. rewrite (Hsame t2 Ht). split; reflexivity.
Qed.



(** C10, as stated: with a limit of one, the request of user "u" from
    10.0.0.2 is rejected with status 429 by the user check, and its
    timestamp has been appended to the queue of 10.0.0.2, which was empty and
    which a purge leaves empty; the next request from 10.0.0.2 is rejected
    for it, and would have passed had the rejected request not been made. *)
Lemma user_rejection_consumes_ip_quota :
  fst (dispatch state_1 request_2 1) = user_rejection
  ∧ user_rejection
    = JSONResponse 429
        "Too many requests for this user. Please try again later." 60 "60"
  ∧ _clean_old_requests (queue_of (ip_requests state_1) "10.0.0.2") 1 = []
  ∧ queue_of (ip_requests state_2) "10.0.0.2" = [1]
  ∧ fst (dispatch state_2 request_3 2) = ip_rejection
  ∧ fst (dispatch state_1 request_3 2) = Limited 1 0 62.
Proof. repeat split; vm_compute; reflexivity. Qed.

(** C10, amended: when [_is_rate_limited] answers that an identifier is
    rate limited, the timestamp is not appended to that identifier's queue,
    whose only change is the purge of the entries older than the window, so
    that the later requests of the identifier are decided as if the rejected
    one had not been made; a request rejected by the IP check changes nothing
    but that purge of the IP queue; a request rejected by the user check
    changes the user's queue by the purge only, after its timestamp was
    recorded in the IP queue. *)
Theorem rejection_only_purges (self : RateLimitMiddleware) (request : Request)
  (current_time : Q) :
  let limit := requests_per_minute self in
  let ip := client_host request in
  let ip_queue := queue_of (ip_requests self) ip in
  (∀ q q', _is_rate_limited limit q current_time = (true, q') →
     q' = _clean_old_requests q current_time
     ∧ (∀ t2, current_time <= t2 →
          _is_rate_limited limit q' t2 = _is_rate_limited limit q t2)
     ∧ (∀ times, nondecreasing_from current_time times →
          fst (limiter_run limit q' times) = fst (limiter_run limit q times)
          ∧ admitted limit q' times = admitted limit q times))
  ∧ (fst (dispatch self request current_time) = ip_rejection →
     snd (dispatch self request current_time)
     = mkRateLimitMiddleware limit
         (<[ip := _clean_old_requests ip_queue current_time]> (ip_requests self))
         (user_requests self))
  ∧ (∀ uid, user_id request = Some uid →
       fst (dispatch self request current_time) = user_rejection →
       user_requests (snd (dispatch self request current_time))
       = <[uid := _clean_old_requests (queue_of (user_requests self) uid)
                    current_time]> (user_requests self)
       ∧ ip_requests (snd (dispatch self request current_time))
         = <[ip := _clean_old_requests ip_queue current_time ++ [current_time]]>
             (ip_requests self)).
Proof.
  cbv zeta. split.
  { intros q q' H.
    destruct (rejected_is_unobservable _ q q' current_time H) as [E Hsame].
    split; [exact E|]. split; [exact Hsame|].
    intros times Hmono. exact (rejected_run _ q q' current_time times H Hmono). }
  destruct (excluded request) eqn:Hex.
  { rewrite (excluded_dispatch self request current_time Hex).
    split; [discriminate|]. intros uid _ H. discriminate H. }
  pose proof (dispatch_cases self request current_time Hex) as Hc.
  cbv zeta in Hc.
  destruct Hc as [[Hfull E]|(Hroom & Hips & Hne & Hnone & Hsome)].
  - rewrite E. split; [reflexivity|]. intros uid _ H. discriminate H.
  - split; [intros E; contradiction|].
    intros uid Hu Hrej. split; [|exact Hips].
    destruct (String.eqb_spec uid "") as [->|Hne'].
    + exfalso. revert Hrej. unfold dispatch. rewrite Hex, Hu.
      cbn [String.eqb]. destruct (_is_rate_limited _ _ _) as [[] ?]; discriminate.
    + destruct (Hsome uid Hu Hne') as [(_ & _ & E)|(_ & (rem & rs & E) & _)].
      * exact E.
      * rewrite E in Hrej. discriminate Hrej.
Qed.

(** The user rejection and the IP rejection of the scenario. *)
Lemma rejection_only_purges_witness :
  (user_requests (snd (dispatch state_1 request_2 1))
   = <["u"%string := _clean_old_requests
                       (queue_of (user_requests state_1) "u") 1]>
       (user_requests state_1)
   ∧ ip_requests (snd (dispatch state_1 request_2 1))
     = <["10.0.0.2"%string :=
           _clean_old_requests (queue_of (ip_requests state_1) "10.0.0.2") 1
           ++ [1]]> (ip_requests state_1))
  ∧ snd (dispatch state_2 request_3 2)
    = mkRateLimitMiddleware 1
        (<["10.0.0.2"%string :=
             _clean_old_requests (queue_of (ip_requests state_2) "10.0.0.2") 2]>
           (ip_requests state_2))
        (user_requests state_2)
  ∧ _is_rate_limited 1 [0] 2 = _is_rate_limited 1 [-100; 0] 2
  ∧ admitted 1 [0] [2; 61] = admitted 1 [-100; 0] [2; 61].
Proof.
  pose proof (rejection_only_purges state_1 request_2 1) as H1.
  pose proof (rejection_only_purges state_2 request_3 2) as H2.
  cbv zeta in H1, H2.
  destruct H1 as (Hq & _ & Huser). destruct H2 as (_ & Hip & _).
  split; [apply (Huser "u"%string); reflexivity|].
  split; [apply Hip; reflexivity|].
  assert (Hrej : _is_rate_limited (requests_per_minute state_1) [-100; 0] 1
                 = (true, [0])) by reflexivity.
  destruct (Hq [-100; 0] [0] Hrej) as (_ & Hsame & Hrun).
  split.
  - apply (Hsame 2). unfold Qle. simpl. lia.
  - apply (Hrun [2; 61]). cbn [nondecreasing_from].
    repeat split; unfold Qle; simpl; lia.
Defined.

End RateLimitFacts.

(** ** Rate limiting: the queues and the headers *)

Section RateLimitMore.
Import RateLimit.

Local Open Scope Q_scope.

Lemma clean_length (q : list Q) (t : Q) :
  (length (_clean_old_requests q t) <= length q)%nat.
Proof.
  destruct (clean_split q t) as (purged & Hq & _).
  rewrite Hq at 2. rewrite length_app. lia.
Qed.

(** X1: the queue of an identifier never grows past the limit: from a queue
    of at most [limit] timestamps, whatever the clock readings of the
    requests, the queue holds at most [limit] timestamps afterwards. *)
Theorem queue_bounded_by_limit (limit : Z) (times q : list Q) :
  (Z.of_nat (length q) <= limit)%Z →
  (Z.of_nat (length (snd (limiter_run limit q times))) <= limit)%Z.
Proof.
  revert q. induction times as [|t times IH]; intros q Hq; [exact Hq|].
  cbn [limiter_run]. unfold _is_rate_limited.
  pose proof (clean_length q t) as Hc.
  destruct (Z.leb_spec limit (Z.of_nat (length (_clean_old_requests q t))))
    as [Hfull|Hroom].
  - specialize (IH (_clean_old_requests q t)).
    destruct (limiter_run limit (_clean_old_requests q t) times) as [ds q'].
    apply IH. lia.
  - specialize (IH (_clean_old_requests q t ++ [t])).
    destruct (limiter_run limit (_clean_old_requests q t ++ [t]) times) as [ds q'].
    apply IH. rewrite length_app. simpl. lia.
Qed.

Lemma queue_bounded_by_limit_witness :
  (Z.of_nat (length (snd (limiter_run 2 [] [0%Q; 1%Q; 2%Q; 70%Q]))) <= 2)%Z.
Proof. apply (queue_bounded_by_limit 2 [0; 1; 2; 70] []). simpl. lia. Defined.

(** X2: a request only touches the queues of its own address and of its
    own user: the queue of every other address and of every other user is as
    before, and the limit is never changed. *)
Theorem dispatch_isolation (self : RateLimitMiddleware) (request : Request)
  (current_time : Q) (other : string) :
  requests_per_minute (snd (dispatch self request current_time))
  = requests_per_minute self
  ∧ (other ≠ client_host request →
     queue_of (ip_requests (snd (dispatch self request current_time))) other
     = queue_of (ip_requests self) other)
  ∧ (user_id request ≠ Some other →
     queue_of (user_requests (snd (dispatch self request current_time))) other
     = queue_of (user_requests self) other).
Proof.
  unfold dispatch. destruct (excluded request); [repeat split|].
  destruct (_is_rate_limited (requests_per_minute self)
              (queue_of (ip_requests self) (client_host request)) current_time)
    as [[] ipq].
  - cbn. split; [reflexivity|]. split; [|reflexivity].
    intros Hne. unfold queue_of. rewrite lookup_insert_ne by congruence.
    reflexivity.
  - assert (Hip : other ≠ client_host request →
              queue_of (<[client_host request := ipq]> (ip_requests self)) other
              = queue_of (ip_requests self) other).
    { intros Hne. unfold queue_of. rewrite lookup_insert_ne by congruence.
      reflexivity. }
    destruct (user_id request) as [uid|] eqn:Eu.
    + destruct (String.eqb uid "").
      * cbn. repeat split; auto.
      * destruct (_is_rate_limited (requests_per_minute self)
                    (queue_of (user_requests self) uid) current_time)
          as [[] uq]; cbn; (split; [reflexivity|]); (split; [exact Hip|]);
          intros Hne; unfold queue_of; rewrite lookup_insert_ne by congruence;
          reflexivity.
    + cbn. repeat split; auto.
Qed.

Lemma dispatch_isolation_witness :
  queue_of (ip_requests (snd (dispatch state_1 request_2 1))) "10.0.0.1"
  = queue_of (ip_requests state_1) "10.0.0.1"
  ∧ queue_of (user_requests (snd (dispatch state_1 request_2 1))) "v"
    = queue_of (user_requests state_1) "v".
Proof.
  destruct (dispatch_isolation state_1 request_2 1 "10.0.0.1") as (_ & Hip & _).
  destruct (dispatch_isolation state_1 request_2 1 "v") as (_ & _ & Hu).
  split; [apply Hip; discriminate | apply Hu; discriminate].
Defined.

Lemma prefix_app (p s : string) : String.prefix p (p ++ s)%string = true.
Proof.
  induction p as [|c p IH].
  - change (String.prefix "" s = true). destruct s; reflexivity.
  - change (String.prefix (String c p) (String c (p ++ s)) = true).
    cbn [String.prefix].
    destruct (Ascii.ascii_dec c c); [exact IH | congruence].
Qed.

(** X3: exemption is by prefix: a request whose path starts with /health,
    /docs, /redoc or /openapi.json, whatever follows, is passed on without a
    check, and the middleware's state is left as it was, however full the
    queues are. *)
Theorem exempt_paths_untouched (self : RateLimitMiddleware) (p rest : string)
  (host : string) (uid : option string) (current_time : Q) :
  In p excluded_paths →
  dispatch self (mkRequest (p ++ rest) host uid) current_time
  = (NotLimited, self).
Proof.
  intros Hin. apply excluded_dispatch. unfold excluded.
  apply existsb_exists. exists p. split; [exact Hin|]. apply prefix_app.
Qed.

Lemma exempt_paths_untouched_witness :
  dispatch state_2 (mkRequest "/healthcheck/db" "10.0.0.2" None) 2
  = (NotLimited, state_2).
Proof.
  apply (exempt_paths_untouched state_2 "/health" "check/db" "10.0.0.2" None 2).
  left. reflexivity.
Defined.

(** X4: on a response that went through, X-RateLimit-Limit is the limit and
    X-RateLimit-Remaining is the limit minus the length of the address's
    queue, this request included: it is at least 0 and below the limit. *)
Theorem remaining_header (self : RateLimitMiddleware) (request : Request)
  (current_time : Q) (limit remaining reset : Z) :
  fst (dispatch self request current_time) = Limited limit remaining reset →
  limit = requests_per_minute self
  ∧ remaining
    = (limit - Z.of_nat (length (queue_of
         (ip_requests (snd (dispatch self request current_time)))
         (client_host request))))%Z
  ∧ (0 <= remaining < limit)%Z
  ∧ reset = int_of_float (current_time + 60).
Proof.
  destruct (excluded request) eqn:Hex.
  { rewrite (excluded_dispatch self request current_time Hex). discriminate. }
  pose proof (dispatch_cases self request current_time Hex) as Hc.
  cbv zeta in Hc.
  destruct Hc as [[_ E]|(Hroom & Hips & _ & _ & _)];
    [rewrite E; discriminate|].
  rewrite Hips. unfold queue_of at 1. rewrite lookup_insert_eq. cbn [default].
  revert Hroom.
  set (ipq := _clean_old_requests
                (queue_of (ip_requests self) (client_host request)) current_time).
  intros Hroom.
  assert (Hcheck : _is_rate_limited (requests_per_minute self)
                     (queue_of (ip_requests self) (client_host request))
                     current_time = (false, ipq ++ [current_time])).
  { unfold _is_rate_limited. fold ipq.
    destruct (Z.leb_spec (requests_per_minute self) (Z.of_nat (length ipq)));
      [lia | reflexivity]. }
  unfold dispatch. rewrite Hex, Hcheck.
  assert (Hlen : Z.of_nat (length (ipq ++ [current_time]))
                 = (Z.of_nat (length ipq) + 1)%Z)
    by (rewrite length_app; simpl; lia).
  destruct (user_id request) as [u|].
  - destruct (String.eqb u "").
    + cbn. intros H. injection H as <- <- <-. rewrite Hlen.
      repeat split; lia.
    + destruct (_is_rate_limited _ (queue_of (user_requests self) u) _)
        as [[] uq]; cbn; intros H; [discriminate H|].
      injection H as <- <- <-. rewrite Hlen. repeat split; lia.
  - cbn. intros H. injection H as <- <- <-. rewrite Hlen.
    repeat split; lia.
Qed.

Lemma remaining_header_witness :
  (0 <= 0 < 1)%Z
  ∧ 0%Z = (1 - Z.of_nat (length (queue_of
              (ip_requests (snd (dispatch state_1 request_3 2))) "10.0.0.2")))%Z.
Proof.
  destruct (remaining_header state_1 request_3 2 1 0 62) as (_ & Hrem & Hb & _).
  - reflexivity.
  - split; [exact Hb | exact Hrem].
Defined.



End RateLimitMore.

(** ** Route optimization: outcome, labels and savings *)

Section RouteOptimizationMore.
Import PyStr Fleet RouteOptimization OptimizeSteps.

Local Open Scope Q_scope.

(** [optimize_route] in terms of its steps. *)
Lemma optimize_route_steps (w : World) (request : RouteOptimizationRequest) :
  optimize_route w request =
  match query_vehicle w (vehicle_id request) with
  | None => inl (VehicleNotFound (vehicle_id request))
  | Some vehicle =>
      if negb (health_check w) then inl OSRMNotAvailable
      else
        match alternatives_of w request with
        | [] => inl NoRoutesFound
        | o :: os =>
            inr (recommend
                   (imap (build_route w request vehicle
                            (fst (price_and_warnings w vehicle))) (o :: os))
                   (build_route w request vehicle
                      (fst (price_and_warnings w vehicle)) 0 o)
                   (snd (price_and_warnings w vehicle)))
        end
  end.
Proof.
  unfold optimize_route, price_and_warnings, alternatives_of.
  destruct (query_vehicle w (vehicle_id request)) as [vehicle|]; [|reflexivity].
  destruct (_get_current_fuel_price w (fuel_type vehicle)) as [p|];
    [destruct (Qeqb p 0)|];
    (destruct (health_check w); [|reflexivity]);
    (destruct (get_route_alternatives w (coordinate (origin request))
                 (coordinate (destination request)) (max_alternatives request));
     reflexivity).
Qed.

Lemma map_alter_keeps {A B} (g : A → B) (f : A → A) (i : nat) (l : list A) :
  (∀ x, g (f x) = g x) → map g (alter f i l) = map g l.
Proof.
  intros H. revert i. induction l as [|x l IH]; intros [|i];
    [reflexivity | reflexivity | |].
  - cbn. rewrite H. reflexivity.
  - change (g x :: map g (alter f i l) = g x :: map g l). f_equal. apply IH.
Qed.

(** Whatever [recommend] assigns, a field it never writes is as before. *)
Lemma recommend_keeps {B} (g : OptimizedRoute → B) (l : list OptimizedRoute)
  (first : OptimizedRoute) (ws : list Warning) :
  (∀ t r, g (set_route_type t r) = g r) →
  (∀ s r, g (set_estimated_savings s r) = g r) →
  (∀ s r, g (set_savings_vs_fastest s r) = g r) →
  map g (routes (recommend l first ws)) = map g l.
Proof.
  intros Ht He Hs. unfold recommend.
  match goal with |- context [negb ?b] => destruct b end; cbn [negb routes].
  - apply map_alter_keeps. intros x. apply Ht.
  - rewrite map_map.
    match goal with
    | |- map ?h ?l' = _ => transitivity (map g l')
    end.
    + apply map_ext. intros r.
      match goal with |- context [negb ?b] => destruct b end; cbn [negb];
        [reflexivity | apply Hs].
    + rewrite map_alter_keeps by (intros; apply He).
      apply map_alter_keeps. intros; apply Ht.
Qed.

Lemma map_imap_build (w : World) (request : RouteOptimizationRequest)
  (vehicle : Vehicle) (fuel_price : Q) (alts : list OSRMRoute) :
  map osrm_route (imap (build_route w request vehicle fuel_price) alts) = alts.
Proof.
  apply list_eq. intros j. rewrite lookup_map, list_lookup_imap.
  destruct (alts !! j); reflexivity.
Qed.

(** A response comes from [recommend] on the routes built from the
    alternatives. *)
Lemma optimize_route_resp (w : World) (request : RouteOptimizationRequest)
  (resp : RouteOptimizationResponse) :
  optimize_route w request = inr resp →
  ∃ vehicle o os,
    query_vehicle w (vehicle_id request) = Some vehicle
    ∧ health_check w = true
    ∧ alternatives_of w request = o :: os
    ∧ resp = recommend
               (imap (build_route w request vehicle
                        (fst (price_and_warnings w vehicle))) (o :: os))
               (build_route w request vehicle
                  (fst (price_and_warnings w vehicle)) 0 o)
               (snd (price_and_warnings w vehicle)).
Proof.
  rewrite optimize_route_steps.
  destruct (query_vehicle w (vehicle_id request)) as [vehicle|]; [|discriminate].
  destruct (health_check w); [|discriminate]. cbn [negb].
  destruct (alternatives_of w request) as [|o os]; [discriminate|].
  intros H. exists vehicle, o, os. repeat split. congruence.
Qed.

(** X6: [optimize_route] answers in this order: no such vehicle, routing
    engine unavailable, no route found; otherwise it returns a response whose
    routes are the engine's alternatives, one route each and in the same
    order. *)
Theorem optimize_route_outcome (w : World) (request : RouteOptimizationRequest) :
  match optimize_route w request with
  | inl (VehicleNotFound id) =>
      query_vehicle w (vehicle_id request) = None ∧ id = vehicle_id request
  | inl OSRMNotAvailable =>
      query_vehicle w (vehicle_id request) ≠ None ∧ health_check w = false
  | inl NoRoutesFound =>
      query_vehicle w (vehicle_id request) ≠ None ∧ health_check w = true
      ∧ alternatives_of w request = []
  | inr resp =>
      query_vehicle w (vehicle_id request) ≠ None ∧ health_check w = true
      ∧ alternatives_of w request ≠ []
      ∧ map osrm_route (routes resp) = alternatives_of w request
      ∧ map geometry (routes resp) = map route_geometry (alternatives_of w request)
      ∧ (recommended_index resp < length (routes resp))%nat
  end.
Proof.
  rewrite optimize_route_steps.
  destruct (query_vehicle w (vehicle_id request)) as [vehicle|]; [|split; reflexivity].
  destruct (health_check w); cbn [negb]; [|split; [discriminate | reflexivity]].
  destruct (alternatives_of w request) as [|o os];
    [split; [discriminate|split; reflexivity]|].
  set (routes0 := imap _ (o :: os)).
  split; [discriminate|]. split; [reflexivity|]. split; [discriminate|].
  assert (Hosrm : map osrm_route routes0 = o :: os) by apply map_imap_build.
  split; [|split].
  - rewrite recommend_keeps by reflexivity. exact Hosrm.
  - rewrite recommend_keeps by reflexivity.
    apply list_eq. intros j. unfold routes0.
    rewrite !lookup_map, list_lookup_imap. destruct ((o :: os) !! j); reflexivity.
  - assert (Hfirst : routes0 !! 0%nat
              = Some (build_route w request vehicle
                        (fst (price_and_warnings w vehicle)) 0 o)) by reflexivity.
    destruct (recommend_routes routes0 _ (snd (price_and_warnings w vehicle)) Hfirst)
      as (Hidx & _ & ri & Hri & _).
    { intros j r Hj. unfold routes0 in Hj. rewrite list_lookup_imap in Hj.
      destruct ((o :: os) !! j); [|discriminate Hj]. injection Hj as <-.
      apply built_route_facts. }
    rewrite Hidx. apply lookup_lt_Some in Hri.
    assert (length (routes (recommend routes0
              (build_route w request vehicle (fst (price_and_warnings w vehicle)) 0 o)
              (snd (price_and_warnings w vehicle)))) = length routes0) as ->.
    { rewrite <- (length_map osrm_route), recommend_keeps by reflexivity.
      apply length_map. }
    exact Hri.
Qed.

(** The response, route by route, against the routes as they were built. *)
Lemma optimize_route_pointwise (w : World) (request : RouteOptimizationRequest)
  (resp : RouteOptimizationResponse) :
  optimize_route w request = inr resp →
  ∃ vehicle first ri,
    let price := fst (price_and_warnings w vehicle) in
    let routes0 := imap (build_route w request vehicle price)
                     (alternatives_of w request) in
    let i := recommended_index resp in
    query_vehicle w (vehicle_id request) = Some vehicle
    ∧ warnings resp = snd (price_and_warnings w vehicle)
    ∧ routes0 !! 0%nat = Some first
    ∧ routes0 !! i = Some ri
    ∧ (∀ j r, routes0 !! j = Some r → cost_of ri <= cost_of r)
    ∧ ((i = 0%nat ∧ total_savings resp = 0
        ∧ routes resp = alter (set_route_type "cheapest") 0%nat routes0)
       ∨ (i ≠ 0%nat ∧ total_savings resp = cost_of first - cost_of ri
          ∧ ∀ j, routes resp !! j =
                 (fun r => if decide (j = i)
                           then set_estimated_savings
                                  (cost_of first - cost_of ri)
                                  (set_route_type "cheapest" r)
                           else set_savings_vs_fastest
                                  (cost_of first - cost_of r) r)
                 <$> routes0 !! j)).
Proof.
  intros H.
  destruct (optimize_route_resp w request resp H)
    as (vehicle & o & os & Hv & _ & Halts & ->).
  exists vehicle. cbv zeta. rewrite Halts.
  set (routes0 := imap _ (o :: os)).
  set (first := build_route w request vehicle _ 0 o).
  assert (Hfirst : routes0 !! 0%nat = Some first) by reflexivity.
  destruct (recommend_routes routes0 first (snd (price_and_warnings w vehicle)) Hfirst)
    as (Hidx & Hws & ri & Hri & Hle & Hcases).
  { intros j r Hj. unfold routes0 in Hj. rewrite list_lookup_imap in Hj.
    destruct ((o :: os) !! j); [|discriminate Hj]. injection Hj as <-.
    apply built_route_facts. }
  exists first, ri. rewrite Hidx.
  split; [exact Hv|]. split; [exact Hws|]. split; [exact Hfirst|].
  split; [exact Hri|]. split; [exact Hle|]. exact Hcases.
Qed.

(** X7: [total_savings] is never negative; the recommended route carries it
    as [estimated_savings] exactly when it is not the first-listed route, and
    no other route carries an [estimated_savings]. *)
Theorem savings_nonnegative (w : World) (request : RouteOptimizationRequest)
  (resp : RouteOptimizationResponse) :
  optimize_route w request = inr resp →
  0 <= total_savings resp
  ∧ ∀ j r, routes resp !! j = Some r →
      estimated_savings r
      = if decide (j = recommended_index resp ∧ j ≠ 0%nat)
        then Some (total_savings resp) else None.
Proof.
  intros H.
  destruct (optimize_route_pointwise w request resp H)
    as (vehicle & first & ri & _ & _ & Hfirst & Hri & Hle & Hcases).
  cbv zeta in *.
  set (routes0 := imap _ (alternatives_of w request)) in *.
  assert (Hnone : ∀ j r, routes0 !! j = Some r → estimated_savings r = None).
  { intros j r Hj. unfold routes0 in Hj. rewrite list_lookup_imap in Hj.
    destruct (alternatives_of w request !! j); [|discriminate Hj].
    injection Hj as <-. reflexivity. }
  destruct Hcases as [(Hi & Hsav & Hroutes)|(Hi & Hsav & Hroutes)].
  - split; [rewrite Hsav; lra|].
    intros j r Hj. rewrite Hroutes, list_lookup_alter in Hj.
    destruct (decide (j = recommended_index resp ∧ j ≠ 0%nat)) as [[-> Hne]|_];
      [congruence|].
    destruct (decide (0%nat = j)) as [<-|_].
    + rewrite Hfirst in Hj. injection Hj as <-. exact (Hnone _ _ Hfirst).
    + exact (Hnone _ _ Hj).
  - split; [rewrite Hsav; specialize (Hle 0%nat first Hfirst); lra|].
    intros j r Hj. rewrite Hroutes in Hj.
    destruct (routes0 !! j) as [r0|] eqn:Hr0; [|discriminate Hj].
    cbn [fmap option_fmap option_map] in Hj. injection Hj as <-.
    destruct (decide (j = recommended_index resp)) as [->|Hne].
    + rewrite decide_True by (split; [reflexivity | exact Hi]).
      cbn. rewrite Hsav. reflexivity.
    + rewrite decide_False by (intros [E _]; contradiction).
      cbn. exact (Hnone _ _ Hr0).
Qed.

Lemma savings_nonnegative_witness :
  ∃ resp,
    optimize_route (scenario_world [scenario_route_B; scenario_route_A])
      scenario_request = inr resp
    ∧ 0 <= total_savings resp.
Proof.
  eexists. split; [reflexivity|].
  apply (savings_nonnegative
           (scenario_world [scenario_route_B; scenario_route_A])
           scenario_request _ eq_refl).
Defined.




Lemma alternative_label_not_fastest (j : nat) :
  alternative_label j ≠ "fastest"%string.
Proof. unfold alternative_label. cbn. discriminate. Qed.

(** X9: the labels of a response: the recommended route is "cheapest"; of
    the others the first-listed is "fastest" and the route at position [j]
    is "alternative_j".  So when the first-listed route is recommended, no
    route of the response is labelled "fastest". *)
Theorem route_labels (w : World) (request : RouteOptimizationRequest)
  (resp : RouteOptimizationResponse) :
  optimize_route w request = inr resp →
  (∀ j r, routes resp !! j = Some r →
     route_type r
     = if decide (j = recommended_index resp) then "cheapest"%string
       else if decide (j = 0%nat) then "fastest"%string
       else alternative_label j)
  ∧ (recommended_index resp = 0%nat →
     ∀ r, r ∈ routes resp → route_type r ≠ "fastest"%string).
Proof.
  intros H.
  assert (Hlab : ∀ j r, routes resp !! j = Some r →
     route_type r
     = if decide (j = recommended_index resp) then "cheapest"%string
       else if decide (j = 0%nat) then "fastest"%string
       else alternative_label j).
  { destruct (optimize_route_pointwise w request resp H)
      as (vehicle & first & ri & _ & _ & Hfirst & Hri & _ & Hcases).
    cbv zeta in *.
    set (routes0 := imap _ (alternatives_of w request)) in *.
    assert (H0 : ∀ j r, routes0 !! j = Some r →
              route_type r = if decide (j = 0%nat) then "fastest"%string
                             else alternative_label j).
    { intros j r Hj. unfold routes0 in Hj. rewrite list_lookup_imap in Hj.
      destruct (alternatives_of w request !! j); [|discriminate Hj].
      injection Hj as <-. cbn. destruct j; reflexivity. }
    intros j r Hj.
    destruct Hcases as [(Hi & _ & Hroutes)|(Hi & _ & Hroutes)].
    - rewrite Hroutes, list_lookup_alter in Hj. rewrite Hi.
      destruct (decide (0%nat = j)) as [<-|Hne].
      + rewrite Hfirst in Hj. injection Hj as <-. reflexivity.
      + rewrite decide_False by congruence. exact (H0 j r Hj).
    - rewrite Hroutes in Hj.
      destruct (routes0 !! j) as [r0|] eqn:Hr0; [|discriminate Hj].
      cbn [fmap option_fmap option_map] in Hj. injection Hj as <-.
      destruct (decide (j = recommended_index resp)); [reflexivity|].
      exact (H0 j r0 Hr0). }
  split; [exact Hlab|].
  intros Hi r Hr. apply list_elem_of_lookup in Hr as [j Hj].
  rewrite (Hlab j r Hj), Hi.
  destruct (decide (j = 0%nat)); [discriminate|].
  apply alternative_label_not_fastest.
Qed.

Lemma route_labels_witness :
  ∃ resp,
    optimize_route (scenario_world [scenario_route_A; scenario_route_B])
      scenario_request = inr resp
    ∧ ∀ r, r ∈ routes resp → route_type r ≠ "fastest"%string.
Proof.
  eexists. split; [reflexivity|].
  apply (route_labels (scenario_world [scenario_route_A; scenario_route_B])
           scenario_request _ eq_refl).
  reflexivity.
Defined.

(** A response has a recommended route. *)
Lemma optimize_route_outcome_aux (w : World) (request : RouteOptimizationRequest)
  (resp : RouteOptimizationResponse) :
  optimize_route w request = inr resp → ∃ rec, recommended_route resp = Some rec.
Proof.
  intros H.
  destruct (optimize_route_pointwise w request resp H)
    as (vehicle & first & ri & _ & _ & Hfirst & Hri & _ & Hcases).
  cbv zeta in *. unfold recommended_route.
  destruct Hcases as [(Hi & _ & Hroutes)|(_ & _ & Hroutes)].
  - rewrite Hroutes, Hi, list_lookup_alter_eq, Hfirst. eauto.
  - rewrite Hroutes, Hri. eauto.
Qed.

(** [min] keeps the earliest of equal keys: every key before the result is
    strictly above the result's. *)
Lemma min_from_first (keys pre : list Q) (best_i : nat) (best : Q) :
  pre !! best_i = Some best →
  (∀ j k, pre !! j = Some k → best <= k) →
  (∀ j k, (j < best_i)%nat → pre !! j = Some k → best < k) →
  ∀ j k kr, (j < min_from best_i best (length pre) keys)%nat →
    (pre ++ keys) !! j = Some k →
    (pre ++ keys) !! min_from best_i best (length pre) keys = Some kr →
    kr < k.
Proof.
  revert pre best_i best.
  induction keys as [|k0 keys IH]; intros pre best_i best Hb Hmin Hfirst j k kr.
  - simpl. rewrite app_nil_r. intros Hj Hk Hr.
    rewrite Hb in Hr. injection Hr as <-. eauto.
  - cbn [min_from].
    replace (pre ++ k0 :: keys) with ((pre ++ [k0]) ++ keys)
      by (rewrite <- app_assoc; reflexivity).
    replace (S (length pre)) with (length (pre ++ [k0]))
      by (rewrite length_app; simpl; lia).
    destruct (RouteOptimization.Qltb k0 best) eqn:E.
    + apply Qltb_true in E. apply IH.
      * rewrite lookup_app_r by lia. rewrite Nat.sub_diag. reflexivity.
      * intros i x Hi. destruct (decide (i < length pre)%nat) as [Hlt|Hge].
        -- rewrite lookup_app_l in Hi by exact Hlt.
           specialize (Hmin i x Hi). lra.
        -- rewrite lookup_app_r in Hi by lia.
           destruct (i - length pre)%nat; simpl in Hi; [|discriminate Hi].
           injection Hi as <-. lra.
      * intros i x Hlt Hi. rewrite lookup_app_l in Hi by exact Hlt.
        specialize (Hmin i x Hi). lra.
    + apply Qltb_false in E. apply IH.
      * rewrite lookup_app_l by (eapply lookup_lt_Some; exact Hb). exact Hb.
      * intros i x Hi. destruct (decide (i < length pre)%nat) as [Hlt|Hge].
        -- rewrite lookup_app_l in Hi by exact Hlt. eauto.
        -- rewrite lookup_app_r in Hi by lia.
           destruct (i - length pre)%nat; simpl in Hi; [|discriminate Hi].
           injection Hi as <-. exact E.
      * intros i x Hlt Hi.
        rewrite lookup_app_l in Hi
          by (apply lookup_lt_Some in Hb; lia).
        eauto.
Qed.

(** X10: among routes of equal lowest cost the earliest listed is
    recommended: every route listed before the recommended one costs
    strictly more; in particular, when no route is cheaper than the
    first-listed (fastest) route, that route is the recommended one. *)
Theorem earliest_cheapest_is_recommended (w : World)
  (request : RouteOptimizationRequest) (resp : RouteOptimizationResponse) :
  optimize_route w request = inr resp →
  (∀ j r rec, (j < recommended_index resp)%nat →
     routes resp !! j = Some r → recommended_route resp = Some rec →
     cost_of rec < cost_of r)
  ∧ (∀ fastest, routes resp !! 0%nat = Some fastest →
       (∀ r, r ∈ routes resp → cost_of fastest <= cost_of r) →
       recommended_index resp = 0%nat).
Proof.
  intros H.
  assert (Hfirst : ∀ j r rec, (j < recommended_index resp)%nat →
     routes resp !! j = Some r → recommended_route resp = Some rec →
     cost_of rec < cost_of r).
  { destruct (optimize_route_resp w request resp H)
      as (vehicle & o & os & _ & _ & _ & ->).
    set (routes0 := imap _ (o :: os)). set (first := build_route _ _ _ _ 0 o).
    set (ws := snd _).
    assert (Hidx : recommended_index (recommend routes0 first ws)
                   = min_index (map cost_of routes0)).
    { unfold recommend. match goal with |- context [negb ?b] => destruct b end;
        reflexivity. }
    assert (Hcosts : map cost_of (routes (recommend routes0 first ws))
                     = map cost_of routes0)
      by (apply recommend_keeps; reflexivity).
    intros j r rec Hj Hr Hrec. unfold recommended_route in Hrec.
    rewrite Hidx in Hj, Hrec.
    assert (Hlook : ∀ i x, routes (recommend routes0 first ws) !! i = Some x →
              map cost_of routes0 !! i = Some (cost_of x)).
    { intros i x Hi. rewrite <- Hcosts, lookup_map, Hi. reflexivity. }
    pose proof (Hlook _ _ Hr) as Hk. pose proof (Hlook _ _ Hrec) as Hkr.
    change (map cost_of routes0)
      with ([cost_of first] ++ map cost_of (imap (build_route w request vehicle
              (fst (price_and_warnings w vehicle)) ∘ S) os)) in Hk, Hkr, Hj.
    cbn [min_index app] in Hj, Hkr.
    refine (min_from_first _ [cost_of first] 0 (cost_of first) eq_refl _ _
              j (cost_of r) (cost_of rec) Hj Hk Hkr).
    - intros [|i] x Hi; simpl in Hi; [|discriminate Hi].
      injection Hi as <-. lra.
    - intros i x Hlt. lia. }
  split; [exact Hfirst|].
  intros fastest H0 Hle.
  destruct (decide (recommended_index resp = 0%nat)) as [|Hne]; [assumption|].
  exfalso.
  destruct (optimize_route_outcome_aux w request resp H) as [rec Hrec].
  assert (cost_of rec < cost_of fastest)
    by (apply (Hfirst 0%nat fastest rec); [lia | exact H0 | exact Hrec]).
  assert (rec ∈ routes resp)
    by (apply list_elem_of_lookup; exists (recommended_index resp); exact Hrec).
  specialize (Hle rec ltac:(assumption)). lra.
Qed.

Lemma earliest_cheapest_is_recommended_witness :
  ∃ resp,
    optimize_route (scenario_world [scenario_route_A; scenario_route_A])
      scenario_request = inr resp
    ∧ recommended_index resp = 0%nat.
Proof.
  eexists. split; [reflexivity|].
  destruct (earliest_cheapest_is_recommended
              (scenario_world [scenario_route_A; scenario_route_A])
              scenario_request _ eq_refl) as [_ Hties].
  eapply Hties; [reflexivity|].
  intros r Hr. apply list_elem_of_In in Hr. vm_compute in Hr.
  destruct Hr as [<-|[<-|[]]]; vm_compute; discriminate.
Defined.



End RouteOptimizationMore.

(** ** Route comparison: scores, comparisons, ranking *)

Section RouteComparisonMore.
Import Fleet RouteOptimization RouteComparison OptimizeSteps RouteRanking.

Local Open Scope Q_scope.

Lemma list_min_spec (xs : list Q) (x : Q) :
  list_min x xs <= x ∧ Forall (fun y => list_min x xs <= y) xs.
Proof.
  revert x. induction xs as [|y xs IH]; intros x.
  - simpl. split; [lra | constructor].
  - cbn [list_min fold_left].
    destruct (RouteOptimization.Qltb y x) eqn:E.
    + apply Qltb_true in E. destruct (IH y) as [H1 H2]. fold (list_min y xs).
      split; [lra|]. constructor; assumption.
    + apply Qltb_false in E. destruct (IH x) as [H1 H2]. fold (list_min x xs).
      split; [assumption|]. constructor; [lra | assumption].
Qed.

Lemma list_max_spec (xs : list Q) (x : Q) :
  x <= list_max x xs ∧ Forall (fun y => y <= list_max x xs) xs.
Proof.
  revert x. induction xs as [|y xs IH]; intros x.
  - simpl. split; [lra | constructor].
  - cbn [list_max fold_left].
    destruct (RouteOptimization.Qltb x y) eqn:E.
    + apply Qltb_true in E. destruct (IH y) as [H1 H2]. fold (list_max y xs).
      split; [lra|]. constructor; assumption.
    + apply Qltb_false in E. destruct (IH x) as [H1 H2]. fold (list_max x xs).
      split; [assumption|]. constructor; [lra | assumption].
Qed.

(** A value between the two bounds normalizes into the unit interval. *)
Lemma normalize_score_range (value min_val max_val : Q) :
  min_val <= value → value <= max_val →
  unit_interval (_normalize_score value min_val max_val).
Proof.
  intros Hlo Hhi. unfold _normalize_score, unit_interval.
  destruct (Qeqb max_val min_val) eqn:E; [lra|].
  assert (¬ max_val == min_val) as Hne
    by (intros H; apply Qeq_bool_iff in H; unfold Qeqb in E; congruence).
  assert (0 < max_val - min_val) as Hpos.
  { destruct (Qlt_le_dec min_val max_val); [lra|].
    exfalso. apply Hne. lra. }
  split.
  - apply Qle_shift_div_l; [exact Hpos | lra].
  - apply Qle_shift_div_r; [exact Hpos | lra].
Qed.

(** Whatever the criteria and the preferences, the weights are not
    negative and add up to 1, so that a weighted score of parts in the unit
    interval is in the unit interval. *)
Lemma weighted_score_range (c t d l : Q) (criteria : OptimizationCriteria)
  (prefs : Preferences) :
  unit_interval c → unit_interval t → unit_interval d → unit_interval l →
  unit_interval (_calculate_weighted_score c t d l criteria prefs).
Proof.
  unfold unit_interval. intros [? ?] [? ?] [? ?] [? ?].
  unfold _calculate_weighted_score.
  destruct criteria, prefs as [[] [] []]; cbn; lra.
Qed.

Lemma metric_in_bounds (f : OptimizedRoute → Q) (first : OptimizedRoute)
  (rest : list OptimizedRoute) (r : OptimizedRoute) :
  In r (first :: rest) →
  list_min (f first) (map f rest) <= f r
  ∧ f r <= list_max (f first) (map f rest).
Proof.
  destruct (list_min_spec (map f rest) (f first)) as [Hm1 Hm2].
  destruct (list_max_spec (map f rest) (f first)) as [HM1 HM2].
  intros [<-|Hin]; [split; assumption|].
  rewrite Forall_forall in Hm2, HM2.
  assert (f r ∈ map f rest) as Hfr
    by (apply list_elem_of_In, in_map; exact Hin).
  split; [exact (Hm2 _ Hfr) | exact (HM2 _ Hfr)].
Qed.

(** X12: for every non-empty list of routes, every criteria and every
    combination of preferences, [_score_routes] gives one score per route,
    and the total score and the cost, time, distance and toll scores of
    every route lie between 0 and 1. *)
Theorem scores_in_unit_interval (first : OptimizedRoute)
  (rest : list OptimizedRoute) (criteria : OptimizationCriteria)
  (prefs : Preferences) :
  length (_score_routes first (first :: rest) criteria prefs)
  = length (first :: rest)
  ∧ Forall score_in_range (_score_routes first (first :: rest) criteria prefs).
Proof.
  unfold _score_routes. cbn [tl]. split; [apply length_map|].
  apply Forall_forall. intros s Hs.
  apply list_elem_of_In, in_map_iff in Hs as (r & <- & Hr).
  pose proof (metric_in_bounds (fun r => total_cost (cost_breakdown r))
                first rest r Hr) as [Hc1 Hc2].
  pose proof (metric_in_bounds (fun r => duration (osrm_route r) / 60)
                first rest r Hr) as [Ht1 Ht2].
  pose proof (metric_in_bounds (fun r => distance (osrm_route r) / 1000)
                first rest r Hr) as [Hd1 Hd2].
  pose proof (metric_in_bounds (fun r => total_toll_cost (cost_breakdown r))
                first rest r Hr) as [Hl1 Hl2].
  pose proof (normalize_score_range _ _ _ Hc1 Hc2) as Hc.
  pose proof (normalize_score_range _ _ _ Ht1 Ht2) as Ht.
  pose proof (normalize_score_range _ _ _ Hd1 Hd2) as Hd.
  pose proof (normalize_score_range _ _ _ Hl1 Hl2) as Hl.
  unfold score_in_range. cbn [total_score cost_score time_score distance_score toll_score].
  split; [apply weighted_score_range; assumption|].
  repeat split; (apply Hc || apply Ht || apply Hd || apply Hl).
Qed.

















(** X28: when [analyze_routes] returns, it has one score per route, the
    route it recommends has the lowest total score of all, and the
    caller's list is left as it was but for the label of that route, now
    "recommended". *)
Theorem analysis_recommends_lowest_score (routes : list OptimizedRoute)
  (criteria : OptimizationCriteria) (user_preferences : option Preferences)
  (s : OptimizationSummary) :
  analyze_routes routes criteria user_preferences = inr s →
  length (route_scores s) = length routes
  ∧ (∃ best, route_scores s !! recommended s = Some best
       ∧ ∀ j sc, route_scores s !! j = Some sc →
                 total_score best <= total_score sc)
  ∧ (∃ r, routes !! recommended s = Some r
       ∧ routes_after s !! recommended s
         = Some (set_route_type "recommended" r))
  ∧ (∀ j, j ≠ recommended s → routes_after s !! j = routes !! j).
Proof.
  unfold analyze_routes, _select_recommended_route.
  destruct routes as [|first rest]; [discriminate|].
  set (routes := first :: rest).
  set (scores := _score_routes first routes criteria
                   (default no_preferences user_preferences)).
  set (best_i := min_index (map total_score scores)).
  match goal with
  | |- context [_analyze_savings ?f ?l ?r] => destruct (_analyze_savings f l r)
  end; [discriminate|].
  intros H. injection H as <-.
  cbn [route_scores recommended routes_after].
  assert (Hlen : length scores = length routes) by apply length_map.
  assert (Hne : map total_score scores ≠ []).
  { intros Hnil. apply (f_equal (@length Q)) in Hnil.
    rewrite length_map, Hlen in Hnil. discriminate Hnil. }
  destruct (min_index_spec _ Hne) as (kr & Hkr & Hmin).
  fold best_i in Hkr. rewrite lookup_map in Hkr.
  destruct (scores !! best_i) as [best|] eqn:Hbest; [|discriminate Hkr].
  cbn in Hkr. injection Hkr as <-.
  assert (Hlt : (best_i < length routes)%nat).
  { rewrite <- Hlen. eapply lookup_lt_Some, Hbest. }
  destruct (lookup_lt_is_Some_2 routes _ Hlt) as [r Hr].
  split; [exact Hlen|]. split; [|split].
  - exists best. split; [reflexivity|]. intros j sc Hsc.
    apply (Hmin j). rewrite lookup_map, Hsc. reflexivity.
  - exists r. split; [exact Hr|].
    rewrite list_lookup_alter_eq, Hr. reflexivity.
  - intros j Hj. apply list_lookup_alter_ne. congruence.
Qed.

Lemma analysis_recommends_lowest_score_witness :
  ∃ s, analyze_routes
         [mock_route 100000 3600 1000 800 200 "fastest";
          mock_route 100000 3600 900 900 0 "alternative"] TOTAL_COST None
       = inr s
       ∧ recommended s = 1%nat
       ∧ ∃ best, route_scores s !! recommended s = Some best
           ∧ ∀ j sc, route_scores s !! j = Some sc →
                     total_score best <= total_score sc.
Proof.
  destruct (analyze_routes
              [mock_route 100000 3600 1000 800 200 "fastest";
               mock_route 100000 3600 900 900 0 "alternative"] TOTAL_COST None)
    as [e|s] eqn:E; [exfalso; vm_compute in E; discriminate E|].
  exists s. split; [reflexivity|].
  split; [vm_compute in E; injection E as <-; reflexivity|].
  exact (proj1 (proj2 (analysis_recommends_lowest_score _ _ _ s E))).
Defined.

End RouteComparisonMore.

(** ** Authorization *)

Section AuthorizationFacts.
Import Permissions Validators Authorization.

Lemma has_permission_spec (r : UserRole) (p : Permission) :
  has_permission r p = true ↔ p ∈ ROLE_PERMISSIONS r.
Proof.
  unfold has_permission, get_user_permissions.
  apply bool_decide_eq_true.
Qed.

Lemma require_permission_passes (p : Permission) (u : User) :
  require_permission p u = inr u ↔ has_permission (role u) p = true.
Proof.
  unfold require_permission.
  destruct (has_permission (role u) p); cbn; split; congruence.
Qed.


(** X18: [require_all_permissions] lets a user through exactly when
    [require_permission] does for every permission of the list, and
    [require_any_permission] exactly when it does for at least one; a
    refusal is a 403 and a user let through is returned unchanged.  So the
    empty list lets everyone through [require_all_permissions] and no one,
    not even an administrator, through [require_any_permission]. *)
Theorem permission_lists (permissions : list Permission) (u : User) :
  (require_all_permissions permissions u = inr u
   ↔ ∀ p, p ∈ permissions → require_permission p u = inr u)
  ∧ (require_any_permission permissions u = inr u
     ↔ ∃ p, p ∈ permissions ∧ require_permission p u = inr u)
  ∧ (∀ d, d ∈ [require_all_permissions permissions;
               require_any_permission permissions] →
          d u = inr u
          ∨ ∃ e, d u = inl e ∧ status_code e = HTTP_403_FORBIDDEN)
  ∧ require_all_permissions [] u = inr u
  ∧ require_any_permission [] u ≠ inr u.
Proof.
  repeat split.
  - unfold require_all_permissions, has_all_permissions.
    destruct (forallb _ _) eqn:E; cbn; [|discriminate].
    intros _ p Hp. apply require_permission_passes.
    rewrite forallb_forall in E. apply E, list_elem_of_In, Hp.
  - intros H. unfold require_all_permissions, has_all_permissions.
    assert (forallb (has_permission (role u)) permissions = true) as ->;
      [|reflexivity].
    apply forallb_forall. intros p Hp.
    apply require_permission_passes, H, list_elem_of_In, Hp.
  - unfold require_any_permission, has_any_permission.
    destruct (existsb _ _) eqn:E; cbn; [|discriminate].
    intros _. apply existsb_exists in E as (p & Hp & Hhas).
    exists p. split; [apply list_elem_of_In, Hp|].
    apply require_permission_passes, Hhas.
  - intros (p & Hp & Hpass). unfold require_any_permission, has_any_permission.
    assert (existsb (has_permission (role u)) permissions = true) as ->;
      [|reflexivity].
    apply existsb_exists. exists p.
    split; [apply list_elem_of_In, Hp | apply require_permission_passes, Hpass].
  - intros d Hd.
    apply list_elem_of_In in Hd. destruct Hd as [<-|[<-|[]]].
    + unfold require_all_permissions.
      destruct (has_all_permissions _ _); cbn; [left; reflexivity|].
      right. eexists. split; reflexivity.
    + unfold require_any_permission.
      destruct (has_any_permission _ _); cbn; [left; reflexivity|].
      right. eexists. split; reflexivity.
  - discriminate.
Qed.


(** X20: the access table of the guards.  Behind
    [get_current_active_user], an inactive user gets 400 from every guard,
    whatever the role; an active administrator passes all six; an active
    operator passes [require_vehicle_access] and [require_route_access] and
    gets 403 from the other four. *)
Theorem guard_access_table (g : Guard) (u : User) :
  guard_dependency g u
  = if negb (is_active u)
    then inl (mkHTTPException HTTP_400_BAD_REQUEST "Inactive user")
    else
      match role u, g with
      | ADMIN, _ | OPERATOR, VehicleAccess | OPERATOR, RouteAccess => inr u
      | OPERATOR, AdminGuard =>
          inl (mkHTTPException HTTP_403_FORBIDDEN
                 "Permission required: admin_panel")
      | OPERATOR, SystemManagement =>
          inl (mkHTTPException HTTP_403_FORBIDDEN
                 "Permission required: manage_system_data")
      | OPERATOR, FuelPriceManagement =>
          inl (mkHTTPException HTTP_403_FORBIDDEN
                 "One of these permissions required: create_fuel_price, update_fuel_price, delete_fuel_price")
      | OPERATOR, TollManagement =>
          inl (mkHTTPException HTTP_403_FORBIDDEN
                 "One of these permissions required: create_toll, update_toll, delete_toll")
      end.
Proof.
  destruct u as [r a]. unfold guard_dependency, Depends,
    get_current_active_user. cbn [is_active role].
  destruct a; cbn [negb]; [|reflexivity].
  destruct r, g; reflexivity.
Qed.

End AuthorizationFacts.

(** ** Staleness alerts and reports *)

Section StalenessReportFacts.
Import Staleness StalenessReport.

Lemma fuel_price_level (days_old : Z) :
  _get_staleness_level "fuel_price" days_old
  = if 60 <=? days_old then CRITICAL
    else if 30 <=? days_old then STALE
    else if 15 <=? days_old then WARNING else FRESH.
Proof. reflexivity. Qed.

Lemma fuel_price_alert_levels (today : Z) (rows : list FuelPrice)
  (threshold_days : Z) (fuel_type' region' : option string) :
  Forall (fun a =>
            data_type a = "fuel_price"%string
            ∧ threshold_days < days_old a
            ∧ level a = _get_staleness_level "fuel_price" (days_old a)
            ∧ (14 <= threshold_days → level a ≠ FRESH)
            ∧ (29 <= threshold_days → level a = STALE ∨ level a = CRITICAL)
            ∧ (59 <= threshold_days → level a = CRITICAL))
    (check_fuel_price_staleness today rows threshold_days fuel_type' region').
Proof.
  unfold check_fuel_price_staleness.
  destruct (Z.abs threshold_days <=? timedelta_max_days); cbn [negb];
    [|constructor].
  destruct ((date_min <=? today - threshold_days)
            && (today - threshold_days <=? date_max)); cbn [negb];
    [|constructor].
  apply Forall_map, Forall_forall. intros price Hin.
  apply list_elem_of_In, filter_In in Hin as [_ Hf].
  repeat (apply andb_prop in Hf as [Hf ?]).
  apply Z.ltb_lt in Hf. cbn [data_type days_old level].
  rewrite fuel_price_level.
  repeat split; try lia.
  - intros H14.
    destruct (60 <=? _); [discriminate|].
    destruct (30 <=? _); [discriminate|].
    destruct (15 <=? _) eqn:E; [discriminate|]. apply Z.leb_gt in E. lia.
  - intros H29.
    destruct (60 <=? _); [right; reflexivity|].
    destruct (30 <=? _) eqn:E; [left; reflexivity|]. apply Z.leb_gt in E. lia.
  - intros H59.
    destruct (60 <=? _) eqn:E; [reflexivity|]. apply Z.leb_gt in E. lia.
Qed.

(** X21: every alert of [check_fuel_price_staleness] is for an active row
    strictly older than the threshold, and carries the level of its age.
    With a threshold of 14 days or more no alert is [FRESH], with the
    default 30 (29 or more) every alert is [STALE] or [CRITICAL], never
    [WARNING], and with 59 or more every alert is [CRITICAL].  A threshold
    beyond what [timedelta] accepts gives no alert at all. *)
Theorem fuel_price_alerts (today : Z) (rows : list FuelPrice)
  (threshold_days : Z) (fuel_type' region' : option string) :
  let found :=
    check_fuel_price_staleness today rows threshold_days fuel_type' region' in
  Forall (fun a =>
            data_type a = "fuel_price"%string
            ∧ threshold_days < days_old a
            ∧ level a = _get_staleness_level "fuel_price" (days_old a)
            ∧ (14 <= threshold_days → level a ≠ FRESH)
            ∧ (29 <= threshold_days → level a = STALE ∨ level a = CRITICAL)
            ∧ (59 <= threshold_days → level a = CRITICAL)) found
  ∧ (length found <= length (List.filter is_active rows))%nat
  ∧ (timedelta_max_days < Z.abs threshold_days → found = []).
Proof.
  cbv zeta. split; [apply fuel_price_alert_levels|].
  unfold check_fuel_price_staleness.
  destruct (Z.abs threshold_days <=? timedelta_max_days) eqn:Eabs; cbn [negb].
  2: { apply Z.leb_gt in Eabs. split; [cbn; lia | reflexivity]. }
  apply Z.leb_le in Eabs.
  destruct ((date_min <=? today - threshold_days)
            && (today - threshold_days <=? date_max)); cbn [negb].
  2: { split; [cbn; lia | reflexivity]. }
  split; [|lia].
  rewrite length_map.
  induction rows as [|price rows IH]; cbn; [lia|].
  destruct (effective_date price <? _); cbn;
    destruct (is_active price); cbn;
    repeat (match goal with
            | |- context [if ?b then _ else _] => destruct b; cbn
            end); lia.
Qed.

Lemma fuel_price_alerts_witness :
  let found :=
    check_fuel_price_staleness 739000
      [mkFuelPrice "diesel_500" "NEA" 738960 true None;
       mkFuelPrice "diesel_premium" "NEA" 738990 true None;
       mkFuelPrice "diesel_500" "NEA" 738900 false None] 30 None None in
  map days_old found = [40]
  ∧ Forall (fun a => level a = STALE ∨ level a = CRITICAL) found.
Proof.
  cbv zeta. split; [reflexivity|].
  pose proof (fuel_price_alerts 739000
                [mkFuelPrice "diesel_500" "NEA" 738960 true None;
                 mkFuelPrice "diesel_premium" "NEA" 738990 true None;
                 mkFuelPrice "diesel_500" "NEA" 738900 false None]
                30 None None) as [H _].
  eapply Forall_impl; [exact H|]. cbn beta.
  intros a (_ & _ & _ & _ & H29 & _). apply H29. lia.
Defined.

Lemma count_alert_fold (l : list StalenessAlert) (c : LevelCounts) :
  let r := fold_left count_alert l c in
  count_WARNING r = count_WARNING c + at_level WARNING l
  ∧ count_STALE r = count_STALE c + at_level STALE l
  ∧ count_CRITICAL r = count_CRITICAL c + at_level CRITICAL l.
Proof.
  cbv zeta. revert c. unfold at_level.
  induction l as [|a l IH]; intros c; cbn [fold_left List.filter].
  - cbn. lia.
  - destruct (IH (count_alert c a)) as (-> & -> & ->).
    unfold count_alert.
    destruct (level a); cbn; repeat case_bool_decide; try congruence;
      cbn [length]; rewrite ?Nat2Z.inj_succ; lia.
Qed.

Lemma at_level_total (l : list StalenessAlert) :
  at_level FRESH l + at_level WARNING l + at_level STALE l
  + at_level CRITICAL l = Z.of_nat (length l).
Proof.
  unfold at_level. induction l as [|a l IH]; [reflexivity|].
  cbn [List.filter length].
  destruct (level a); repeat case_bool_decide; try congruence;
    cbn [length]; rewrite ?Nat2Z.inj_succ; lia.
Qed.

(** X22: the report of [generate_staleness_report] lists the fuel alerts
    followed by the toll alerts and counts them all, but its counts by
    level leave out the alerts whose level is [FRESH]: the three counts are
    the numbers of alerts at their level and add up to the total less the
    fresh ones.  The summary says that all data is fresh exactly when
    there is no alert; when every alert is [FRESH] it announces the number
    of issues followed by an empty list. *)
Theorem report_counts (fuel_alerts toll_alerts : list StalenessAlert) :
  let r := report_of fuel_alerts toll_alerts in
  let all_alerts := fuel_alerts ++ toll_alerts in
  alerts r = all_alerts
  ∧ total_alerts r = Z.of_nat (length all_alerts)
  ∧ count_WARNING (alerts_by_level r) = at_level WARNING all_alerts
  ∧ count_STALE (alerts_by_level r) = at_level STALE all_alerts
  ∧ count_CRITICAL (alerts_by_level r) = at_level CRITICAL all_alerts
  ∧ count_WARNING (alerts_by_level r) + count_STALE (alerts_by_level r)
    + count_CRITICAL (alerts_by_level r)
    = total_alerts r - at_level FRESH all_alerts
  ∧ (summary r = "All data is fresh and up to date."%string ↔ all_alerts = [])
  ∧ (all_alerts ≠ [] → at_level FRESH all_alerts = total_alerts r →
     summary r
     = ("Found " ++ str_of_int (total_alerts r)
        ++ " data staleness issues: .")%string).
Proof.
  cbv zeta. unfold report_of.
  cbn [alerts total_alerts alerts_by_level summary].
  set (all_alerts := fuel_alerts ++ toll_alerts).
  destruct (count_alert_fold all_alerts (mkLevelCounts 0 0 0)) as (Hw & Hs & Hc).
  cbv zeta in Hw, Hs, Hc. cbn [count_WARNING count_STALE count_CRITICAL] in *.
  rewrite Hw, Hs, Hc. clear Hw Hs Hc.
  pose proof (at_level_total all_alerts) as Htot.
  assert (Hnn : ∀ l, 0 <= at_level l all_alerts) by (intros; unfold at_level; lia).
  repeat split; try lia.
  - destruct all_alerts; [reflexivity|]. cbn. discriminate.
  - intros ->. reflexivity.
  - intros Hne Hfresh.
    destruct (Z.of_nat (length all_alerts) =? 0) eqn:E.
    { apply Z.eqb_eq in E. destruct all_alerts; [contradiction | cbn in E; lia]. }
    pose proof (Hnn WARNING). pose proof (Hnn STALE). pose proof (Hnn CRITICAL).
    assert (at_level WARNING all_alerts = 0) as -> by lia.
    assert (at_level STALE all_alerts = 0) as -> by lia.
    assert (at_level CRITICAL all_alerts = 0) as -> by lia.
    reflexivity.
Qed.

Lemma report_counts_witness :
  summary (report_of
             [mkStalenessAlert "fuel_price" "diesel_500_NEA" "" FRESH 10 None
                "Data is fresh" None] [])
  = "Found 1 data staleness issues: ."%string.
Proof.
  pose proof (report_counts
                [mkStalenessAlert "fuel_price" "diesel_500_NEA" "" FRESH 10
                   None "Data is fresh" None] [])
    as (_ & _ & _ & _ & _ & _ & _ & H).
  cbv zeta in H. apply H; [discriminate | reflexivity].
Defined.

Lemma count_of_zero (t : string) (l : DataStalenessLevel)
  (found : list StalenessAlert) :
  (0 <? count_of t l found) = false
  ↔ Forall (fun a => ¬ (data_type a = t ∧ level a = l)) found.
Proof.
  unfold count_of. induction found as [|a found IH]; cbn [List.filter].
  - split; [constructor | reflexivity].
  - destruct (String.eqb (data_type a) t) eqn:Et; cbn [andb].
    + apply String.eqb_eq in Et.
      destruct (bool_decide (level a = l)) eqn:El.
      * apply bool_decide_eq_true in El. split.
        -- cbn. intros H. apply Z.ltb_ge in H. lia.
        -- intros H. apply Forall_cons in H as [H _]. exfalso. apply H. auto.
      * apply bool_decide_eq_false in El. rewrite IH. split.
        -- intros H. constructor; [intros [_ ?]; contradiction | exact H].
        -- intros H. apply Forall_cons in H as [_ H]. exact H.
    + apply String.eqb_neq in Et. rewrite IH. split.
      * intros H. constructor; [intros [? _]; contradiction | exact H].
      * intros H. apply Forall_cons in H as [_ H]. exact H.
Qed.

(** X23: for a non-empty list of alerts, [_generate_recommendations] ends
    with its three general recommendations, preceded by at most four
    specific ones; there is no specific one exactly when no fuel price or
    toll alert is [STALE] or [CRITICAL], so [WARNING] alerts, and alerts
    of any other data type, never produce a recommendation of their
    own. *)
Theorem recommendations_shape (found : list StalenessAlert) :
  found ≠ [] →
  ∃ specific,
    _generate_recommendations found
    = specific ++ ["Set up automated data refresh processes"%string;
                   "Consider implementing data source monitoring"%string;
                   "Review data update procedures with team"%string]
    ∧ (length specific <= 4)%nat
    ∧ (specific = []
       ↔ Forall (fun a =>
                   ¬ ((data_type a = "fuel_price"%string
                       ∨ data_type a = "toll"%string)
                      ∧ (level a = STALE ∨ level a = CRITICAL))) found).
Proof.
  intros Hne. unfold _generate_recommendations.
  destruct found as [|a0 found0]; [contradiction|].
  set (found := a0 :: found0). clearbody found. clear Hne a0 found0.
  cbv zeta.
  pose proof (count_of_zero "fuel_price" CRITICAL found) as Hfc.
  pose proof (count_of_zero "toll" CRITICAL found) as Htc.
  pose proof (count_of_zero "fuel_price" STALE found) as Hfs.
  pose proof (count_of_zero "toll" STALE found) as Hts.
  set (general := [_; _; _]).
  match goal with
  | |- ∃ s, ?a ++ ?b ++ ?c ++ ?d ++ general = _ ∧ _ =>
      exists (a ++ b ++ c ++ d)
  end.
  split; [rewrite <- !app_assoc; reflexivity|].
  split.
  { destruct (0 <? count_of "fuel_price" CRITICAL found);
      destruct (0 <? count_of "toll" CRITICAL found);
      destruct (0 <? count_of "fuel_price" STALE found);
      destruct (0 <? count_of "toll" STALE found); cbn; lia. }
  split.
  - intros Hnil.
    destruct (0 <? count_of "fuel_price" CRITICAL found); [discriminate|].
    destruct (0 <? count_of "toll" CRITICAL found); [discriminate|].
    destruct (0 <? count_of "fuel_price" STALE found); [discriminate|].
    destruct (0 <? count_of "toll" STALE found); [discriminate|].
    apply proj1 in Hfc, Htc, Hfs, Hts.
    specialize (Hfc eq_refl). specialize (Htc eq_refl).
    specialize (Hfs eq_refl). specialize (Hts eq_refl).
    rewrite Forall_forall in *. intros a Ha [[Hd|Hd] [Hl|Hl]].
    + apply (Hfs a Ha). auto.
    + apply (Hfc a Ha). auto.
    + apply (Hts a Ha). auto.
    + apply (Htc a Ha). auto.
  - intros Hall.
    assert (∀ t l, (t = "fuel_price"%string ∨ t = "toll"%string) →
                   (l = STALE ∨ l = CRITICAL) →
                   (0 <? count_of t l found) = false) as Hz.
    { intros t l Ht Hl. apply count_of_zero.
      eapply Forall_impl; [exact Hall|]. cbn. intros a Ha [<- <-].
      apply Ha. auto. }
    rewrite !Hz by auto. reflexivity.
Qed.

Lemma recommendations_shape_witness :
  ∃ specific,
    _generate_recommendations
      [mkStalenessAlert "fuel_price" "diesel_500_NEA" "" WARNING 20 None "" None]
    = specific ++ ["Set up automated data refresh processes"%string;
                   "Consider implementing data source monitoring"%string;
                   "Review data update procedures with team"%string]
    ∧ specific = [].
Proof.
  destruct (recommendations_shape
              [mkStalenessAlert "fuel_price" "diesel_500_NEA" "" WARNING 20
                 None "" None])
    as (specific & Heq & _ & Hiff); [discriminate|].
  exists specific. split; [exact Heq|].
  apply Hiff. repeat constructor. intros [_ [H|H]]; discriminate H.
Defined.

Lemma at_level_app (l : DataStalenessLevel) (xs ys : list StalenessAlert) :
  at_level l (xs ++ ys) = at_level l xs + at_level l ys.
Proof.
  unfold at_level. rewrite List.filter_app, length_app. lia.
Qed.

Lemma at_level_none (l : DataStalenessLevel) (xs : list StalenessAlert) :
  Forall (fun a => level a ≠ l) xs → at_level l xs = 0.
Proof.
  unfold at_level. induction 1 as [|a xs Ha _ IH]; [reflexivity|].
  cbn [List.filter]. case_bool_decide; [contradiction | exact IH].
Qed.

(** X29: in the report of [generate_staleness_report] with a fuel price
    threshold of 29 days or more, as with the default 30, fuel prices add
    nothing to the count of warnings, and every alert the counts by level
    leave out is a toll alert: the warning count is the number of toll
    warnings, and the total exceeds the three counts by the number of
    fresh toll alerts. *)
Theorem report_without_fuel_warnings (today : Z) (rows : list FuelPrice)
  (toll_alerts : list StalenessAlert) (fuel_price_threshold : Z) :
  29 <= fuel_price_threshold →
  let r := generate_staleness_report today rows toll_alerts
             fuel_price_threshold in
  count_WARNING (alerts_by_level r) = at_level WARNING toll_alerts
  ∧ total_alerts r
    - (count_WARNING (alerts_by_level r) + count_STALE (alerts_by_level r)
       + count_CRITICAL (alerts_by_level r))
    = at_level FRESH toll_alerts.
Proof.
  intros Hth. cbv zeta. unfold generate_staleness_report, report_of.
  cbn [alerts_by_level total_alerts].
  set (fuel_alerts := check_fuel_price_staleness today rows
                        fuel_price_threshold None None).
  pose proof (fuel_price_alert_levels today rows fuel_price_threshold None None)
    as Hfuel. fold fuel_alerts in Hfuel.
  assert (at_level WARNING fuel_alerts = 0) as Hw.
  { apply at_level_none. eapply Forall_impl; [exact Hfuel|]. cbn.
    intros a (_ & _ & _ & _ & H29 & _) Hl.
    destruct (H29 Hth) as [E|E]; rewrite E in Hl; discriminate Hl. }
  assert (at_level FRESH fuel_alerts = 0) as Hf.
  { apply at_level_none. eapply Forall_impl; [exact Hfuel|]. cbn.
    intros a (_ & _ & _ & _ & H29 & _) Hl.
    destruct (H29 Hth) as [E|E]; rewrite E in Hl; discriminate Hl. }
  destruct (count_alert_fold (fuel_alerts ++ toll_alerts) (mkLevelCounts 0 0 0))
    as (Hcw & Hcs & Hcc).
  cbv zeta in Hcw, Hcs, Hcc. cbn [count_WARNING count_STALE count_CRITICAL] in *.
  rewrite Hcw, Hcs, Hcc.
  pose proof (at_level_total (fuel_alerts ++ toll_alerts)) as Htot.
  rewrite !at_level_app in *. lia.
Qed.

Lemma report_without_fuel_warnings_witness :
  let r := generate_staleness_report 739000
             [mkFuelPrice "diesel_500" "NEA" 738960 true None]
             [mkStalenessAlert "toll" "RN12_Peaje" "" WARNING 100 None "" None]
             30 in
  total_alerts r = 2
  ∧ count_WARNING (alerts_by_level r) = 1
  ∧ count_STALE (alerts_by_level r) = 1.
Proof.
  pose proof (report_without_fuel_warnings 739000
                [mkFuelPrice "diesel_500" "NEA" 738960 true None]
                [mkStalenessAlert "toll" "RN12_Peaje" "" WARNING 100 None ""
                   None] 30 ltac:(lia)) as [Hw _].
  cbv zeta in *. split; [reflexivity|]. split; [exact Hw | reflexivity].
Defined.

End StalenessReportFacts.

(** ** Coordinates and phone numbers *)

Section CommonValidatorFacts.
Import PyStr Validators CommonValidators.

Lemma isspace_not_kept (c : ascii) : isspace c = true → keeps c = false.
Proof.
  destruct c as [[] [] [] [] [] [] [] []]; vm_compute; congruence.
Qed.

Lemma strip_keeps (s : str) :
  sub_non_digits_plus (strip s) = sub_non_digits_plus s.
Proof.
  unfold sub_non_digits_plus, strip, rstrip, lstrip.
  rewrite filter_rev, (drop_while_filter _ _ _ isspace_not_kept).
  rewrite filter_rev, rev_involutive.
  apply (drop_while_filter _ _ _ isspace_not_kept).
Qed.

Lemma kept_filter (s : str) :
  Forall (fun c => keeps c = true) (sub_non_digits_plus s).
Proof.
  apply Forall_forall. intros c Hc.
  apply list_elem_of_In, filter_In in Hc as [_ Hc]. exact Hc.
Qed.

Lemma filter_kept (s : str) :
  Forall (fun c => keeps c = true) s → sub_non_digits_plus s = s.
Proof.
  unfold sub_non_digits_plus.
  induction 1 as [|c s Hc _ IH]; [reflexivity|].
  cbn. rewrite Hc, IH. reflexivity.
Qed.

Lemma digit_kept (c : ascii) : is_digit c = true → keeps c = true.
Proof. unfold keeps. intros ->. reflexivity. Qed.

(** [^\d{n}$] on a string without newline. *)
Lemma digits_match (n : nat) (s : str) :
  Forall (fun c => keeps c = true) s →
  re_match_atoms (repeat Digit n) s = true
  ↔ length s = n ∧ Forall (fun c => is_digit c = true) s.
Proof.
  revert s. induction n as [|n IH]; intros s Hs; cbn [repeat re_match_atoms].
  - destruct s as [|c [|c' s]].
    + split; [split; [reflexivity | constructor] | reflexivity].
    + apply Forall_cons in Hs as [Hc _]. split.
      * intros H. apply Ascii.eqb_eq in H. subst c. discriminate Hc.
      * intros [H _]. discriminate H.
    + split; [discriminate | intros [H _]; discriminate H].
  - destruct s as [|c s].
    + split; [discriminate | intros [H _]; discriminate H].
    + apply Forall_cons in Hs as [_ Hs]. cbn [atom_matches length].
      rewrite andb_true_iff, (IH s Hs), Forall_cons. split.
      * intros (Hc & Hl & Hd). split; [congruence | split; assumption].
      * intros (Hl & Hc & Hd). split; [exact Hc | split; [lia | exact Hd]].
Qed.

(** A pattern that starts with literal characters. *)
Lemma literal_match (pre : str) (p : list Atom) (s : str) :
  re_match_atoms (map Lit pre ++ p) s = true
  ↔ ∃ s', s = pre ++ s' ∧ re_match_atoms p s' = true.
Proof.
  revert s. induction pre as [|a pre IH]; intros s; cbn [map app].
  - split; [intros H; exists s; auto | intros (s' & -> & H); exact H].
  - cbn [re_match_atoms]. destruct s as [|c s].
    + split; [discriminate | intros (s' & H & _); discriminate H].
    + cbn [atom_matches]. rewrite andb_true_iff, IH. split.
      * intros (Hc & s' & -> & H). apply Ascii.eqb_eq in Hc. subst c.
        exists s'. auto.
      * intros (s' & Heq & H). injection Heq as -> ->.
        split; [apply Ascii.eqb_refl | exists s'; auto].
Qed.

Lemma phone_patterns_shape (n : str) :
  Forall (fun c => keeps c = true) n →
  existsb (fun pattern => re_match_atoms pattern n) phone_patterns = true
  ↔ phone_shape n.
Proof.
  intros Hn. unfold phone_patterns, phone_shape. cbn [existsb].
  rewrite !orb_true_iff, !literal_match. split.
  - intros [(d & -> & H)|[(d & -> & H)|[H|[H|H]]]]; [| | | |discriminate H].
    + apply Forall_app in Hn as [_ Hd].
      apply (digits_match _ _ Hd) in H as [Hl Hdig].
      exists d. split; [exact Hdig|]. left. split; [reflexivity | exact Hl].
    + apply Forall_app in Hn as [_ Hd].
      apply (digits_match _ _ Hd) in H as [Hl Hdig].
      exists d. split; [exact Hdig|]. right; left.
      split; [reflexivity | exact Hl].
    + apply (digits_match _ _ Hn) in H as [Hl Hdig].
      exists n. split; [exact Hdig|]. right; right.
      split; [reflexivity | left; exact Hl].
    + apply (digits_match _ _ Hn) in H as [Hl Hdig].
      exists n. split; [exact Hdig|]. right; right.
      split; [reflexivity | right; exact Hl].
  - intros (d & Hd & H).
    assert (Hk : Forall (fun c => keeps c = true) d)
      by (eapply Forall_impl; [exact Hd | apply digit_kept]).
    destruct H as [[-> Hl]|[[-> Hl]|[-> [Hl|Hl]]]].
    + left. exists d. split; [reflexivity|]. apply digits_match; auto.
    + right; left. exists d. split; [reflexivity|]. apply digits_match; auto.
    + right; right; left. apply digits_match; auto.
    + right; right; right; left. apply digits_match; auto.
Qed.

(** X24: [validate_phone_number] accepts a phone number exactly when its
    digits and plus signs, every other character being dropped wherever
    it stands, make up +54 and ten digits, 54 and ten digits, ten digits or
    eight digits; it returns those characters.  A number it returns is
    returned unchanged when validated again. *)
Theorem validate_phone_number_accepts (phone n : str) :
  (validate_phone_number phone = inr n
   ↔ n = sub_non_digits_plus phone ∧ phone_shape n)
  ∧ (validate_phone_number phone = inr n → validate_phone_number n = inr n).
Proof.
  assert (Hiff : ∀ phone n, validate_phone_number phone = inr n
                 ↔ n = sub_non_digits_plus phone ∧ phone_shape n).
  { clear. intros phone n. unfold validate_phone_number.
    rewrite strip_keeps.
    pose proof (phone_patterns_shape _ (kept_filter phone)) as Hshape.
    destruct (negb (truthy phone) || negb (truthy (strip phone))) eqn:Eempty.
    - split; [discriminate|]. intros [-> Hs]. exfalso.
      assert (sub_non_digits_plus phone = []) as Hnil.
      { apply orb_true_iff in Eempty as [E|E]; apply negb_true_iff in E.
        - destruct phone; [reflexivity | discriminate E].
        - rewrite <- strip_keeps. destruct (strip phone);
            [reflexivity | discriminate E]. }
      rewrite Hnil in Hs. destruct Hs as (d & _ & [[H Hl]|[[H Hl]|[H Hl]]]).
      + discriminate H.
      + discriminate H.
      + subst d. cbn in Hl. lia.
    - destruct (existsb _ phone_patterns) eqn:E.
      + split.
        * intros H. injection H as <-. split; [reflexivity|].
          apply Hshape. reflexivity.
        * intros [-> _]. reflexivity.
      + split; [discriminate|]. intros [-> Hs].
        apply Hshape in Hs. congruence. }
  split; [apply Hiff|].
  intros H. apply Hiff in H as [-> Hs]. apply Hiff. split; [|exact Hs].
  symmetry. apply filter_kept, kept_filter.
Qed.

Lemma validate_phone_number_accepts_witness :
  validate_phone_number (lit "+54 (11) 1234-5678") = inr (lit "+541112345678")
  ∧ validate_phone_number (lit "+541112345678") = inr (lit "+541112345678").
Proof.
  split; [reflexivity|].
  apply (validate_phone_number_accepts (lit "+54 (11) 1234-5678")).
  reflexivity.
Defined.

Lemma between_spec (lo x hi : Q) :
  between lo x hi = true ↔ (lo <= x ∧ x <= hi)%Q.
Proof.
  unfold between. rewrite andb_true_iff, !Qle_bool_iff. reflexivity.
Qed.

(** X25: [validate_coordinates] accepts exactly the points of the
    Argentina box, longitude from -73.5 to -53.6 and latitude from -55.1
    to -21.8, and returns them unchanged; every other point is refused
    with a 400.  The two range checks it makes first, -180 to 180 and -90
    to 90, never decide acceptance. *)
Theorem validate_coordinates_accepts (longitude latitude : Q) :
  let inside :=
    ((min_longitude <= longitude ∧ longitude <= max_longitude)
     ∧ (min_latitude <= latitude ∧ latitude <= max_latitude))%Q in
  (validate_coordinates longitude latitude = inr (longitude, latitude)
   ↔ inside)
  ∧ (¬ inside →
     ∃ e, validate_coordinates longitude latitude = inl e
          ∧ status_code e = HTTP_400_BAD_REQUEST).
Proof.
  cbv zeta. unfold validate_coordinates.
  pose proof (between_spec (-180) longitude 180) as H1.
  pose proof (between_spec (-90) latitude 90) as H2.
  pose proof (between_spec min_longitude longitude max_longitude) as H3.
  pose proof (between_spec min_latitude latitude max_latitude) as H4.
  assert (I31 : (min_longitude <= longitude ∧ longitude <= max_longitude)%Q
                → (-180 <= longitude ∧ longitude <= 180)%Q).
  { intros [Ha Hb]. split.
    - apply Qle_trans with min_longitude; [discriminate | exact Ha].
    - apply Qle_trans with max_longitude; [exact Hb | discriminate]. }
  assert (I42 : (min_latitude <= latitude ∧ latitude <= max_latitude)%Q
                → (-90 <= latitude ∧ latitude <= 90)%Q).
  { intros [Ha Hb]. split.
    - apply Qle_trans with min_latitude; [discriminate | exact Ha].
    - apply Qle_trans with max_latitude; [exact Hb | discriminate]. }
  destruct (between (-180) longitude 180), (between (-90) latitude 90),
    (between min_longitude longitude max_longitude),
    (between min_latitude latitude max_latitude); cbn [negb];
    (split;
     [ split; [try discriminate; intros _ | intros Hin; try reflexivity];
       intuition discriminate
     | first [ solve [intros _; eexists; split; reflexivity]
             | intros Hn; exfalso; apply Hn; intuition discriminate ] ]).
Qed.

Lemma validate_coordinates_accepts_witness :
  validate_coordinates (-559 # 10) (-274 # 10)
  = inr ((-559 # 10)%Q, (-274 # 10)%Q)
  ∧ ∃ e, validate_coordinates 0 0 = inl e
         ∧ status_code e = HTTP_400_BAD_REQUEST.
Proof.
  split.
  - apply (proj1 (validate_coordinates_accepts (-559 # 10) (-274 # 10))).
    repeat split; discriminate.
  - apply (proj2 (validate_coordinates_accepts 0 0)).
    intros [[_ H] _]. apply H. reflexivity.
Defined.

End CommonValidatorFacts.

(** ** Validating what a validator returned *)

Section ValidatorRoundTrips.
Import PyStr Validators.

Lemma filter_digits_fixed (s : str) :
  List.filter is_digit (List.filter is_digit s) = List.filter is_digit s.
Proof.
  induction s as [|c s IH]; [reflexivity|]. cbn [List.filter].
  destruct (is_digit c) eqn:E; [|exact IH].
  cbn [List.filter]. rewrite E, IH. reflexivity.
Qed.

Lemma filter_digits_all (s : str) :
  Forall (fun c => is_digit c = true) (List.filter is_digit s).
Proof.
  apply Forall_forall. intros c Hc.
  apply list_elem_of_In, filter_In in Hc as [_ Hc]. exact Hc.
Qed.

(** X26: a tax id [validate_tax_id] returns has thirteen characters and is
    accepted and returned unchanged when validated again; so is, with the
    same result, the input reduced to its digits. *)
Theorem validate_tax_id_round_trip (tax_id r : str) :
  validate_tax_id tax_id = inr r →
  validate_tax_id r = inr r
  ∧ validate_tax_id (List.filter is_digit tax_id) = inr r
  ∧ length r = 13%nat.
Proof.
  intros Hr.
  assert (accepts (validate_tax_id tax_id)) as Ha by (exists r; exact Hr).
  apply validate_tax_id_accepts in Ha.
  rewrite validate_tax_id_cases, Ha in Hr. injection Hr as <-.
  pose proof Ha as Hb. apply andb_true_iff in Hb as [Hlen _].
  apply Nat.eqb_eq in Hlen.
  pose proof (filter_digits_all tax_id) as Hall.
  destruct (format_tax_id_laid_out _ Hlen)
    as (a & b & c & d & e & f & g & h & i & j & k & Hds & Hfmt).
  assert (List.filter is_digit (format_tax_id (List.filter is_digit tax_id))
          = List.filter is_digit tax_id) as Hfix.
  { rewrite Hfmt, Hds. rewrite Hds in Hall.
    repeat match goal with
           | H : Forall _ (_ :: _) |- _ => apply Forall_cons in H as [? H]
           end.
    cbn [List.filter].
    repeat match goal with
           | H : is_digit ?x = true |- _ => rewrite H; clear H
           end.
    reflexivity. }
  split; [|split].
  - rewrite validate_tax_id_cases, Hfix, Ha. reflexivity.
  - rewrite validate_tax_id_cases, filter_digits_fixed, Ha. reflexivity.
  - rewrite Hfmt. reflexivity.
Qed.

Lemma validate_tax_id_round_trip_witness :
  validate_tax_id (lit "20-12345678-6") = inr (lit "20-12345678-6")
  ∧ validate_tax_id (lit "20123456786") = inr (lit "20-12345678-6")
  ∧ length (lit "20-12345678-6") = 13%nat.
Proof.
  apply (validate_tax_id_round_trip (lit " 20 12345678/6 ")). reflexivity.
Defined.

Lemma strip_line_feed (r : str) :
  plate_format r → strip (r ++ [LF]) = r.
Proof.
  intros Hf. destruct (plate_format_fixed r Hf) as (_ & Hstrip & _).
  pose proof (plate_format_nonempty r Hf) as Hne.
  destruct Hf as (p & _ & Hs). apply has_shape_plain in Hs.
  destruct r as [|c r]; [contradiction|].
  assert (isspace c = false) as Hc
    by (apply Forall_cons in Hs as [(Hc & _) _]; exact Hc).
  assert (lstrip (c :: r) = c :: r) as Hl
    by (unfold lstrip; cbn; rewrite Hc; reflexivity).
  unfold strip in *. rewrite Hl in Hstrip.
  assert (lstrip ((c :: r) ++ [LF]) = (c :: r) ++ [LF]) as ->
    by (unfold lstrip; cbn; rewrite Hc; reflexivity).
  unfold rstrip in *. rewrite rev_app_distr. cbn [rev app].
  change (drop_while isspace (LF :: (rev r ++ [c])))
    with (drop_while isspace (rev r ++ [c])).
  exact Hstrip.
Qed.

(** X27: what [validate_license_plate] returns is a plate in one of the
    three formats, possibly followed by one line feed, and validating it
    again returns the plate without the line feed, which from then on is
    returned unchanged: the result is stable after at most two
    validations. *)
Theorem license_plate_stabilises (license_plate r : str) :
  validate_license_plate license_plate = inr r →
  ∃ plate, plate_format plate
    ∧ (r = plate ∨ r = plate ++ [LF])
    ∧ validate_license_plate r = inr plate
    ∧ validate_license_plate plate = inr plate.
Proof.
  intros H. apply validate_license_plate_spec in H as (_ & _ & [Hf|(r0 & -> & Hf)]).
  - exists r. repeat split; auto using validate_license_plate_fixed.
  - exists r0. repeat split; auto using validate_license_plate_fixed.
    apply validate_license_plate_spec.
    destruct (plate_format_fixed r0 Hf) as (Ht & Hstrip & Hn).
    unfold normalize_plate in *.
    rewrite (strip_line_feed r0 Hf). rewrite Hstrip in Hn, Ht.
    repeat split; auto.
Qed.

Lemma license_plate_stabilises_witness :
  ∃ plate, plate_format plate
    ∧ (lit "AB123CD" = plate ∨ lit "AB123CD" = plate ++ [LF])
    ∧ validate_license_plate (lit "AB123CD") = inr plate
    ∧ validate_license_plate plate = inr plate.
Proof.
  apply (license_plate_stabilises (lit " ab 123-cd ")). reflexivity.
Defined.

End ValidatorRoundTrips.
